(** * DataScoop: inventory costing and reporting engine

    A shallow embedding of the engine functions of [DataScoop.py]
    ([add_location], [record_purchase], [record_sale], [_month_bounds],
    [generate_income_statement], [generate_flavor_sales_report]) and the
    properties of the specification checked against them.

    Conventions of the embedding.
    - The SQLite database is an explicit record [db]; every engine function
      is a computation in a state-and-exception monad over it.  When a
      computation raises, the state it returns is the working state at the
      point of the raise (nothing is rolled back on its behalf), so "no
      state change" is a statement about what was written before the raise.
    - Python [int] is [Z].  Python [float] and SQLite [REAL] are binary64
      values, each held as the rational [Q] it denotes.  The engine functions
      below carry out their arithmetic exactly; that reading serves the
      properties that turn on comparisons, on which rows are written and on
      the order of accumulation.  Module [B64] redoes the ledger arithmetic
      of [record_purchase] and [record_sale] with every operation rounded
      to binary64, and [round] in the reports acts on the binary64 value.
      Rounding is [round64]: to the nearest value of 53 significant bits,
      ties to the even one, gradual underflow included; overflow to
      infinity, which takes magnitudes beyond 1.7e308, is left out.
    - Python [str] and SQLite [TEXT] are [string]; each character is one
      code point below 256.  [TEXT] is compared bytewise (BINARY collation),
      which is [String.compare].
    - SQLite does not enforce the [FOREIGN KEY] clauses (the pragma is never
      switched on), so they do not appear in the model. *)

From Stdlib Require Import ZArith QArith Qfield String Ascii List Lia Bool.
From Stdlib Require Import DecimalString Qround Qabs Qpower Lqa Sorted.
From Stdlib Require Qcanon.
From stdpp Require Import gmap strings list.
Import ListNotations.

Local Open Scope Z_scope.
Local Open Scope string_scope.

(** ** Business constants *)

Definition OZ_PER_CONTAINER : Z := 5 * 128.

Definition NAPKIN_COST_PER_ORDER : Q := (20 / 10000 * 2)%Q.

Definition SALE_PRICES : list (string * Q) :=
  [("Kiddie", 3 # 1); ("Small", 7 # 2); ("Medium", 4 # 1); ("Large", 9 # 2)]%Q.

Definition SCOOPS_OZ : list (string * Z) :=
  [("Kiddie", 4); ("Small", 8); ("Medium", 12); ("Large", 16)].

Definition FIXED_EXPENSES : list (string * Q) :=
  [("rent", 1000 # 1); ("utilities", 250 # 1); ("labor", 15000 # 1);
   ("equipment_lease", 2000 # 1)]%Q.

Definition FLAVORS : list (string * Q) :=
  [("Vanilla", 2 # 1); ("Chocolate", 2 # 1); ("Neapolitan", 5 # 2);
   ("Cookies & Cream", 3 # 1); ("Cookie Dough", 3 # 1)]%Q.

Definition CONTAINERS : list (string * Q * Z) :=
  [("Standard Cone", 5 # 1, 100%Z); ("Waffle Cone", 6 # 1, 100%Z);
   ("Dish w/ Spoon", 9 # 2, 100%Z)]%Q.

(** A Python dict with string keys, in insertion order: [d.get(k)]. *)
Fixpoint dict_get {V : Type} (d : list (string * V)) (k : string) : option V :=
  match d with
  | [] => None
  | (k', v) :: d' => if String.eqb k' k then Some v else dict_get d' k
  end.

(** ** Exceptions *)

Inductive exn : Type :=
| ValueError (msg : string)
| TypeError
| IntegrityError
| KeyError_str (key : string)
| KeyError_int (key : Z)
| ZeroDivisionError.

(** ** The database *)

Record purchase_row : Type := mk_purchase {
  p_location_id : Z;
  p_flavor_id : Z;
  p_purchase_date : string;
  p_containers : Z;
  p_cost_per_container : Q
}.

Record sale_row : Type := mk_sale {
  s_location_id : Z;
  s_flavor_id : Z;
  s_sale_date : string;
  s_size : string;
  s_container_type_id : Z;
  s_quantity : Z
}.

(** [locations]: rows [(id, name)], [name] unique; [locations_seq] is the
    AUTOINCREMENT high-water mark.  [flavors]: rows
    [(id, name, cost_per_container)].  [containers]: rows
    [(id, name, price_per_pack, units_per_pack)].  [inventory_state]: primary
    key [(location_id, flavor_id)], value
    [(ounces_on_hand, avg_cost_per_oz)].  [purchases] and [sales]: rows in
    insertion order. *)
Record db : Type := mk_db {
  locations : list (Z * string);
  locations_seq : Z;
  flavors : list (Z * string * Q);
  containers : list (Z * string * Q * Z);
  inventory_state : gmap (Z * Z) (Q * Q);
  purchases : list purchase_row;
  sales : list sale_row
}.

Definition set_locations (rows : list (Z * string)) (seq : Z) (d : db) : db :=
  mk_db rows seq (flavors d) (containers d) (inventory_state d)
        (purchases d) (sales d).

Definition set_inventory_state (m : gmap (Z * Z) (Q * Q)) (d : db) : db :=
  mk_db (locations d) (locations_seq d) (flavors d) (containers d) m
        (purchases d) (sales d).

Definition set_purchases (rows : list purchase_row) (d : db) : db :=
  mk_db (locations d) (locations_seq d) (flavors d) (containers d)
        (inventory_state d) rows (sales d).

Definition set_sales (rows : list sale_row) (d : db) : db :=
  mk_db (locations d) (locations_seq d) (flavors d) (containers d)
        (inventory_state d) (purchases d) rows.

(** ** State and exception monad *)

Definition M (A : Type) : Type := db -> (exn + A) * db.

Definition ret {A : Type} (a : A) : M A := fun d => (inr a, d).

Definition bind {A B : Type} (m : M A) (k : A -> M B) : M B :=
  fun d => match m d with
           | (inr a, d') => k a d'
           | (inl e, d') => (inl e, d')
           end.

Definition raise {A : Type} (e : exn) : M A := fun d => (inl e, d).

Definition gets {A : Type} (f : db -> A) : M A := fun d => (inr (f d), d).

Definition modify (f : db -> db) : M unit := fun d => (inr tt, f d).

Notation "'let*' x ':=' m 'in' k" := (bind m (fun x => k))
  (at level 10, x pattern, m at level 100, k at level 200).

(** [for x in l: body(x)] *)
Fixpoint for_each {A : Type} (l : list A) (body : A -> M unit) : M unit :=
  match l with
  | [] => ret tt
  | x :: l' => let* _ := body x in for_each l' body
  end.

(** [try: m  except sqlite3.IntegrityError: h] *)
Definition except_IntegrityError {A : Type} (m : M A) (h : M A) : M A :=
  fun d => match m d with
           | (inl IntegrityError, d') => h d'
           | r => r
           end.

(** ** Python and SQLite primitives *)

Definition Qlt_bool (x y : Q) : bool := negb (Qle_bool y x).

(** [str.isspace] on one code point below 256. *)
Definition is_space (c : ascii) : bool :=
  let n := nat_of_ascii c in
  ((9 <=? n) && (n <=? 13) || (28 <=? n) && (n <=? 32)
   || (n =? 133) || (n =? 160))%nat.

Fixpoint lstrip (s : string) : string :=
  match s with
  | EmptyString => EmptyString
  | String c s' => if is_space c then lstrip s' else s
  end.

Fixpoint rstrip (s : string) : string :=
  match s with
  | EmptyString => EmptyString
  | String c s' =>
      match rstrip s' with
      | EmptyString => if is_space c then EmptyString else String c EmptyString
      | r => String c r
      end
  end.

(** [s.strip()] *)
Definition strip (s : string) : string := rstrip (lstrip s).

Definition max_rowid (rows : list (Z * string)) : Z :=
  fold_right (fun r acc => Z.max (fst r) acc) 0 rows.

Definition name_taken (name : string) (rows : list (Z * string)) : bool :=
  existsb (fun r => String.eqb (snd r) name) rows.

(** [INSERT INTO locations(name) VALUES (?)]: the UNIQUE constraint on
    [name] raises [IntegrityError]; otherwise the new row gets an id one
    above every id the table has ever held. *)
Definition insert_location (name : string) : M unit :=
  fun d =>
    if name_taken name (locations d) then (inl IntegrityError, d)
    else
      let id := Z.max (locations_seq d) (max_rowid (locations d)) + 1 in
      (inr tt, set_locations (locations d ++ [(id, name)]) id d).

(** [SELECT id FROM locations WHERE name=?] then [cur.fetchone()[0]]. *)
Definition select_location_id (name : string) : M Z :=
  fun d =>
    match find (fun r => String.eqb (snd r) name) (locations d) with
    | Some r => (inr (fst r), d)
    | None => (inl TypeError, d)
    end.

(** [SELECT id FROM flavors] *)
Definition select_flavor_ids : M (list Z) :=
  gets (fun d => map (fun r => fst (fst r)) (flavors d)).

(** [INSERT OR IGNORE INTO inventory_state(...) VALUES (?,?,0,0)] *)
Definition insert_or_ignore_inventory (location_id flavor_id : Z) : M unit :=
  modify (fun d =>
    match inventory_state d !! (location_id, flavor_id) with
    | Some _ => d
    | None =>
        set_inventory_state
          (<[(location_id, flavor_id) := (0%Q, 0%Q)]> (inventory_state d)) d
    end).

(** [SELECT cost_per_container FROM flavors WHERE id=?] then
    [float(cur.fetchone()[0])]: subscripting [None] is a [TypeError]. *)
Definition select_flavor_cost (flavor_id : Z) : M Q :=
  fun d =>
    match find (fun r => Z.eqb (fst (fst r)) flavor_id) (flavors d) with
    | Some r => (inr (snd r), d)
    | None => (inl TypeError, d)
    end.

Definition insert_purchase (r : purchase_row) : M unit :=
  modify (fun d => set_purchases (purchases d ++ [r]) d).

Definition insert_sale (r : sale_row) : M unit :=
  modify (fun d => set_sales (sales d ++ [r]) d).

(** [SELECT ounces_on_hand, avg_cost_per_oz FROM inventory_state WHERE ...]
    then [cur.fetchone()]. *)
Definition select_inventory (location_id flavor_id : Z) : M (option (Q * Q)) :=
  gets (fun d => inventory_state d !! (location_id, flavor_id)).

(** [INSERT INTO inventory_state(...) VALUES (?,?,?,?)]: a primary-key
    clash raises [IntegrityError]. *)
Definition insert_inventory (location_id flavor_id : Z) (oz avg : Q) : M unit :=
  fun d =>
    match inventory_state d !! (location_id, flavor_id) with
    | Some _ => (inl IntegrityError, d)
    | None =>
        (inr tt,
         set_inventory_state
           (<[(location_id, flavor_id) := (oz, avg)]> (inventory_state d)) d)
    end.

(** [UPDATE inventory_state SET ounces_on_hand=?, avg_cost_per_oz=? WHERE ...]:
    touches the row when there is one, nothing otherwise. *)
Definition update_inventory (location_id flavor_id : Z) (oz avg : Q) : M unit :=
  modify (fun d =>
    set_inventory_state
      (alter (fun _ => (oz, avg)) (location_id, flavor_id) (inventory_state d))
      d).

(** [UPDATE inventory_state SET ounces_on_hand=? WHERE ...] *)
Definition update_ounces_on_hand (location_id flavor_id : Z) (oz : Q) : M unit :=
  modify (fun d =>
    set_inventory_state
      (alter (fun row => (oz, snd row)) (location_id, flavor_id)
             (inventory_state d))
      d).

(** ** Catalog and transaction recorder *)

(** [init_db]: the tables exist already in [db]; seeding happens only into
    empty [flavors] and [containers] tables. *)
Fixpoint seed_flavors (next : Z) (l : list (string * Q)) : list (Z * string * Q) :=
  match l with
  | [] => []
  | (n, c) :: l' => (next, n, c) :: seed_flavors (next + 1) l'
  end.

Fixpoint seed_containers (next : Z) (l : list (string * Q * Z))
  : list (Z * string * Q * Z) :=
  match l with
  | [] => []
  | (n, p, u) :: l' => (next, n, p, u) :: seed_containers (next + 1) l'
  end.

Definition init_db (d : db) : db :=
  mk_db (locations d) (locations_seq d)
        (match flavors d with [] => seed_flavors 1 FLAVORS | fs => fs end)
        (match containers d with [] => seed_containers 1 CONTAINERS | cs => cs end)
        (inventory_state d) (purchases d) (sales d).

Definition empty_db : db := mk_db [] 0 [] [] ∅ [] [].

(** The two [con.commit()] calls make the writes durable; they have no
    effect on what the connection itself reads back, so they leave no trace
    here. *)
Definition add_location (name : string) : M bool :=
  except_IntegrityError
    (let* _ := insert_location (strip name) in
     let* loc_id := select_location_id (strip name) in
     let* flavor_ids := select_flavor_ids in
     let* _ := for_each flavor_ids
                 (fun flavor_id => insert_or_ignore_inventory loc_id flavor_id) in
     ret true)
    (ret false).

(** [now] stands for [datetime.now().strftime("%Y-%m-%d")]. *)
Definition record_purchase (now : string) (location_id flavor_id containers : Z)
    (purchase_date : option string) : M unit :=
  let purchase_date :=
    match purchase_date with None => now | Some s => s end in
  let* cost_per_container := select_flavor_cost flavor_id in
  let* _ := insert_purchase
              (mk_purchase location_id flavor_id purchase_date containers
                           cost_per_container) in
  let added_oz := containers * OZ_PER_CONTAINER in
  let added_cost := (inject_Z containers * cost_per_container)%Q in
  let* row := select_inventory location_id flavor_id in
  let* old :=
    match row with
    | None =>
        let* _ := insert_inventory location_id flavor_id 0 0 in
        ret (0%Q, 0%Q)
    | Some r => ret (fst r, snd r)
    end in
  let old_oz := fst old in
  let old_avg := snd old in
  let old_cost := (old_oz * old_avg)%Q in
  let new_oz := (old_oz + inject_Z added_oz)%Q in
  let new_avg :=
    if Qlt_bool 0 new_oz then ((old_cost + added_cost) / new_oz)%Q else 0%Q in
  update_inventory location_id flavor_id new_oz new_avg.

Definition record_sale (now : string) (location_id flavor_id : Z) (size : string)
    (container_type_id quantity : Z) (sale_date : option string) : M unit :=
  let sale_date := match sale_date with None => now | Some s => s end in
  match dict_get SCOOPS_OZ size with
  | None => raise (ValueError "Invalid size")
  | Some oz_per_serving =>
      let oz_needed := oz_per_serving * quantity in
      let* row := select_inventory location_id flavor_id in
      let on_hand := match row with Some r => fst r | None => 0%Q end in
      if Qlt_bool on_hand (inject_Z oz_needed)
      then raise (ValueError "Insufficient inventory for this sale.")
      else
        let* _ := insert_sale
                    (mk_sale location_id flavor_id sale_date size
                             container_type_id quantity) in
        let new_on_hand := (on_hand - inject_Z oz_needed)%Q in
        update_ounces_on_hand location_id flavor_id new_on_hand
  end.

(** ** Reporting engine *)

Fixpoint zeros (n : nat) : string :=
  match n with
  | O => EmptyString
  | S n' => String "0" (zeros n')
  end.

(** The format spec [{n:0<width>d}]: sign-aware zero padding to [width]. *)
Definition format_0d (width : nat) (n : Z) : string :=
  let digits := NilZero.string_of_uint (N.to_uint (Z.abs_N n)) in
  let sign := if (n <? 0)%Z then "-" else "" in
  sign ++ zeros (width - String.length sign - String.length digits) ++ digits.

Definition _month_bounds (year month : Z) : string * string :=
  let start := format_0d 4 year ++ "-" ++ format_0d 2 month ++ "-01" in
  let end_ :=
    if (month =? 12)%Z then format_0d 4 (year + 1) ++ "-01-01"
    else format_0d 4 year ++ "-" ++ format_0d 2 (month + 1) ++ "-01" in
  (start, end_).

(** The SQL condition [sale_date>=? AND sale_date<?] on TEXT values. *)
Definition in_range (start end_ date : string) : bool :=
  negb (String.ltb date start) && String.ltb date end_.

(** Stable insertion sort, for the [ORDER BY] clauses. *)
Fixpoint insert_sorted {A : Type} (le : A -> A -> bool) (x : A) (l : list A)
  : list A :=
  match l with
  | [] => [x]
  | y :: l' => if le x y then x :: l else y :: insert_sorted le x l'
  end.

Definition order_by {A : Type} (le : A -> A -> bool) (l : list A) : list A :=
  fold_right (insert_sorted le) [] l.

(** [SELECT id, name FROM locations ORDER BY name] *)
Definition list_locations : M (list (Z * string)) :=
  gets (fun d => order_by (fun a b => String.leb (snd a) (snd b)) (locations d)).

(** [SELECT id, name, price_per_pack, units_per_pack FROM containers
    ORDER BY id] *)
Definition list_containers : M (list (Z * string * Q * Z)) :=
  gets (fun d =>
    order_by (fun a b => Z.leb (fst (fst (fst a))) (fst (fst (fst b))))
             (containers d)).

(** A Python dict with integer keys, in insertion order. *)
Fixpoint zdict_get {V : Type} (d : list (Z * V)) (k : Z) : option V :=
  match d with
  | [] => None
  | (k', v) :: d' => if (k' =? k)%Z then Some v else zdict_get d' k
  end.

(** [d[k] = v] *)
Fixpoint zdict_set {V : Type} (d : list (Z * V)) (k : Z) (v : V) : list (Z * V) :=
  match d with
  | [] => [(k, v)]
  | (k', v') :: d' =>
      if (k' =? k)%Z then (k', v) :: d' else (k', v') :: zdict_set d' k v
  end.

(** [{row[0]: ... for row in rows}] *)
Definition zdict_of_rows {R V : Type} (key : R -> Z) (val : R -> V) (rows : list R)
  : list (Z * V) :=
  fold_left (fun d row => zdict_set d (key row) (val row)) rows [].

(** [for x in l: s = body(s, x)] *)
Fixpoint fold_M {A S : Type} (l : list A) (body : S -> A -> M S) (s : S) : M S :=
  match l with
  | [] => ret s
  | x :: l' => let* s' := body s x in fold_M l' body s'
  end.

Record statement : Type := mk_statement {
  revenue : Q;
  cogs_icecream : Q;
  cogs_containers : Q;
  cogs_napkins : Q;
  gross_profit : Q;
  operating_expenses : Q;
  operating_income : Q;
  net_income : Q
}.

(** [{k: 0.0 for k in [...]}] *)
Definition company_zero : statement := mk_statement 0 0 0 0 0 0 0 0.

(** [for k in company: company[k] += st[k]] *)
Definition company_add (company st : statement) : statement :=
  mk_statement
    (revenue company + revenue st)
    (cogs_icecream company + cogs_icecream st)
    (cogs_containers company + cogs_containers st)
    (cogs_napkins company + cogs_napkins st)
    (gross_profit company + gross_profit st)
    (operating_expenses company + operating_expenses st)
    (operating_income company + operating_income st)
    (net_income company + net_income st).

(** [SELECT sale_date, flavor_id, size, container_type_id, quantity FROM sales
    WHERE location_id=? AND sale_date>=? AND sale_date<?] *)
Definition select_sales_of_location (loc_id : Z) (start end_ : string)
  : M (list sale_row) :=
  gets (fun d =>
    List.filter
      (fun s => (s_location_id s =? loc_id)%Z && in_range start end_ (s_sale_date s))
      (sales d)).

(** The running values of the loop over [sales_rows]. *)
Record sales_acc : Type := mk_acc {
  acc_revenue : Q;
  acc_oz_sold_by_flavor : list (Z * Q);
  acc_container_orders : Z;
  acc_container_cost : Q
}.

(** One iteration of [for _date, flavor_id, size, container_type_id, qty in
    sales_rows]. *)
Definition sale_line (conts : list (Z * (string * Q * Z))) (acc : sales_acc)
    (row : sale_row) : M sales_acc :=
  let qty := s_quantity row in
  let price := match dict_get SALE_PRICES (s_size row) with
               | Some p => p
               | None => 0%Q
               end in
  let revenue := (acc_revenue acc + price * inject_Z qty)%Q in
  match dict_get SCOOPS_OZ (s_size row) with
  | None => raise (KeyError_str (s_size row))
  | Some oz_per_serving =>
      let oz := oz_per_serving * qty in
      let sold := match zdict_get (acc_oz_sold_by_flavor acc) (s_flavor_id row) with
                  | Some v => v
                  | None => 0%Q
                  end in
      let oz_sold_by_flavor :=
        zdict_set (acc_oz_sold_by_flavor acc) (s_flavor_id row)
                  (sold + inject_Z oz)%Q in
      match zdict_get conts (s_container_type_id row) with
      | None => raise (KeyError_int (s_container_type_id row))
      | Some (_, price_pack, units) =>
          if (units =? 0)%Z then raise ZeroDivisionError
          else
            let container_cost :=
              (acc_container_cost acc
               + (price_pack / inject_Z units) * inject_Z qty)%Q in
            let container_orders := acc_container_orders acc + qty in
            ret (mk_acc revenue oz_sold_by_flavor container_orders container_cost)
      end
  end.

(** One iteration of [for flavor_id, oz in oz_sold_by_flavor.items()]. *)
Definition flavor_cogs (loc_id : Z) (icecream_cogs : Q) (item : Z * Q) : M Q :=
  let* row := select_inventory loc_id (fst item) in
  let avg_cost := match row with Some r => snd r | None => 0%Q end in
  ret (icecream_cogs + avg_cost * snd item)%Q.

(** [sum(FIXED_EXPENSES.values())] *)
Definition sum_values (d : list (string * Q)) : Q :=
  fold_left (fun acc kv => (acc + snd kv)%Q) d 0%Q.

(** The body of [for loc_id, loc_name in list_locations(con)], up to the
    statement [st] it builds. *)
Definition location_statement (conts : list (Z * (string * Q * Z)))
    (start end_ : string) (loc_id : Z) : M statement :=
  let* sales_rows := select_sales_of_location loc_id start end_ in
  let* acc := fold_M sales_rows (sale_line conts) (mk_acc 0 [] 0 0) in
  let revenue := acc_revenue acc in
  let container_cost := acc_container_cost acc in
  let* icecream_cogs :=
    fold_M (acc_oz_sold_by_flavor acc) (flavor_cogs loc_id) 0%Q in
  let napkins_cogs :=
    (NAPKIN_COST_PER_ORDER * inject_Z (acc_container_orders acc))%Q in
  let cogs_total := (icecream_cogs + container_cost + napkins_cogs)%Q in
  let gross_profit := (revenue - cogs_total)%Q in
  let operating_expenses := sum_values FIXED_EXPENSES in
  let operating_income := (gross_profit - operating_expenses)%Q in
  let net_income := operating_income in
  ret (mk_statement revenue icecream_cogs container_cost napkins_cogs
                    gross_profit operating_expenses operating_income net_income).

(** One iteration of [for loc_id, loc_name in list_locations(con)]: [out]
    is the pair [(statements, company)]. *)
Definition location_step (conts : list (Z * (string * Q * Z)))
    (start end_ : string) (out : list (string * statement) * statement)
    (loc : Z * string) : M (list (string * statement) * statement) :=
  let* st := location_statement conts start end_ (fst loc) in
  ret ((fst out ++ [(snd loc, st)])%list, company_add (snd out) st).

Definition generate_income_statement (year month : Z)
  : M (list (string * statement) * statement) :=
  let start := fst (_month_bounds year month) in
  let end_ := snd (_month_bounds year month) in
  let* rows := list_containers in
  let conts :=
    zdict_of_rows (fun r => fst (fst (fst r)))
                  (fun r => (snd (fst (fst r)), snd (fst r), snd r)) rows in
  let* locs := list_locations in
  fold_M locs (location_step conts start end_) ([], company_zero).

(** ** Binary64 arithmetic *)

(** The nearest integer, ties going to the even neighbour. *)
Definition round_half_even (q : Q) : Z :=
  let f := Qfloor q in
  let r := (q - inject_Z f)%Q in
  if Qlt_bool r (1 # 2) then f
  else if Qlt_bool (1 # 2) r then f + 1
  else if Z.even f then f else f + 1.

(** [2^e] for any integer [e]. *)
Definition pow2 (e : Z) : Q :=
  if (0 <=? e)%Z then inject_Z (2 ^ e) else (1 # Z.to_pos (2 ^ (- e)))%Q.

(** For [0 < q], the integer [k] with [2^k <= q < 2^(k+1)]. *)
Definition ilog2 (q : Q) : Z :=
  let k := Z.log2 (Qnum q) - Z.log2 (Zpos (Qden q)) in
  if Qle_bool (pow2 k) q then k else k - 1.

(** The binary64 value nearest to [x]: 53 significant bits, the last place
    no finer than [2^-1074], ties to the even significand.  The result is
    in lowest terms. *)
Definition round64 (x : Q) : Q :=
  let x := Qred x in
  if Qeq_bool x 0 then 0%Q
  else
    let e := Z.max (ilog2 (Qabs x) - 52) (-1074) in
    Qred (inject_Z (round_half_even (x / pow2 e)) * pow2 e).

(** [float(n)] for an [int]; [x + y], [x - y], [x * y], [x / y] on floats. *)
Definition of_int (n : Z) : Q := round64 (inject_Z n).

Definition fadd (x y : Q) : Q := round64 (x + y).

Definition fsub (x y : Q) : Q := round64 (x - y).

Definition fmul (x y : Q) : Q := round64 (x * y).

Definition fdiv (x y : Q) : Q := round64 (x / y).

(** [round(x, ndigits)] on a float [x], for [ndigits >= 0]: the decimal of
    [ndigits] places nearest to the value of [x], ties to the even one,
    then the binary64 value nearest to that decimal. *)
Definition py_round (x : Q) (ndigits : nat) : Q :=
  let scale := inject_Z (10 ^ Z.of_nat ndigits) in
  round64 (inject_Z (round_half_even (x * scale)) / scale).

(** One group of [GROUP BY location_id, flavor_id, size] with its
    [SUM(quantity)]. *)
Fixpoint group_add (groups : list (Z * Z * string * Z))
    (loc_id flavor_id : Z) (size : string) (qty : Z)
  : list (Z * Z * string * Z) :=
  match groups with
  | [] => [(loc_id, flavor_id, size, qty)]
  | (l, f, s, q) :: groups' =>
      if (l =? loc_id)%Z && (f =? flavor_id)%Z && String.eqb s size
      then (l, f, s, q + qty) :: groups'
      else (l, f, s, q) :: group_add groups' loc_id flavor_id size qty
  end.

(** [SELECT location_id, flavor_id, size, SUM(quantity) FROM sales
    WHERE sale_date>=? AND sale_date<?
    GROUP BY location_id, flavor_id, size ORDER BY location_id, flavor_id] *)
Definition select_sales_grouped (start end_ : string)
  : M (list (Z * Z * string * Z)) :=
  gets (fun d =>
    let rows := List.filter (fun s => in_range start end_ (s_sale_date s)) (sales d) in
    let groups :=
      fold_left
        (fun g s => group_add g (s_location_id s) (s_flavor_id s) (s_size s)
                              (s_quantity s))
        rows [] in
    order_by
      (fun a b =>
         let '(la, fa, _, _) := a in
         let '(lb, fb, _, _) := b in
         (la <? lb)%Z || (la =? lb)%Z && (fa <=? fb)%Z)
      groups).

(** [report.setdefault(key, 0); report[key] += oz] on a dict keyed by
    [(loc_id, flavor_id)]. *)
Fixpoint report_add (report : list (Z * Z * Z)) (loc_id flavor_id oz : Z)
  : list (Z * Z * Z) :=
  match report with
  | [] => [(loc_id, flavor_id, 0 + oz)]
  | (l, f, v) :: report' =>
      if (l =? loc_id)%Z && (f =? flavor_id)%Z
      then (l, f, v + oz) :: report'
      else (l, f, v) :: report_add report' loc_id flavor_id oz
  end.

(** One iteration of [for loc_id, flavor_id, size, qty in rows]. *)
Definition report_line (report : list (Z * Z * Z)) (row : Z * Z * string * Z)
  : M (list (Z * Z * Z)) :=
  let '(loc_id, flavor_id, size, qty) := row in
  match dict_get SCOOPS_OZ size with
  | None => raise (KeyError_str size)
  | Some oz_per_serving => ret (report_add report loc_id flavor_id (oz_per_serving * qty))
  end.

Record flavor_sales_line : Type := mk_flavor_sales_line {
  fs_location : string;
  fs_flavor : string;
  fs_ounces_sold : Z;
  fs_containers_approx : Q
}.

Definition generate_flavor_sales_report (year month : Z)
  : M (list flavor_sales_line) :=
  let start := fst (_month_bounds year month) in
  let end_ := snd (_month_bounds year month) in
  let* flavor_names :=
    gets (fun d => zdict_of_rows (fun r => fst (fst r)) (fun r => snd (fst r))
                                 (flavors d)) in
  let* loc_names :=
    gets (fun d => zdict_of_rows (fun r => fst r) (fun r => snd r) (locations d)) in
  let* rows := select_sales_grouped start end_ in
  let* report := fold_M rows report_line [] in
  ret (map
         (fun item =>
            let '(loc_id, flavor_id, oz) := item in
            mk_flavor_sales_line
              (match zdict_get loc_names loc_id with
               | Some n => n
               | None => "Loc " ++ format_0d 0 loc_id
               end)
              (match zdict_get flavor_names flavor_id with
               | Some n => n
               | None => "Flavor " ++ format_0d 0 flavor_id
               end)
              oz
              (py_round (round64 (inject_Z oz / inject_Z OZ_PER_CONTAINER)) 2))
         report).

(** ** Sequences of operations *)

(** A call made against the engine; a call that raises leaves the database
    as it was at the raise and the next call proceeds, as the import loops
    do. *)
Inductive op : Type :=
| AddLocation (name : string)
| RecordPurchase (now : string) (location_id flavor_id containers : Z)
                 (purchase_date : option string)
| RecordSale (now : string) (location_id flavor_id : Z) (size : string)
             (container_type_id quantity : Z) (sale_date : option string).

Definition exec (o : op) (d : db) : db :=
  match o with
  | AddLocation name => snd (add_location name d)
  | RecordPurchase now l f c date => snd (record_purchase now l f c date d)
  | RecordSale now l f s ct q date => snd (record_sale now l f s ct q date d)
  end.

Definition exec_all (ops : list op) (d : db) : db :=
  fold_left (fun d o => exec o d) ops d.

(** The database after [init_db] on a new file. *)
Definition fresh_db : db := init_db empty_db.

(** ** The ledger arithmetic in binary64 *)

(** [record_purchase] and [record_sale] once more, every float operation
    rounded: [containers * cost_per_container] and [old_oz + added_oz]
    convert the [int] operand first; the comparisons [new_oz > 0] and
    [on_hand < oz_needed] are exact in Python as well. *)
Module B64.

Definition record_purchase (now : string) (location_id flavor_id containers : Z)
    (purchase_date : option string) : M unit :=
  let purchase_date :=
    match purchase_date with None => now | Some s => s end in
  let* cost_per_container := select_flavor_cost flavor_id in
  let* _ := insert_purchase
              (mk_purchase location_id flavor_id purchase_date containers
                           cost_per_container) in
  let added_oz := containers * OZ_PER_CONTAINER in
  let added_cost := fmul (of_int containers) cost_per_container in
  let* row := select_inventory location_id flavor_id in
  let* old :=
    match row with
    | None =>
        let* _ := insert_inventory location_id flavor_id 0 0 in
        ret (0%Q, 0%Q)
    | Some r => ret (fst r, snd r)
    end in
  let old_oz := fst old in
  let old_avg := snd old in
  let old_cost := fmul old_oz old_avg in
  let new_oz := fadd old_oz (of_int added_oz) in
  let new_avg :=
    if Qlt_bool 0 new_oz then fdiv (fadd old_cost added_cost) new_oz else 0%Q in
  update_inventory location_id flavor_id new_oz new_avg.

Definition record_sale (now : string) (location_id flavor_id : Z) (size : string)
    (container_type_id quantity : Z) (sale_date : option string) : M unit :=
  let sale_date := match sale_date with None => now | Some s => s end in
  match dict_get SCOOPS_OZ size with
  | None => raise (ValueError "Invalid size")
  | Some oz_per_serving =>
      let oz_needed := oz_per_serving * quantity in
      let* row := select_inventory location_id flavor_id in
      let on_hand := match row with Some r => fst r | None => 0%Q end in
      if Qlt_bool on_hand (inject_Z oz_needed)
      then raise (ValueError "Insufficient inventory for this sale.")
      else
        let* _ := insert_sale
                    (mk_sale location_id flavor_id sale_date size
                             container_type_id quantity) in
        let new_on_hand := fsub on_hand (of_int oz_needed) in
        update_ounces_on_hand location_id flavor_id new_on_hand
  end.

Definition exec (o : op) (d : db) : db :=
  match o with
  | AddLocation name => snd (add_location name d)
  | RecordPurchase now l f c date => snd (record_purchase now l f c date d)
  | RecordSale now l f s ct q date => snd (record_sale now l f s ct q date d)
  end.

Definition exec_all (ops : list op) (d : db) : db :=
  fold_left (fun d o => exec o d) ops d.

End B64.

(** [ounces_on_hand] of a ledger entry, a missing entry read as 0. *)
Definition on_hand (d : db) (location_id flavor_id : Z) : Q :=
  match inventory_state d !! (location_id, flavor_id) with
  | Some r => fst r
  | None => 0%Q
  end.

(** [avg_cost_per_oz] of a ledger entry, a missing entry read as 0. *)
Definition avg_cost (d : db) (location_id flavor_id : Z) : Q :=
  match inventory_state d !! (location_id, flavor_id) with
  | Some r => snd r
  | None => 0%Q
  end.

(** ** Inventory levels report *)

Record inventory_line : Type := mk_inventory_line {
  il_location : string;
  il_flavor : string;
  il_ounces_on_hand : Q;
  il_containers_approx : Q;
  il_avg_cost : Q
}.

(** The order of [ORDER BY location_id, flavor_id] on rows keyed by the
    pair. *)
Definition key_leb (a b : Z * Z) : bool :=
  (fst a <? fst b)%Z || (fst a =? fst b)%Z && (snd a <=? snd b)%Z.

(** [SELECT location_id, flavor_id, ounces_on_hand, avg_cost_per_oz
    FROM inventory_state ORDER BY location_id, flavor_id] *)
Definition select_inventory_ordered : M (list (Z * Z * (Q * Q))) :=
  gets (fun d =>
    order_by (fun a b => key_leb (fst a) (fst b))
             (map_to_list (inventory_state d))).

(** One iteration of [for loc_id, flavor_id, ounces_on_hand, avg_cost_per_oz
    in rows]. *)
Definition inventory_line_of (loc_names flv_names : list (Z * string))
    (row : Z * Z * (Q * Q)) : inventory_line :=
  let '(loc_id, flavor_id, (ounces_on_hand, avg_cost_per_oz)) := row in
  mk_inventory_line
    (match zdict_get loc_names loc_id with
     | Some n => n
     | None => "Loc " ++ format_0d 0 loc_id
     end)
    (match zdict_get flv_names flavor_id with
     | Some n => n
     | None => "Flavor " ++ format_0d 0 flavor_id
     end)
    (py_round ounces_on_hand 2)
    (py_round (fdiv ounces_on_hand (of_int OZ_PER_CONTAINER)) 2)
    (py_round avg_cost_per_oz 4).

Definition generate_inventory_levels : M (list inventory_line) :=
  let* loc_names :=
    gets (fun d => zdict_of_rows (fun r => fst r) (fun r => snd r) (locations d)) in
  let* flv_names :=
    gets (fun d => zdict_of_rows (fun r => fst (fst r)) (fun r => snd (fst r))
                                 (flavors d)) in
  let* rows := select_inventory_ordered in
  ret (map (inventory_line_of loc_names flv_names) rows).

(** ** The callbacks that drive the recorder *)

(** The message box a callback ends on. *)
Inductive dialog : Type :=
| ShowWarning (title message : string)
| ShowInfo (title message : string)
| ShowError (title message : string).

(** A line of [self.cart]. *)
Record cart_line : Type := mk_line {
  cl_location_id : Z;
  cl_flavor_id : Z;
  cl_size : string;
  cl_container_type_id : Z;
  cl_quantity : Z
}.

(** An argument whose evaluation may raise: the reading of a widget or of a
    CSV field through [int(...)]. *)
Definition eval_arg {A : Type} (x : exn + A) : M A :=
  match x with
  | inl e => raise e
  | inr a => ret a
  end.

(** [try: m  except ValueError as e: h(str(e))] *)
Definition except_ValueError {A : Type} (m : M A) (h : string -> M A) : M A :=
  fun d => match m d with
           | (inl (ValueError msg), d') => h msg d'
           | r => r
           end.


(** [App.add_location_cb]: [entry] is the text of the name field; the
    result carries the text left in it. *)
Definition add_location_cb (entry : string) : M (dialog * string) :=
  let name := strip entry in
  if String.eqb name "" then
    ret (ShowWarning "Validation" "Location name required.", entry)
  else
    let* added := add_location name in
    if added then ret (ShowInfo "Success" "Location added.", "")
    else ret (ShowError "Error" "Location already exists or failed to add.", entry).

(** [App.save_restock_cb]: [loc] and [flavor] are the ids of the chosen
    combobox entries ([None] when nothing is chosen), [qty] the reading of
    the quantity field. *)
Definition save_restock_cb (now : string) (loc flavor : option Z) (qty : exn + Z)
  : M dialog :=
  match loc, flavor with
  | Some loc_id, Some flavor_id =>
      let* qty := eval_arg qty in
      if (qty <=? 0)%Z then
        ret (ShowWarning "Validation" "Quantity must be positive.")
      else
        let* _ := record_purchase now loc_id flavor_id qty None in
        ret (ShowInfo "Saved" "Inventory restocked.")
  | _, _ => ret (ShowWarning "Validation" "Select location and flavor.")
  end.

(** [App.add_to_cart]: [fields] is the outcome of the [try] block that
    reads the five widgets, [None] when one of the readings raised. *)
Definition add_to_cart (fields : option cart_line) (cart : list cart_line)
  : dialog * list cart_line :=
  match fields with
  | None => (ShowWarning "Validation" "Please complete all fields correctly.", cart)
  | Some line =>
      if (cl_quantity line <=? 0)%Z then
        (ShowWarning "Validation" "Quantity must be positive.", cart)
      else (ShowInfo "Cart" "Item added to cart.", (cart ++ [line])%list)
  end.

(** [0 <= idx < len(self.cart)] *)
Definition in_cart (idx : Z) (cart : list cart_line) : bool :=
  (0 <=? idx)%Z && (idx <? Z.of_nat (length cart))%Z.

(** [App.delete_selected_cart_item]: [sel] is the index of the selected row
    of the tree, [None] when no row is selected. *)
Definition delete_selected_cart_item (sel : option Z) (cart : list cart_line)
  : list cart_line :=
  match sel with
  | None => cart
  | Some idx =>
      if in_cart idx cart then delete (Z.to_nat idx) cart else cart
  end.

(** [App.adjust_qty] *)
Definition adjust_qty (sel : option Z) (delta : Z) (cart : list cart_line)
  : list cart_line :=
  match sel with
  | None => cart
  | Some idx =>
      if in_cart idx cart then
        match cart !! Z.to_nat idx with
        | Some line =>
            let line' :=
              mk_line (cl_location_id line) (cl_flavor_id line) (cl_size line)
                      (cl_container_type_id line) (cl_quantity line + delta) in
            if (cl_quantity line' <=? 0)%Z then delete (Z.to_nat idx) cart
            else <[Z.to_nat idx := line']> cart
        | None => cart
        end
      else cart
  end.

(** The call [record_sale(line["location_id"], ..., line["quantity"])]. *)
Definition record_line (now : string) (line : cart_line) : M unit :=
  record_sale now (cl_location_id line) (cl_flavor_id line) (cl_size line)
              (cl_container_type_id line) (cl_quantity line) None.

(** [App.process_order]: the result carries the cart it leaves. *)
Definition process_order (now : string) (cart : list cart_line)
  : M (dialog * list cart_line) :=
  match cart with
  | [] => ret (ShowInfo "Checkout" "Your cart is empty.", cart)
  | _ =>
      except_ValueError
        (let* _ := for_each cart (record_line now) in
         ret (ShowInfo "Checkout" "Thank you! Your order has been processed.", []))
        (fun e =>
           ret (ShowError "Checkout"
                          ("Order failed: " ++ e ++ " No items were charged."),
                cart))
  end.









(** * Vocabulary of the properties *)

(** ** Outcomes of the recorder calls *)

(** The two errors [record_sale] raises. *)
Definition insufficient : exn := ValueError "Insufficient inventory for this sale.".

Definition invalid_size : exn := ValueError "Invalid size".

(** The database a sale leaves behind when it goes through. *)
Definition after_sale (d : db) (row : sale_row) (oz_needed : Z) : db :=
  let l := s_location_id row in
  let f := s_flavor_id row in
  mk_db (locations d) (locations_seq d) (flavors d) (containers d)
        (alter (fun r => ((on_hand d l f - inject_Z oz_needed)%Q, snd r)) (l, f)
               (inventory_state d))
        (purchases d) (sales d ++ [row]).

(** The ledger entry a purchase of [c] containers at [p] per container
    writes over the entry [old]. *)
Definition purchased (old : Q * Q) (c : Z) (p : Q) : Q * Q :=
  let new_oz := (fst old + inject_Z (c * OZ_PER_CONTAINER))%Q in
  (new_oz,
   if Qlt_bool 0 new_oz
   then ((fst old * snd old + inject_Z c * p) / new_oz)%Q
   else 0%Q).

(** The database a purchase leaves behind when it goes through. *)
Definition after_purchase (d : db) (row : purchase_row) : db :=
  let l := p_location_id row in
  let f := p_flavor_id row in
  mk_db (locations d) (locations_seq d) (flavors d) (containers d)
        (<[(l, f) := purchased (on_hand d l f, avg_cost d l f)
                               (p_containers row) (p_cost_per_container row)]>
           (inventory_state d))
        (purchases d ++ [row]) (sales d).

(** The reference cost of a flavor, when the flavor is in the catalog. *)
Definition flavor_cost (d : db) (flavor_id : Z) : option Q :=
  snd <$> find (fun r => Z.eqb (fst (fst r)) flavor_id) (flavors d).

(** The zero entries [add_location] inserts for a new location: one per
    flavor that has none yet. *)
Definition zero_entries (loc_id : Z) (flavor_ids : list Z)
    (m : gmap (Z * Z) (Q * Q)) : gmap (Z * Z) (Q * Q) :=
  fold_left
    (fun m fid =>
       match m !! (loc_id, fid) with
       | Some _ => m
       | None => <[(loc_id, fid) := (0%Q, 0%Q)]> m
       end)
    flavor_ids m.

(** The id the next inserted location gets. *)
Definition new_location_id (d : db) : Z :=
  Z.max (locations_seq d) (max_rowid (locations d)) + 1.

Definition flavor_ids (d : db) : list Z :=
  map (fun r => fst (fst r)) (flavors d).

Definition location_names (d : db) : list string := map snd (locations d).

(** The database [add_location] leaves behind when the insert goes through. *)
Definition after_add_location (d : db) (name : string) : db :=
  let id := new_location_id d in
  mk_db (locations d ++ [(id, name)]) id (flavors d) (containers d)
        (zero_entries id (flavor_ids d) (inventory_state d))
        (purchases d) (sales d).

(** ** Ledger invariants *)

(** No ledger entry holds a negative quantity. *)
Definition ledger_nonneg (d : db) : Prop :=
  forall k r, inventory_state d !! k = Some r -> (0 <= fst r)%Q.

(** Purchases of a positive number of containers, sales of a positive
    quantity. *)
Definition positive_counts (o : op) : Prop :=
  match o with
  | AddLocation _ => True
  | RecordPurchase _ _ _ c _ => 0 < c
  | RecordSale _ _ _ _ _ q _ => 0 < q
  end.

(** The four sizes of the price and serving tables. *)
Definition SIZES : list string := ["Kiddie"; "Small"; "Medium"; "Large"].

Definition known_size (s : sale_row) : Prop := In (s_size s) SIZES.

(** Every recorded sale has one of the four sizes. *)
Definition sizes_known (d : db) : Prop := Forall known_size (sales d).

(** The same for a row of the grouped query of the flavor sales report. *)
Definition group_known (g : Z * Z * string * Z) : Prop := In (snd (fst g)) SIZES.

(** ** Runs of purchases *)

(** A run of purchases on one [(location_id, flavor_id)]: each element of
    the list is the container count of a call and the flavor's per-container
    cost that the call read.  Between two purchases the database may change
    in any way that leaves this ledger entry alone (no sale, no other
    purchase on it): in particular the reference cost of the flavor may. *)
Inductive purchase_run (l f : Z) : db -> list (Z * Q) -> db -> Prop :=
| run_done d : purchase_run l f d [] d
| run_step d now c date p d1 d2 ps d3 :
    flavor_cost d f = Some p ->
    record_purchase now l f c date d = (inr tt, d1) ->
    inventory_state d2 !! (l, f) = inventory_state d1 !! (l, f) ->
    purchase_run l f d2 ps d3 ->
    purchase_run l f d ((c, p) :: ps) d3.

(** Total cost paid and total ounces bought over a run. *)
Definition total_cost (ps : list (Z * Q)) : Q :=
  fold_right (fun cp acc => (inject_Z (fst cp) * snd cp + acc)%Q) 0%Q ps.

Definition total_oz (ps : list (Z * Q)) : Z :=
  fold_right (fun cp acc => fst cp * OZ_PER_CONTAINER + acc) 0 ps.

(** The purchases of a run as lots [(q, c)]: [q] the ounces bought, [c] the
    cost paid per ounce. *)
Definition lots (ps : list (Z * Q)) : list (Q * Q) :=
  map (fun cp => (inject_Z (fst cp * OZ_PER_CONTAINER),
                  (snd cp / inject_Z OZ_PER_CONTAINER)%Q)) ps.

Definition sum_qc (qcs : list (Q * Q)) : Q :=
  fold_right (fun qc acc => (fst qc * snd qc + acc)%Q) 0%Q qcs.

Definition sum_q (qcs : list (Q * Q)) : Q :=
  fold_right (fun qc acc => (fst qc + acc)%Q) 0%Q qcs.

(** ** Income statement *)

(** The sum of one field over the per-location statements, in their order. *)
Definition sum_field (field : statement -> Q) (sts : list (string * statement)) : Q :=
  fold_left (fun acc ns => (acc + field (snd ns))%Q) sts 0%Q.

(** The sale rows of a location that fall in the window of a month. *)
Definition period_sales (d : db) (year month loc_id : Z) : list sale_row :=
  List.filter
    (fun s => (s_location_id s =? loc_id)%Z
              && in_range (fst (_month_bounds year month))
                          (snd (_month_bounds year month)) (s_sale_date s))
    (sales d).

(** The servings sold over some sale rows. *)
Definition total_quantity (rows : list sale_row) : Z :=
  fold_right (fun s acc => s_quantity s + acc) 0 rows.

(** ** Dates *)

(** A date in the form YYYY-MM-DD. *)
Definition iso_date (y m d : Z) : string :=
  format_0d 4 y ++ "-" ++ format_0d 2 m ++ "-" ++ format_0d 2 d.

(** The test the reports apply to [sale_date] for [(year, month)]. *)
Definition in_month (year month : Z) (date : string) : bool :=
  in_range (fst (_month_bounds year month)) (snd (_month_bounds year month)) date.

Definition is_leap (y : Z) : bool :=
  ((y mod 4 =? 0) && negb (y mod 100 =? 0) || (y mod 400 =? 0))%Z.

(** The number of the last day of a month. *)
Definition days_in_month (y m : Z) : Z :=
  if (m =? 2)%Z then (if is_leap y then 29 else 28)
  else if ((m =? 4) || (m =? 6) || (m =? 9) || (m =? 11))%Z then 30
  else 31.

(** Decimal digits, two at a time. *)
Definition digit (k : Z) : ascii := ascii_of_nat (48 + Z.to_nat k).

Definition two_digits (n : Z) (rest : string) : string :=
  String (digit (n / 10)) (String (digit (n mod 10)) rest).

Definition comparison_eqb (x y : comparison) : bool :=
  match x, y with
  | Eq, Eq | Lt, Lt | Gt, Gt => true
  | _, _ => false
  end.

(** [format_0d 4] writes the hundreds and the units of a number below
    10000 on two digits each. *)
Definition four_digits_agree (h l : Z) : bool :=
  String.eqb (format_0d 4 (100 * h + l)) (two_digits h (two_digits l "")).

(** Two digit characters compare as the numbers they write. *)
Definition digits_agree (a b : Z) : bool :=
  comparison_eqb
    match Ascii.compare (digit (a / 10)) (digit (b / 10)) with
    | Eq => Ascii.compare (digit (a mod 10)) (digit (b mod 10))
    | c => c
    end (a ?= b)%Z.

(** The order of triples, from the orders of their components. *)
Definition lex3 (c1 c2 c3 : comparison) : comparison :=
  match c1 with
  | Eq => match c2 with Eq => c3 | c => c end
  | c => c
  end.

(** ** Sample databases *)

(** One location, nothing in stock. *)
Definition located_db : db := exec (AddLocation "Main") fresh_db.

(** One location stocked with one container of flavor 1. *)
Definition stocked_ops : list op :=
  [AddLocation "Main"; RecordPurchase "2024-05-01" 1 1 1 None].

Definition stocked_db : db := exec_all stocked_ops fresh_db.

(** Two locations, each stocked and with sales in May 2024. *)
Definition report_ops : list op :=
  [AddLocation "Main"; AddLocation "Annex";
   RecordPurchase "2024-05-01" 1 1 1 None;
   RecordPurchase "2024-05-01" 2 3 1 None;
   RecordSale "2024-05-02" 1 1 "Medium" 1 5 None;
   RecordSale "2024-05-03" 2 3 "Small" 2 3 None;
   RecordSale "2024-05-31" 1 1 "Large" 3 2 None].

Definition report_db : db := exec_all report_ops fresh_db.

(** Its income statement for May 2024. *)
Definition may_report : list (string * statement) * statement :=
  Eval vm_compute in
    match fst (generate_income_statement 2024 5 report_db) with
    | inr r => r
    | inl _ => ([], company_zero)
    end.

(** Unfolds the projections of the database records. *)
Ltac db_simpl :=
  cbn [locations locations_seq flavors containers inventory_state purchases
       sales set_locations set_inventory_state set_purchases set_sales
       p_location_id p_flavor_id p_purchase_date p_containers
       p_cost_per_container s_location_id s_flavor_id s_sale_date s_size
       s_container_type_id s_quantity fst snd] in *.

(** ** Catalog and ledger, further *)

(** Location ids are pairwise distinct, and so are location names. *)
Definition locations_distinct (d : db) : Prop :=
  NoDup (map fst (locations d)) /\ NoDup (location_names d).

(** Every location has a ledger entry for every flavor of the catalog. *)
Definition ledger_covers (d : db) : Prop :=
  forall l f,
    In l (map fst (locations d)) -> In f (flavor_ids d) ->
    is_Some (inventory_state d !! (l, f)).

Definition zsum (l : list Z) : Z := fold_right Z.add 0 l.

(** The ounces the purchases log holds for a key. *)
Definition purchased_oz (d : db) (l f : Z) : Z :=
  zsum (map (fun p => p_containers p * OZ_PER_CONTAINER)
            (List.filter
               (fun p => (p_location_id p =? l)%Z && (p_flavor_id p =? f)%Z)
               (purchases d))).

(** The ounces of a sale row. *)
Definition sale_oz (s : sale_row) : Z :=
  match dict_get SCOOPS_OZ (s_size s) with
  | Some oz => oz * s_quantity s
  | None => 0
  end.

(** The ounces the sales log holds for a key. *)
Definition sold_oz (d : db) (l f : Z) : Z :=
  zsum (map sale_oz
            (List.filter
               (fun s => (s_location_id s =? l)%Z && (s_flavor_id s =? f)%Z)
               (sales d))).

(** The ledger agrees with the two logs. *)
Definition ledger_matches_log (d : db) : Prop :=
  forall l f,
    (on_hand d l f == inject_Z (purchased_oz d l f - sold_oz d l f))%Q.

(** Sales of a positive quantity; nothing asked of the other calls. *)
Definition sale_positive (o : op) : Prop :=
  match o with
  | RecordSale _ _ _ _ _ q _ => 0 < q
  | _ => True
  end.

(** ** Income statement, further *)

(** [SALE_PRICES.get(size, 0.0)] of a sale row. *)
Definition sale_price (s : sale_row) : Q :=
  match dict_get SALE_PRICES (s_size s) with
  | Some p => p
  | None => 0%Q
  end.

(** The dict [conts] that [generate_income_statement] builds. *)
Definition conts_of (d : db) : list (Z * (string * Q * Z)) :=
  zdict_of_rows (fun r : Z * string * Q * Z => fst (fst (fst r)))
                (fun r => (snd (fst (fst r)), snd (fst r), snd r))
                (order_by (fun a b => Z.leb (fst (fst (fst a))) (fst (fst (fst b))))
                          (containers d)).

(** The cost of one cone or dish of the container type of a sale row. *)
Definition unit_cost (conts : list (Z * (string * Q * Z))) (s : sale_row) : Q :=
  match zdict_get conts (s_container_type_id s) with
  | Some (_, price_pack, units) => (price_pack / inject_Z units)%Q
  | None => 0%Q
  end.

(** The locations in the order of the income statement. *)
Definition locations_by_name (d : db) : list (Z * string) :=
  order_by (fun a b => String.leb (snd a) (snd b)) (locations d).

(** Every recorded sale names a container type of the catalog, and no
    container type comes in packs of zero units. *)
Definition containers_known (d : db) : Prop :=
  Forall (fun s => In (s_container_type_id s)
                      (map (fun r => fst (fst (fst r))) (containers d)))
         (sales d)
  /\ Forall (fun r : Z * string * Q * Z => snd r <> 0) (containers d).

(** ** Flavor sales and inventory reports *)

(** The ounces of a row of the grouped query. *)
Definition group_oz (g : Z * Z * string * Z) : Z :=
  match dict_get SCOOPS_OZ (snd (fst g)) with
  | Some oz => oz * snd g
  | None => 0
  end.

(** The sale rows of all locations that fall in the window of a month. *)
Definition month_sales (d : db) (year month : Z) : list sale_row :=
  List.filter
    (fun s => in_range (fst (_month_bounds year month))
                       (snd (_month_bounds year month)) (s_sale_date s))
    (sales d).

(** The dicts of names the two reports build. *)
Definition loc_names_of (d : db) : list (Z * string) :=
  zdict_of_rows (fun r : Z * string => fst r) (fun r => snd r) (locations d).

Definition flv_names_of (d : db) : list (Z * string) :=
  zdict_of_rows (fun r : Z * string * Q => fst (fst r)) (fun r => snd (fst r))
                (flavors d).

(** Rows in the order of their keys. *)
Definition keys_ascend (rows : list (Z * Z * (Q * Q))) : Prop :=
  StronglySorted (fun a b => key_leb (fst a) (fst b) = true) rows.

(** ** Callbacks *)

(** The sale row a cart line is recorded as. *)
Definition sale_of_line (now : string) (line : cart_line) : sale_row :=
  mk_sale (cl_location_id line) (cl_flavor_id line) now (cl_size line)
          (cl_container_type_id line) (cl_quantity line).

(** Every line of the cart has a positive quantity. *)
Definition cart_positive (cart : list cart_line) : Prop :=
  Forall (fun line => 0 < cl_quantity line) cart.

(** What the user does through the location, restock, cart and checkout
    callbacks. *)
Inductive gui_event : Type :=
| EvAddLocation (entry : string)
| EvSaveRestock (now : string) (loc flavor : option Z) (qty : exn + Z)
| EvAddToCart (fields : option cart_line)
| EvDeleteSelected (sel : option Z)
| EvAdjustQty (sel : option Z) (delta : Z)
| EvProcessOrder (now : string).

(** The database and the cart after a callback has run; a callback that
    raises stops there. *)
Definition gui_step (ev : gui_event) (st : db * list cart_line)
  : db * list cart_line :=
  let '(d, cart) := st in
  match ev with
  | EvAddLocation entry => (snd (add_location_cb entry d), cart)
  | EvSaveRestock now loc flavor qty =>
      (snd (save_restock_cb now loc flavor qty d), cart)
  | EvAddToCart fields => (d, snd (add_to_cart fields cart))
  | EvDeleteSelected sel => (d, delete_selected_cart_item sel cart)
  | EvAdjustQty sel delta => (d, adjust_qty sel delta cart)
  | EvProcessOrder now =>
      match process_order now cart d with
      | (inr (_, cart'), d') => (d', cart')
      | (inl _, d') => (d', cart)
      end
  end.

Definition gui_run (evs : list gui_event) (st : db * list cart_line)
  : db * list cart_line :=
  fold_left (fun st ev => gui_step ev st) evs st.

(** What the callbacks keep true of the database and the cart. *)
Definition gui_sound (st : db * list cart_line) : Prop :=
  ledger_nonneg (fst st)
  /\ cart_positive (snd st)
  /\ Forall (fun p => 0 < p_containers p) (purchases (fst st))
  /\ Forall (fun s => 0 < s_quantity s) (sales (fst st)).

(** Every stored location name is its own [strip]. *)
Definition names_stripped (d : db) : Prop :=
  Forall (fun n => strip n = n) (location_names d).

(** A sale of location 1 in May 2024 that names container type 9. *)
Definition odd_sale : sale_row := mk_sale 1 1 "2024-05-20" "Small" 9 1.

Definition odd_db : db :=
  exec (RecordSale "2024-05-20" 1 1 "Small" 9 1 None) stocked_db.

(** ** The ledger in binary64 *)

(** The ledger entry a purchase of [c] containers at [p] per container
    writes over the entry [old], every operation rounded. *)
Definition purchased64 (old : Q * Q) (c : Z) (p : Q) : Q * Q :=
  let new_oz := fadd (fst old) (of_int (c * OZ_PER_CONTAINER)) in
  (new_oz,
   if Qlt_bool 0 new_oz
   then fdiv (fadd (fmul (fst old) (snd old)) (fmul (of_int c) p)) new_oz
   else 0%Q).

(** The database a binary64 purchase leaves behind when it goes through. *)
Definition after_purchase64 (d : db) (row : purchase_row) : db :=
  let l := p_location_id row in
  let f := p_flavor_id row in
  mk_db (locations d) (locations_seq d) (flavors d) (containers d)
        (<[(l, f) := purchased64 (on_hand d l f, avg_cost d l f)
                                 (p_containers row) (p_cost_per_container row)]>
           (inventory_state d))
        (purchases d ++ [row]) (sales d).

(** The database a binary64 sale leaves behind when it goes through. *)
Definition after_sale64 (d : db) (row : sale_row) (oz_needed : Z) : db :=
  let l := s_location_id row in
  let f := s_flavor_id row in
  mk_db (locations d) (locations_seq d) (flavors d) (containers d)
        (alter (fun r => (fsub (on_hand d l f) (of_int oz_needed), snd r)) (l, f)
               (inventory_state d))
        (purchases d) (sales d ++ [row]).

(** An integer that SQLite can hold: binding any other raises. *)
Definition int64 (n : Z) : Prop := - 2 ^ 63 <= n < 2 ^ 63.

(** A call all of whose integer arguments SQLite can hold. *)
Definition op_int64 (o : op) : Prop :=
  match o with
  | AddLocation _ => True
  | RecordPurchase _ l f c _ => int64 l /\ int64 f /\ int64 c
  | RecordSale _ l f _ ct q _ => int64 l /\ int64 f /\ int64 ct /\ int64 q
  end.

(** A value that rounds to a finite binary64 value: the magnitudes from
    [2^1024 - 2^970] on round to infinity. *)
Definition fits64 (x : Q) : Prop := (Qabs x < pow2 1024 - pow2 970)%Q.

(** No operation of a purchase of [c] containers at [p] on the entry [old]
    overflows. *)
Definition purchase_fits64 (old : Q * Q) (c : Z) (p : Q) : Prop :=
  let new_oz := fadd (fst old) (of_int (c * OZ_PER_CONTAINER)) in
  let old_cost := fmul (fst old) (snd old) in
  let added_cost := fmul (of_int c) p in
  fits64 (of_int c * p)
  /\ fits64 (fst old * snd old)
  /\ fits64 (fst old + of_int (c * OZ_PER_CONTAINER))
  /\ fits64 (old_cost + added_cost)
  /\ ((0 < new_oz)%Q -> fits64 ((old_cost + added_cost) / new_oz)).

(** A run of purchases on one key as [purchase_run] has it, each purchase
    computed in binary64. *)
Inductive purchase_run64 (l f : Z) : db -> list (Z * Q) -> db -> Prop :=
| run64_done d : purchase_run64 l f d [] d
| run64_step d now c date p d1 d2 ps d3 :
    flavor_cost d f = Some p ->
    B64.record_purchase now l f c date d = (inr tt, d1) ->
    inventory_state d2 !! (l, f) = inventory_state d1 !! (l, f) ->
    purchase_run64 l f d2 ps d3 ->
    purchase_run64 l f d ((c, p) :: ps) d3.

(** The database with flavor 1 alone in the catalog, at reference cost [p]. *)
Definition repriced (p : Q) (d : db) : db :=
  mk_db (locations d) (locations_seq d) [(1, "Vanilla", p)] (containers d)
        (inventory_state d) (purchases d) (sales d).

(** Three purchases of flavor 1 at location 1: one container at 2.0, eight
    at 3.0, one at 2.0. *)
Definition three_purchases : list (Z * Q) :=
  [(1, (2 # 1)%Q); (8, (3 # 1)%Q); (1, (2 # 1)%Q)].

Definition lot_db1 : db :=
  snd (B64.record_purchase "2024-05-01" 1 1 1 None located_db).

Definition lot_db2 : db :=
  snd (B64.record_purchase "2024-05-02" 1 1 8 None (repriced (3 # 1) lot_db1)).

Definition lot_db3 : db :=
  snd (B64.record_purchase "2024-05-03" 1 1 1 None (repriced (2 # 1) lot_db2)).

(** The unit roundoff of binary64. *)
Definition u64 : Q := pow2 (-53).

(** [b^n] for a natural exponent. *)
Fixpoint qpow (b : Q) (n : nat) : Q :=
  match n with
  | O => 1%Q
  | S n' => (b * qpow b n')%Q
  end.

(** The least and the greatest reference cost the bound on the average is
    stated for: between them every intermediate value of a purchase is in
    the normal range of binary64, away from underflow and from overflow. *)
Definition least_cost : Q := pow2 (-900).

Definition greatest_cost : Q := pow2 900.

(** A lot the bound on the average covers: a positive number of containers
    at a reference cost in that range. *)
Definition lot_in_range (cp : Z * Q) : Prop :=
  0 < fst cp /\ (least_cost <= snd cp)%Q /\ (snd cp <= greatest_cost)%Q.

(** The ounces a call asks to move, whether or not it goes through. *)
Definition op_volume (o : op) : Z :=
  match o with
  | AddLocation _ => 0
  | RecordPurchase _ _ _ c _ => Z.abs (c * OZ_PER_CONTAINER)
  | RecordSale _ _ _ size _ q _ =>
      match dict_get SCOOPS_OZ size with
      | Some oz => Z.abs (oz * q)
      | None => 0
      end
  end.

Definition volume (ops : list op) : Z := zsum (map op_volume ops).

(** Two databases that differ at most in the average costs of the ledger. *)
Definition same_quantities (d64 d : db) : Prop :=
  locations d64 = locations d
  /\ locations_seq d64 = locations_seq d
  /\ flavors d64 = flavors d
  /\ containers d64 = containers d
  /\ purchases d64 = purchases d
  /\ sales d64 = sales d
  /\ forall k,
      match inventory_state d64 !! k, inventory_state d !! k with
      | Some r64, Some r => (fst r64 == fst r)%Q
      | None, None => True
      | _, _ => False
      end.

(** Every quantity of the ledger is a whole number of ounces of magnitude at
    most [V]. *)
Definition whole_within (V : Z) (d : db) : Prop :=
  forall l f, exists n, (on_hand d l f == inject_Z n)%Q /\ Z.abs n <= V.

(** A stock of [2^46] containers of flavor 1 at location 1, in binary64. *)
Definition heavy_db : db :=
  B64.exec_all [AddLocation "Main"; RecordPurchase "2024-05-01" 1 1 (2 ^ 46) None]
               fresh_db.

(** The stocked location with one sale on 15 December 9999. *)
Definition december_db : db :=
  exec (RecordSale "9999-12-15" 1 1 "Medium" 1 5 None) stocked_db.

(** ** The figures of a statement, as the code adds them up *)

(** [acc = 0.0] then [for x in rows: acc += term(x)]. *)
Definition accumulate {A : Type} (term : A -> Q) (rows : list A) : Q :=
  fold_left (fun acc x => (acc + term x)%Q) rows 0%Q.

(** The flavors of some sale rows, each once, in the order of their first
    row: the keys of [oz_sold_by_flavor]. *)
Definition flavors_sold (rows : list sale_row) : list Z :=
  fold_left
    (fun ks s =>
       if existsb (Z.eqb (s_flavor_id s)) ks then ks
       else (ks ++ [s_flavor_id s])%list)
    rows [].

(** The ounces of one flavor over some sale rows, added up in row order:
    the value of [oz_sold_by_flavor] at the flavor. *)
Definition flavor_oz (rows : list sale_row) (f : Z) : Q :=
  accumulate (fun s => inject_Z (sale_oz s))
             (List.filter (fun s => (s_flavor_id s =? f)%Z) rows).

(** What the loop over the sale rows holds after the rows [pre]. *)
Definition acc_after (conts : list (Z * (string * Q * Z))) (pre : list sale_row)
    (acc : sales_acc) : Prop :=
  acc_revenue acc
  = accumulate (fun s => sale_price s * inject_Z (s_quantity s))%Q pre
  /\ acc_container_cost acc
     = accumulate (fun s => unit_cost conts s * inject_Z (s_quantity s))%Q pre
  /\ acc_oz_sold_by_flavor acc
     = map (fun f => (f, flavor_oz pre f)) (flavors_sold pre).

(** The identities that tie the figures of one location's statement, as the
    code computes them: [cogs_total] is added up from the left. *)
Definition statement_balanced (st : statement) : Prop :=
  gross_profit st
  = (revenue st - (cogs_icecream st + cogs_containers st + cogs_napkins st))%Q
  /\ operating_expenses st = (18250 # 1)%Q
  /\ operating_income st = (gross_profit st - operating_expenses st)%Q
  /\ net_income st = operating_income st.

(** * Verification *)

(** ** Comparisons on rationals *)

Lemma Qlt_bool_iff (x y : Q) : Qlt_bool x y = true <-> (x < y)%Q.
Proof.
  unfold Qlt_bool. rewrite negb_true_iff. split.
  - intros H. apply Qnot_le_lt. intros Hle.
    apply Qle_bool_iff in Hle. congruence.
  - intros H. destruct (Qle_bool y x) eqn:E; [|reflexivity].
    apply Qle_bool_iff in E. exfalso. exact (Qlt_not_le _ _ H E).
Qed.

Lemma Qlt_bool_false (x y : Q) : Qlt_bool x y = false <-> (y <= x)%Q.
Proof.
  unfold Qlt_bool. rewrite negb_false_iff. apply Qle_bool_iff.
Qed.

(** ** What each recorder call does, case by case *)

Lemma record_sale_cases now l f size ct q date d :
  record_sale now l f size ct q date d =
  match dict_get SCOOPS_OZ size with
  | None => (inl invalid_size, d)
  | Some oz =>
      if Qlt_bool (on_hand d l f) (inject_Z (oz * q)) then (inl insufficient, d)
      else (inr tt,
            after_sale d
              (mk_sale l f (match date with None => now | Some s => s end)
                       size ct q)
              (oz * q))
  end.
Proof.
  unfold record_sale, on_hand.
  destruct (dict_get SCOOPS_OZ size) as [oz|]; [|reflexivity].
  unfold bind, select_inventory, gets. cbn beta iota.
  destruct (Qlt_bool _ _); reflexivity.
Qed.

Lemma record_purchase_cases now l f c date d :
  record_purchase now l f c date d =
  match flavor_cost d f with
  | None => (inl TypeError, d)
  | Some p =>
      (inr tt,
       after_purchase d
         (mk_purchase l f (match date with None => now | Some s => s end) c p))
  end.
Proof.
  unfold record_purchase, flavor_cost, bind at 1, select_flavor_cost.
  destruct (find _ (flavors d)) as [r|]; [|reflexivity].
  cbn [fmap option_fmap option_map].
  unfold bind, insert_purchase, modify, select_inventory, gets, insert_inventory,
    update_inventory, ret, after_purchase, on_hand, avg_cost, purchased.
  db_simpl.
  destruct (inventory_state d !! (l, f)) as [[oz avg]|] eqn:E;
    db_simpl; rewrite ?E; unfold modify, set_inventory_state, set_purchases;
    db_simpl; f_equal; f_equal; apply map_eq; intros k;
    rewrite lookup_alter, !lookup_insert; repeat case_decide; subst;
    try congruence; rewrite ?E; reflexivity.
Qed.

Lemma set_inventory_state_same d : set_inventory_state (inventory_state d) d = d.
Proof. destruct d; reflexivity. Qed.

Lemma for_each_insert_or_ignore loc_id fids d :
  for_each fids (fun fid => insert_or_ignore_inventory loc_id fid) d =
  (inr tt, set_inventory_state (zero_entries loc_id fids (inventory_state d)) d).
Proof.
  revert d. induction fids as [|fid fids IH]; intros d.
  - cbn. unfold ret. now rewrite set_inventory_state_same.
  - cbn [for_each]. unfold bind, insert_or_ignore_inventory at 1, modify.
    rewrite IH. unfold zero_entries. cbn [fold_left].
    destruct (inventory_state d !! (loc_id, fid)); reflexivity.
Qed.

Lemma find_new_row name id rows :
  name_taken name rows = false ->
  find (fun r : Z * string => String.eqb (snd r) name) (rows ++ [(id, name)])
  = Some (id, name).
Proof.
  unfold name_taken. induction rows as [|r rows IH]; cbn; intros H.
  - now rewrite String.eqb_refl.
  - apply orb_false_iff in H as [H1 H2]. rewrite H1. auto.
Qed.

Lemma add_location_cases name d :
  add_location name d =
  if name_taken (strip name) (locations d) then (inr false, d)
  else (inr true, after_add_location d (strip name)).
Proof.
  unfold add_location, except_IntegrityError, bind at 1, insert_location.
  destruct (name_taken (strip name) (locations d)) eqn:E; [reflexivity|].
  unfold bind at 1, select_location_id. db_simpl.
  rewrite find_new_row by exact E. db_simpl.
  unfold bind at 1, select_flavor_ids, gets. db_simpl.
  unfold bind. rewrite for_each_insert_or_ignore. reflexivity.
Qed.

Lemma lookup_zero_entries (id : Z) (fids : list Z) (m : gmap (Z * Z) (Q * Q))
    (l f : Z) :
  zero_entries id fids m !! (l, f) =
  match m !! (l, f) with
  | Some r => Some r
  | None => if (l =? id)%Z && existsb (Z.eqb f) fids then Some (0%Q, 0%Q) else None
  end.
Proof.
  unfold zero_entries. revert m.
  induction fids as [|x fids IH]; intros m; cbn [fold_left existsb].
  - rewrite andb_false_r. now destruct (m !! (l, f)).
  - rewrite IH. destruct (m !! (id, x)) as [r0|] eqn:E.
    + destruct (m !! (l, f)) as [r|] eqn:E'; [reflexivity|].
      destruct (Z.eqb_spec l id) as [->|]; [|reflexivity].
      destruct (Z.eqb_spec f x) as [->|]; [congruence|reflexivity].
    + rewrite lookup_insert. case_decide as Hk.
      * injection Hk as <- <-. rewrite E, Z.eqb_refl. cbn.
        now rewrite Z.eqb_refl.
      * destruct (m !! (l, f)) as [r|]; [reflexivity|].
        destruct (Z.eqb_spec l id) as [->|]; [|reflexivity].
        destruct (Z.eqb_spec f x) as [->|]; [congruence|reflexivity].
Qed.

(** ** Binary64 rounding *)

Lemma round64_comp (x y : Q) : (x == y)%Q -> round64 x = round64 y.
Proof. intros H. unfold round64. now rewrite (Qred_complete _ _ H). Qed.

Lemma Qred_inject_Z (n : Z) : Qred (inject_Z n) = inject_Z n.
Proof.
  apply Qcanon.Qred_identity. cbn. apply Z.gcd_1_r.
Qed.

Lemma round_half_even_inject_Z (q : Q) (n : Z) :
  (q == inject_Z n)%Q -> round_half_even q = n.
Proof.
  intros H. unfold round_half_even.
  assert (Hf : Qfloor q = n) by (rewrite (Qfloor_comp _ _ H); apply Qfloor_Z).
  rewrite Hf.
  assert (Hr : Qlt_bool (q - inject_Z n) (1 # 2) = true).
  { apply Qlt_bool_iff. rewrite H. unfold Qminus. rewrite Qplus_opp_r. reflexivity. }
  now rewrite Hr.
Qed.

Lemma ilog2_inject_Z (n : Z) : 0 < n -> ilog2 (inject_Z n) = Z.log2 n.
Proof.
  intros Hn. unfold ilog2. cbn [Qnum Qden inject_Z].
  change (Z.log2 1) with 0. rewrite Z.sub_0_r.
  unfold pow2. pose proof (Z.log2_nonneg n) as H0.
  rewrite (proj2 (Z.leb_le _ _) H0).
  assert (H : Qle_bool (inject_Z (2 ^ Z.log2 n)) (inject_Z n) = true).
  { apply Qle_bool_iff. rewrite <- Zle_Qle. apply Z.log2_spec. exact Hn. }
  now rewrite H.
Qed.

(** An integer of magnitude at most [2^53] is a binary64 value. *)
Lemma round64_inject_Z (n : Z) :
  Z.abs n <= 2 ^ 53 -> round64 (inject_Z n) = inject_Z n.
Proof.
  intros Hn. unfold round64. rewrite Qred_inject_Z.
  destruct (Z.eq_dec n 0) as [->|Hnz]; [reflexivity|].
  assert (Hne : Qeq_bool (inject_Z n) 0 = false).
  { destruct (Qeq_bool (inject_Z n) 0) eqn:E; [|reflexivity].
    apply Qeq_bool_iff in E. exfalso. apply Hnz.
    apply (inject_Z_injective n 0). exact E. }
  rewrite Hne.
  change (Qabs (inject_Z n)) with (inject_Z (Z.abs n)).
  rewrite ilog2_inject_Z by lia.
  set (k := Z.log2 (Z.abs n)).
  assert (Hk0 : 0 <= k) by apply Z.log2_nonneg.
  assert (Hspec : 2 ^ k <= Z.abs n < 2 ^ (k + 1)).
  { unfold k. replace (k + 1) with (Z.succ (Z.log2 (Z.abs n))) by (unfold k; lia).
    apply Z.log2_spec. lia. }
  assert (Hk : k <= 53).
  { destruct (Z_le_gt_dec k 53) as [H|H]; [exact H|]. exfalso.
    assert (2 ^ 54 <= 2 ^ k) by (apply Z.pow_le_mono_r; lia). lia. }
  rewrite Z.max_l by lia.
  rewrite <- (Qred_inject_Z n) at 2. apply Qred_complete.
  destruct (Z.eq_dec k 53) as [Hk53|Hk53].
  - (* |n| = 2^53, the last place is 2 *)
    assert (Habs : Z.abs n = 2 ^ 53) by (rewrite Hk53 in Hspec; lia).
    rewrite Hk53. change (53 - 52) with 1. change (pow2 1) with (inject_Z 2).
    assert (Hn2 : n = 2 * (n / 2)).
    { apply Z.div_exact; [lia|].
      destruct (Z.abs_eq_or_opp n) as [E|E]; rewrite E in Habs.
      - rewrite Habs. reflexivity.
      - assert (n = - 2 ^ 53) by lia. subst n. reflexivity. }
    rewrite (round_half_even_inject_Z _ (n / 2)).
    + rewrite <- inject_Z_mult. rewrite Z.mul_comm, <- Hn2. reflexivity.
    + rewrite Hn2 at 1. rewrite inject_Z_mult. field.
  - assert (He : k - 52 <= 0) by lia.
    assert (Hp : (pow2 (k - 52) * inject_Z (2 ^ (52 - k)) == 1)%Q).
    { unfold pow2. destruct (Z.leb_spec 0 (k - 52)) as [H|H].
      - replace (k - 52) with 0 by lia. replace (52 - k) with 0 by lia. reflexivity.
      - replace (- (k - 52)) with (52 - k) by lia.
        assert (0 < 2 ^ (52 - k)) by (apply Z.pow_pos_nonneg; lia).
        unfold Qeq, Qmult, inject_Z. cbn [Qnum Qden].
        rewrite Pos.mul_1_r, Z2Pos.id by lia. lia. }
    assert (Hpnz : ~ (pow2 (k - 52) == 0)%Q).
    { intros H0. rewrite H0 in Hp. revert Hp. rewrite Qmult_0_l. discriminate. }
    assert (Hinv : (/ pow2 (k - 52) == inject_Z (2 ^ (52 - k)))%Q).
    { rewrite <- (Qmult_1_r (/ pow2 (k - 52))), <- Hp, Qmult_assoc,
        (Qmult_comm (/ pow2 (k - 52))), Qmult_inv_r, Qmult_1_l;
        [reflexivity|exact Hpnz]. }
    rewrite (round_half_even_inject_Z _ (n * 2 ^ (52 - k))).
    + rewrite inject_Z_mult, <- Qmult_assoc, (Qmult_comm (inject_Z (2 ^ _))), Hp.
      apply Qmult_1_r.
    + unfold Qdiv. rewrite Hinv, inject_Z_mult. reflexivity.
Qed.

Lemma of_int_exact (n : Z) : Z.abs n <= 2 ^ 53 -> of_int n = inject_Z n.
Proof. apply round64_inject_Z. Qed.

Lemma fadd_exact (x y : Q) (a b : Z) :
  (x == inject_Z a)%Q -> (y == inject_Z b)%Q -> Z.abs (a + b) <= 2 ^ 53 ->
  fadd x y = inject_Z (a + b).
Proof.
  intros Hx Hy H. unfold fadd.
  rewrite (round64_comp _ (inject_Z (a + b))); [now apply round64_inject_Z|].
  rewrite Hx, Hy, inject_Z_plus. reflexivity.
Qed.

Lemma fsub_exact (x y : Q) (a b : Z) :
  (x == inject_Z a)%Q -> (y == inject_Z b)%Q -> Z.abs (a - b) <= 2 ^ 53 ->
  fsub x y = inject_Z (a - b).
Proof.
  intros Hx Hy H. unfold fsub.
  rewrite (round64_comp _ (inject_Z (a - b))); [now apply round64_inject_Z|].
  rewrite Hx, Hy. unfold Z.sub, Qminus. rewrite inject_Z_plus, inject_Z_opp.
  reflexivity.
Qed.

(** ** Powers of two *)

Lemma pow2_Qpower (e : Z) : (pow2 e == (2 # 1) ^ e)%Q.
Proof.
  unfold pow2. destruct (Z.leb_spec 0 e) as [H|H].
  - exact (Zpower_Qpower 2 e H).
  - assert (Hp : 0 < 2 ^ (- e)) by (apply Z.pow_pos_nonneg; lia).
    replace e with (- (- e)) at 2 by lia.
    rewrite Qpower_opp.
    transitivity (/ inject_Z (2 ^ (- e)))%Q.
    + unfold Qeq, Qinv, inject_Z. cbn [Qnum Qden].
      destruct (2 ^ (- e)) as [|q|q] eqn:E; try lia.
      cbn. reflexivity.
    + apply Qinv_comp. apply (Zpower_Qpower 2 (- e)). lia.
Qed.

Lemma pow2_pos (e : Z) : (0 < pow2 e)%Q.
Proof. rewrite pow2_Qpower. apply Qpower_0_lt. reflexivity. Qed.

Lemma pow2_add (a b : Z) : (pow2 (a + b) == pow2 a * pow2 b)%Q.
Proof. rewrite !pow2_Qpower. apply Qpower_plus. discriminate. Qed.

Lemma pow2_succ (a : Z) : (pow2 (a + 1) == (2 # 1) * pow2 a)%Q.
Proof. rewrite pow2_add, Qmult_comm. reflexivity. Qed.

Lemma pow2_le (a b : Z) : a <= b -> (pow2 a <= pow2 b)%Q.
Proof.
  intros H. replace b with (a + (b - a)) by lia. rewrite pow2_add.
  rewrite <- (Qmult_1_r (pow2 a)) at 1.
  apply Qmult_le_l; [apply pow2_pos|].
  unfold pow2. rewrite (proj2 (Z.leb_le 0 (b - a))) by lia.
  change 1%Q with (inject_Z 1). rewrite <- Zle_Qle.
  assert (0 < 2 ^ (b - a)) by (apply Z.pow_pos_nonneg; lia). lia.
Qed.

Lemma pow2_lt_inv (a b : Z) : (pow2 a < pow2 b)%Q -> a < b.
Proof.
  intros H. destruct (Z_lt_le_dec a b) as [Hab|Hab]; [exact Hab|].
  exfalso. apply (Qlt_not_le _ _ H). now apply pow2_le.
Qed.

Lemma pow2_inject_Z (n : Z) : 0 <= n -> pow2 n = inject_Z (2 ^ n).
Proof. intros H. unfold pow2. now rewrite (proj2 (Z.leb_le 0 n) H). Qed.

(** ** The binary exponent of a rational *)

Lemma ilog2_spec (q : Q) :
  (0 < q)%Q -> (pow2 (ilog2 q) <= q)%Q /\ (q < pow2 (ilog2 q + 1))%Q.
Proof.
  intros Hq. destruct q as [n d]. assert (Hn : 0 < n).
  { unfold Qlt in Hq. cbn in Hq. lia. }
  unfold ilog2. cbn [Qnum Qden].
  set (ln := Z.log2 n). set (ld := Z.log2 (Z.pos d)).
  assert (Hln0 : 0 <= ln) by apply Z.log2_nonneg.
  assert (Hld0 : 0 <= ld) by apply Z.log2_nonneg.
  assert (Hnspec : 2 ^ ln <= n < 2 ^ (ln + 1)).
  { replace (ln + 1) with (Z.succ ln) by lia. apply Z.log2_spec. exact Hn. }
  assert (Hdspec : 2 ^ ld <= Z.pos d < 2 ^ (ld + 1)).
  { replace (ld + 1) with (Z.succ ld) by lia. apply Z.log2_spec. lia. }
  assert (Hqd : ((n # d) * inject_Z (Z.pos d) == inject_Z n)%Q).
  { unfold Qeq, Qmult, inject_Z. cbn [Qnum Qden]. rewrite Pos.mul_1_r. lia. }
  (* q * 2^ld <= n < 2^(ln+1) and 2^ln <= n < q * 2^(ld+1) *)
  assert (Hup : ((n # d) * pow2 ld < pow2 (ln + 1))%Q).
  { rewrite (pow2_inject_Z ld Hld0), (pow2_inject_Z (ln + 1)) by lia.
    apply Qle_lt_trans with (inject_Z n).
    - rewrite <- Hqd. apply Qmult_le_l; [exact Hq|].
      rewrite <- Zle_Qle. lia.
    - rewrite <- Zlt_Qlt. lia. }
  assert (Hlo : (pow2 ln < (n # d) * pow2 (ld + 1))%Q).
  { rewrite (pow2_inject_Z ln Hln0), (pow2_inject_Z (ld + 1)) by lia.
    apply Qle_lt_trans with (inject_Z n).
    - rewrite <- Zle_Qle. lia.
    - rewrite <- Hqd. apply Qmult_lt_l; [exact Hq|].
      rewrite <- Zlt_Qlt. lia. }
  assert (Hup' : ((n # d) < pow2 (ln - ld + 1))%Q).
  { apply (Qmult_lt_r _ _ (pow2 ld)); [apply pow2_pos|].
    rewrite <- pow2_add. replace (ln - ld + 1 + ld) with (ln + 1) by lia.
    exact Hup. }
  assert (Hlo' : (pow2 (ln - ld - 1) < (n # d))%Q).
  { apply (Qmult_lt_r _ _ (pow2 (ld + 1))); [apply pow2_pos|].
    rewrite <- pow2_add. replace (ln - ld - 1 + (ld + 1)) with ln by lia.
    exact Hlo. }
  destruct (Qle_bool (pow2 (ln - ld)) (n # d)) eqn:E.
  - apply Qle_bool_iff in E. split; [exact E|exact Hup'].
  - split; [apply Qlt_le_weak; exact Hlo'|].
    replace (ln - ld - 1 + 1) with (ln - ld) by lia.
    apply Qnot_le_lt. intros H. apply Qle_bool_iff in H. congruence.
Qed.

(** ** The error of one rounding *)

Lemma round_half_even_error (q : Q) :
  (inject_Z (round_half_even q) - (1 # 2) <= q)%Q
  /\ (q <= inject_Z (round_half_even q) + (1 # 2))%Q.
Proof.
  unfold round_half_even.
  pose proof (Qfloor_le q) as Hlo. pose proof (Qlt_floor q) as Hhi.
  rewrite inject_Z_plus in Hhi. change (inject_Z 1) with 1%Q in Hhi.
  set (f := Qfloor q) in *.
  destruct (Qlt_bool (q - inject_Z f) (1 # 2)) eqn:E1.
  - apply Qlt_bool_iff in E1. split; lra.
  - apply Qlt_bool_false in E1.
    destruct (Qlt_bool (1 # 2) (q - inject_Z f)) eqn:E2.
    + rewrite inject_Z_plus. change (inject_Z 1) with 1%Q. split; lra.
    + apply Qlt_bool_false in E2.
      destruct (Z.even f); [split; lra|].
      rewrite inject_Z_plus. change (inject_Z 1) with 1%Q. split; lra.
Qed.

(** In the normal range one rounding moves a value by at most one part in
    [2^53]. *)
Lemma round64_error (x : Q) :
  (pow2 (-1022) <= x)%Q ->
  ((1 - u64) * x <= round64 x)%Q /\ (round64 x <= (1 + u64) * x)%Q.
Proof.
  intros Hx. assert (Hpos : (0 < x)%Q).
  { apply Qlt_le_trans with (pow2 (-1022)); [apply pow2_pos|exact Hx]. }
  unfold round64.
  pose proof (Qred_correct x) as Hred.
  set (y := Qred x) in *.
  assert (Hy : (0 < y)%Q) by (rewrite Hred; exact Hpos).
  assert (Hne : Qeq_bool y 0 = false).
  { destruct (Qeq_bool y 0) eqn:E; [|reflexivity].
    apply Qeq_bool_iff in E. rewrite E in Hy. discriminate. }
  rewrite Hne, Qred_correct.
  assert (Habs : Qabs y = y).
  { destruct y as [n d]. unfold Qabs. rewrite Z.abs_eq; [reflexivity|].
    unfold Qlt in Hy. cbn in Hy. lia. }
  rewrite Habs.
  destruct (ilog2_spec y Hy) as [Hk1 Hk2]. set (k := ilog2 y) in *.
  assert (Hk : -1022 <= k).
  { assert (-1022 < k + 1); [|lia]. apply pow2_lt_inv.
    apply Qle_lt_trans with y; [rewrite Hred; exact Hx|exact Hk2]. }
  rewrite Z.max_l by lia.
  pose proof (pow2_pos (k - 52)) as He.
  pose proof (round_half_even_error (y / pow2 (k - 52))) as [Hm1 Hm2].
  set (m := inject_Z (round_half_even (y / pow2 (k - 52)))) in *.
  assert (Hy' : (y == y / pow2 (k - 52) * pow2 (k - 52))%Q).
  { field. intros H0. rewrite H0 in He. discriminate. }
  assert (Hu : (u64 * pow2 k == (1 # 2) * pow2 (k - 52))%Q).
  { unfold u64. rewrite <- pow2_add.
    replace (-53 + k) with (-1 + (k - 52)) by lia. rewrite pow2_add.
    reflexivity. }
  rewrite <- Hred.
  assert (Hux : (u64 * pow2 k <= u64 * y)%Q).
  { apply Qmult_le_l; [apply pow2_pos|exact Hk1]. }
  set (z := (y / pow2 (k - 52))%Q) in *. set (p := pow2 (k - 52)) in *.
  assert (H1 : ((m - (1 # 2)) * p <= z * p)%Q) by (apply Qmult_le_r; assumption).
  assert (H2 : (z * p <= (m + (1 # 2)) * p)%Q) by (apply Qmult_le_r; assumption).
  rewrite <- Hy' in H1, H2. split; lra.
Qed.

(** ** Powers of the rounding factors *)

Lemma u64_bounds : (0 < u64)%Q /\ (u64 <= 1 # 2)%Q.
Proof.
  split; [apply pow2_pos|]. unfold u64.
  change (1 # 2)%Q with (pow2 (-1)). apply pow2_le. lia.
Qed.

Lemma qpow_ge_1 (b : Q) (n : nat) : (1 <= b)%Q -> (1 <= qpow b n)%Q.
Proof.
  intros Hb. induction n as [|n IH]; cbn [qpow]; [apply Qle_refl|].
  assert (H : (1 * 1 <= b * qpow b n)%Q).
  { apply Qmult_le_compat_nonneg; split; try assumption; discriminate. }
  exact H.
Qed.

Lemma qpow_le_1 (b : Q) (n : nat) :
  (0 <= b)%Q -> (b <= 1)%Q -> (0 <= qpow b n)%Q /\ (qpow b n <= 1)%Q.
Proof.
  intros H0 H1. induction n as [|n [IH0 IH1]]; cbn [qpow].
  - split; [discriminate|apply Qle_refl].
  - split; [apply Qmult_le_0_compat; assumption|].
    assert (H : (b * qpow b n <= 1 * 1)%Q).
    { apply Qmult_le_compat_nonneg; split; assumption. }
    exact H.
Qed.

(** Bernoulli's inequality. *)
Lemma qpow_bernoulli (t : Q) (n : nat) :
  (0 <= t)%Q -> (t <= 1)%Q ->
  (1 - inject_Z (Z.of_nat n) * t <= qpow (1 - t) n)%Q.
Proof.
  intros H0 H1. induction n as [|n IH].
  - change (1 - 0 * t <= 1)%Q. rewrite Qmult_0_l. discriminate.
  - cbn [qpow]. rewrite Nat2Z.inj_succ. unfold Z.succ.
    rewrite inject_Z_plus. change (inject_Z 1) with 1%Q.
    set (k := inject_Z (Z.of_nat n)) in *.
    assert (Hk : (0 <= k)%Q).
    { unfold k. change 0%Q with (inject_Z 0). rewrite <- Zle_Qle. lia. }
    destruct (qpow_le_1 (1 - t) n) as [Hq0 Hq1]; [lra|lra|].
    set (q := qpow (1 - t) n) in *.
    assert (Hkt : (0 <= k * t * t)%Q).
    { apply Qmult_le_0_compat; [apply Qmult_le_0_compat|]; assumption. }
    assert (H : ((1 - k * t) * (1 - t) <= q * (1 - t))%Q).
    { apply Qmult_le_compat_r; [exact IH|lra]. }
    lra.
Qed.

Lemma Qmul_le_l (k x y : Q) : (0 <= k)%Q -> (x <= y)%Q -> (k * x <= k * y)%Q.
Proof.
  intros Hk H. rewrite !(Qmult_comm k). now apply Qmult_le_compat_r.
Qed.

Lemma least_cost_pos : (0 < least_cost)%Q.
Proof. apply pow2_pos. Qed.

Lemma half_least_cost : (pow2 (-1022) <= (1 # 2) * least_cost)%Q.
Proof.
  unfold least_cost. change (1 # 2)%Q with (pow2 (-1)). rewrite <- pow2_add.
  apply pow2_le. lia.
Qed.

Lemma quarter_least_cost :
  (pow2 (-1022) * inject_Z (2 ^ 53) <= (1 # 2) * ((1 # 2) * least_cost))%Q.
Proof.
  unfold least_cost. change (1 # 2)%Q with (pow2 (-1)).
  rewrite <- (pow2_inject_Z 53) by lia. rewrite <- !pow2_add.
  apply pow2_le. lia.
Qed.

Lemma qpow_lo_half (n : nat) :
  Z.of_nat n <= 2 ^ 50 -> (1 # 2 <= qpow (1 - u64) n)%Q.
Proof.
  intros Hn. destruct u64_bounds as [Hu0 Hu1].
  apply Qle_trans with (1 - inject_Z (Z.of_nat n) * u64)%Q;
    [|apply qpow_bernoulli; lra].
  assert (H : (inject_Z (Z.of_nat n) * u64 <= inject_Z (2 ^ 50) * u64)%Q).
  { apply Qmult_le_compat_r; [|lra]. rewrite <- Zle_Qle. exact Hn. }
  assert (H8 : (inject_Z (2 ^ 50) * u64 == 1 # 8)%Q).
  { unfold u64. rewrite <- (pow2_inject_Z 50) by lia. rewrite <- pow2_add.
    reflexivity. }
  lra.
Qed.

(** ** What each recorder call does in binary64 *)

Lemma B64_record_sale_cases now l f size ct q date d :
  B64.record_sale now l f size ct q date d =
  match dict_get SCOOPS_OZ size with
  | None => (inl invalid_size, d)
  | Some oz =>
      if Qlt_bool (on_hand d l f) (inject_Z (oz * q)) then (inl insufficient, d)
      else (inr tt,
            after_sale64 d
              (mk_sale l f (match date with None => now | Some s => s end)
                       size ct q)
              (oz * q))
  end.
Proof.
  unfold B64.record_sale, on_hand.
  destruct (dict_get SCOOPS_OZ size) as [oz|]; [|reflexivity].
  unfold bind, select_inventory, gets. cbn beta iota.
  destruct (Qlt_bool _ _); reflexivity.
Qed.

Lemma B64_record_purchase_cases now l f c date d :
  B64.record_purchase now l f c date d =
  match flavor_cost d f with
  | None => (inl TypeError, d)
  | Some p =>
      (inr tt,
       after_purchase64 d
         (mk_purchase l f (match date with None => now | Some s => s end) c p))
  end.
Proof.
  unfold B64.record_purchase, flavor_cost, bind at 1, select_flavor_cost.
  destruct (find _ (flavors d)) as [r|]; [|reflexivity].
  cbn [fmap option_fmap option_map].
  unfold bind, insert_purchase, modify, select_inventory, gets, insert_inventory,
    update_inventory, ret, after_purchase64, on_hand, avg_cost, purchased64.
  db_simpl.
  destruct (inventory_state d !! (l, f)) as [[oz avg]|] eqn:E;
    db_simpl; rewrite ?E; unfold modify, set_inventory_state, set_purchases;
    db_simpl; f_equal; f_equal; apply map_eq; intros k;
    rewrite lookup_alter, !lookup_insert; repeat case_decide; subst;
    try congruence; rewrite ?E; reflexivity.
Qed.

Lemma Qlt_bool_comp (x x' y : Q) :
  (x == x')%Q -> Qlt_bool x y = Qlt_bool x' y.
Proof.
  intros H. destruct (Qlt_bool x' y) eqn:E.
  - apply Qlt_bool_iff. apply Qlt_bool_iff in E. now rewrite H.
  - apply Qlt_bool_false. apply Qlt_bool_false in E. now rewrite H.
Qed.

Lemma B64_purchase_entry now l f c date d p :
  flavor_cost d f = Some p ->
  B64.record_purchase now l f c date d
  = (inr tt,
     after_purchase64 d
       (mk_purchase l f (match date with None => now | Some s => s end) c p)).
Proof. intros H. now rewrite B64_record_purchase_cases, H. Qed.

Lemma after_purchase64_entry d row :
  inventory_state (after_purchase64 d row) !! (p_location_id row, p_flavor_id row)
  = Some (purchased64 (on_hand d (p_location_id row) (p_flavor_id row),
                       avg_cost d (p_location_id row) (p_flavor_id row))
                      (p_containers row) (p_cost_per_container row)).
Proof. unfold after_purchase64. cbn [inventory_state]. apply lookup_insert_eq. Qed.

(** ** C1: insufficient sales are rejected; the ledger stays non-negative *)

Lemma on_hand_nonneg d l f : ledger_nonneg d -> (0 <= on_hand d l f)%Q.
Proof.
  intros H. unfold on_hand.
  destruct (inventory_state d !! (l, f)) as [r|] eqn:E.
  - exact (H _ _ E).
  - apply Qle_refl.
Qed.

Lemma Qplus_containers_nonneg (a : Q) (c : Z) :
  (0 <= a)%Q -> 0 <= c -> (0 <= a + inject_Z (c * OZ_PER_CONTAINER))%Q.
Proof.
  intros Ha Hc. rewrite <- (Qplus_0_l 0). apply Qplus_le_compat; [exact Ha|].
  unfold Qle, OZ_PER_CONTAINER. cbn. lia.
Qed.

Lemma Qminus_nonneg (a b : Q) : (b <= a)%Q -> (0 <= a - b)%Q.
Proof. intros H. unfold Qminus. now apply (proj1 (Qle_minus_iff b a)). Qed.

Lemma add_location_nonneg name d :
  ledger_nonneg d -> ledger_nonneg (snd (add_location name d)).
Proof.
  intros H. rewrite add_location_cases.
  destruct (name_taken _ _); [exact H|].
  intros [l f] r. cbn. rewrite lookup_zero_entries.
  destruct (inventory_state d !! (l, f)) as [r0|] eqn:E.
  - intros [= <-]. exact (H _ _ E).
  - destruct (_ && _); [|discriminate]. intros [= <-]. apply Qle_refl.
Qed.

Lemma record_purchase_nonneg now l f c date d :
  0 <= c -> ledger_nonneg d ->
  ledger_nonneg (snd (record_purchase now l f c date d)).
Proof.
  intros Hc H. rewrite record_purchase_cases.
  destruct (flavor_cost d f) as [p|]; [|exact H].
  intros k r. cbn. rewrite lookup_insert. case_decide.
  - intros [= <-]. cbn. apply Qplus_containers_nonneg; [|exact Hc].
    now apply on_hand_nonneg.
  - apply H.
Qed.

Lemma record_sale_nonneg now l f size ct q date d :
  ledger_nonneg d -> ledger_nonneg (snd (record_sale now l f size ct q date d)).
Proof.
  intros H. rewrite record_sale_cases.
  destruct (dict_get SCOOPS_OZ size) as [oz|]; [|exact H].
  destruct (Qlt_bool _ _) eqn:E; [exact H|].
  apply Qlt_bool_false in E.
  intros k r. cbn. rewrite lookup_alter. case_decide.
  - destruct (inventory_state d !! (l, f)); cbn; [|discriminate].
    intros [= <-]. cbn. now apply Qminus_nonneg.
  - apply H.
Qed.

Lemma exec_nonneg o d :
  positive_counts o -> ledger_nonneg d -> ledger_nonneg (exec o d).
Proof.
  destruct o; cbn [positive_counts exec]; intros Hp H.
  - now apply add_location_nonneg.
  - apply record_purchase_nonneg; [lia|exact H].
  - now apply record_sale_nonneg.
Qed.

Lemma exec_all_nonneg ops d :
  Forall positive_counts ops -> ledger_nonneg d -> ledger_nonneg (exec_all ops d).
Proof.
  unfold exec_all. intros Hops. revert d.
  induction Hops as [|o ops Ho _ IH]; intros d H; cbn [fold_left].
  - exact H.
  - apply IH. now apply exec_nonneg.
Qed.

(** C1. A sale of a recognised size whose required volume exceeds the
    quantity on hand (a missing entry read as 0) raises the
    insufficient-inventory error and returns the database untouched: no
    sale row, no ledger change.  Hence along every sequence of calls whose
    purchases have a positive container count and whose sales have a
    positive quantity, started on a non-negative ledger, every ledger
    quantity is non-negative after every prefix. *)
Theorem C1_insufficient_sale_rejected :
  (forall now d l f size ct q date oz,
      dict_get SCOOPS_OZ size = Some oz ->
      (on_hand d l f < inject_Z (oz * q))%Q ->
      record_sale now l f size ct q date d = (inl insufficient, d))
  /\
  (forall ops d n,
      ledger_nonneg d ->
      Forall positive_counts ops ->
      ledger_nonneg (exec_all (firstn n ops) d)).
Proof.
  split.
  - intros now d l f size ct q date oz Hsize Hlt.
    rewrite record_sale_cases, Hsize.
    apply Qlt_bool_iff in Hlt. now rewrite Hlt.
  - intros ops d n Hd Hops. apply exec_all_nonneg; [|exact Hd].
    now apply Forall_take.
Qed.

Lemma fresh_db_nonneg : ledger_nonneg fresh_db.
Proof. intros k r H. cbn in H. rewrite lookup_empty in H. discriminate. Qed.

Lemma C1_insufficient_sale_rejected_witness :
  (dict_get SCOOPS_OZ "Large" = Some 16
   /\ (on_hand stocked_db 1 1 < inject_Z (16 * 41))%Q
   /\ record_sale "2024-05-02" 1 1 "Large" 1 41 None stocked_db
      = (inl insufficient, stocked_db))
  /\
  (ledger_nonneg fresh_db
   /\ Forall positive_counts stocked_ops
   /\ ledger_nonneg (exec_all (firstn 2 stocked_ops) fresh_db)).
Proof.
  assert (H1 : dict_get SCOOPS_OZ "Large" = Some 16) by reflexivity.
  assert (H2 : (on_hand stocked_db 1 1 < inject_Z (16 * 41))%Q)
    by (vm_compute; reflexivity).
  assert (H3 : Forall positive_counts stocked_ops)
    by (repeat constructor).
  split.
  - split; [exact H1|]. split; [exact H2|].
    exact (proj1 C1_insufficient_sale_rejected
             "2024-05-02" stocked_db 1 1 "Large" 1 41 None 16 H1 H2).
  - split; [exact fresh_db_nonneg|]. split; [exact H3|].
    exact (proj2 C1_insufficient_sale_rejected
             stocked_ops fresh_db 2%nat fresh_db_nonneg H3).
Defined.

(** ** C2: weighted-average cost *)

Lemma purchase_entry now l f c date d p :
  flavor_cost d f = Some p ->
  record_purchase now l f c date d
  = (inr tt,
     after_purchase d
       (mk_purchase l f (match date with None => now | Some s => s end) c p)).
Proof. intros H. now rewrite record_purchase_cases, H. Qed.

Lemma purchase_on_hand now l f c date d p :
  flavor_cost d f = Some p ->
  on_hand (snd (record_purchase now l f c date d)) l f
  = (on_hand d l f + inject_Z (c * OZ_PER_CONTAINER))%Q.
Proof.
  intros H. rewrite (purchase_entry _ _ _ _ _ _ _ H).
  unfold on_hand at 1. cbn. now rewrite lookup_insert_eq.
Qed.

Lemma purchase_avg_cost now l f c date d p :
  flavor_cost d f = Some p ->
  avg_cost (snd (record_purchase now l f c date d)) l f
  = if Qlt_bool 0 (on_hand d l f + inject_Z (c * OZ_PER_CONTAINER))
    then ((on_hand d l f * avg_cost d l f + inject_Z c * p)
          / (on_hand d l f + inject_Z (c * OZ_PER_CONTAINER)))%Q
    else 0%Q.
Proof.
  intros H. rewrite (purchase_entry _ _ _ _ _ _ _ H).
  unfold avg_cost at 1. cbn. now rewrite lookup_insert_eq.
Qed.

Lemma run_totals l f d ps d' :
  purchase_run l f d ps d' ->
  (0 <= on_hand d l f)%Q ->
  Forall (fun cp => 0 < fst cp) ps ->
  (on_hand d' l f == on_hand d l f + inject_Z (total_oz ps))%Q
  /\ (on_hand d' l f * avg_cost d' l f
      == on_hand d l f * avg_cost d l f + total_cost ps)%Q.
Proof.
  induction 1 as [d|d now c date p d1 d2 ps d3 Hp Hrec Hsame Hrun IH];
    intros Hd Hps.
  - cbn. split; ring.
  - inversion Hps as [|cp ps' Hc Hps']; subst. cbn [fst] in Hc.
    assert (Hoh : on_hand d2 l f
                  = (on_hand d l f + inject_Z (c * OZ_PER_CONTAINER))%Q).
    { unfold on_hand at 1. rewrite Hsame.
      rewrite <- (purchase_on_hand now l f c date d p Hp), Hrec. reflexivity. }
    assert (Hav : avg_cost d2 l f
                  = avg_cost (snd (record_purchase now l f c date d)) l f).
    { unfold avg_cost at 1 2. rewrite Hsame, Hrec. reflexivity. }
    rewrite (purchase_avg_cost _ _ _ _ _ _ _ Hp) in Hav.
    assert (Hpos : (0 < on_hand d l f + inject_Z (c * OZ_PER_CONTAINER))%Q).
    { rewrite <- (Qplus_0_r 0), (Qplus_comm (on_hand d l f)).
      apply Qplus_lt_le_compat; [|exact Hd].
      unfold Qlt, OZ_PER_CONTAINER. cbn. lia. }
    rewrite (proj2 (Qlt_bool_iff _ _) Hpos) in Hav.
    destruct IH as [IH1 IH2]; [rewrite Hoh; now apply Qlt_le_weak|exact Hps'|].
    split.
    + rewrite IH1, Hoh.
      change (total_oz ((c, p) :: ps)) with (c * OZ_PER_CONTAINER + total_oz ps).
      rewrite inject_Z_plus. ring.
    + rewrite IH2, Hoh, Hav.
      change (total_cost ((c, p) :: ps))
        with (inject_Z c * p + total_cost ps)%Q.
      field. intros Hz. rewrite Hz in Hpos. exact (Qlt_irrefl _ Hpos).
Qed.

Lemma total_oz_nonneg ps :
  Forall (fun cp : Z * Q => 0 < fst cp) ps -> 0 <= total_oz ps.
Proof.
  induction 1 as [|x xs Hx _ IH]; [cbn; lia|].
  change (total_oz (x :: xs)) with (fst x * OZ_PER_CONTAINER + total_oz xs).
  unfold OZ_PER_CONTAINER. lia.
Qed.

Lemma total_oz_pos ps :
  ps <> [] -> Forall (fun cp : Z * Q => 0 < fst cp) ps -> 0 < total_oz ps.
Proof.
  intros Hne Hps. destruct Hps as [|cp ps Hc Hps]; [congruence|].
  change (total_oz (cp :: ps)) with (fst cp * OZ_PER_CONTAINER + total_oz ps).
  pose proof (total_oz_nonneg ps Hps). unfold OZ_PER_CONTAINER. lia.
Qed.

Lemma sum_qc_lots ps : (sum_qc (lots ps) == total_cost ps)%Q.
Proof.
  induction ps as [|[c p] ps IH]; [reflexivity|].
  change (sum_qc (lots ((c, p) :: ps)))
    with (inject_Z (c * OZ_PER_CONTAINER) * (p / inject_Z OZ_PER_CONTAINER)
          + sum_qc (lots ps))%Q.
  change (total_cost ((c, p) :: ps)) with (inject_Z c * p + total_cost ps)%Q.
  rewrite IH, inject_Z_mult. field. discriminate.
Qed.

Lemma sum_q_lots ps : (sum_q (lots ps) == inject_Z (total_oz ps))%Q.
Proof.
  induction ps as [|[c p] ps IH]; [reflexivity|].
  change (sum_q (lots ((c, p) :: ps)))
    with (inject_Z (c * OZ_PER_CONTAINER) + sum_q (lots ps))%Q.
  change (total_oz ((c, p) :: ps)) with (c * OZ_PER_CONTAINER + total_oz ps).
  rewrite IH, inject_Z_plus. reflexivity.
Qed.

(** In exact arithmetic the identity of the specification holds: after a
    non-empty run of purchases with positive container counts on an entry
    that started with no stock, the average cost is the total cost paid
    divided by the total quantity bought, which is sum (q_i * c_i) / sum q_i
    over the lots (q_i ounces at c_i per ounce).  This is a fact about
    rationals; the binary64 ledger satisfies it up to rounding only. *)
Lemma exact_weighted_average l f d ps d' :
  purchase_run l f d ps d' ->
  (on_hand d l f == 0)%Q ->
  ps <> [] ->
  Forall (fun cp => 0 < fst cp) ps ->
  (on_hand d' l f == inject_Z (total_oz ps))%Q
  /\ (avg_cost d' l f == total_cost ps / inject_Z (total_oz ps))%Q
  /\ (avg_cost d' l f == sum_qc (lots ps) / sum_q (lots ps))%Q.
Proof.
  intros Hrun H0 Hne Hps.
  destruct (run_totals _ _ _ _ _ Hrun) as [H1 H2];
    [rewrite H0; apply Qle_refl|exact Hps|].
  rewrite H0 in H1, H2. rewrite Qplus_0_l in H1.
  rewrite Qmult_0_l, Qplus_0_l in H2.
  pose proof (total_oz_pos ps Hne Hps) as Hpos.
  assert (Hnz : ~ (inject_Z (total_oz ps) == 0)%Q).
  { unfold Qeq. cbn. lia. }
  assert (Havg : (avg_cost d' l f == total_cost ps / inject_Z (total_oz ps))%Q).
  { rewrite <- H2, H1. field. exact Hnz. }
  split; [exact H1|]. split; [exact Havg|].
  now rewrite sum_qc_lots, sum_q_lots.
Qed.

(** Over a binary64 run the quantity stays exact: it is a whole number of
    ounces, and additions of whole numbers up to [2^53] do not round. *)
Lemma run64_total l f d ps d' :
  purchase_run64 l f d ps d' ->
  forall n,
    (on_hand d l f == inject_Z n)%Q -> 0 <= n ->
    Forall (fun cp : Z * Q => 0 < fst cp) ps ->
    n + total_oz ps <= 2 ^ 53 ->
    (on_hand d' l f == inject_Z (n + total_oz ps))%Q.
Proof.
  induction 1 as [d|d now c date p d1 d2 ps d3 Hp Hrec Hsame Hrun IH];
    intros n Hn Hn0 Hps Hb.
  - cbn. now rewrite Z.add_0_r.
  - inversion Hps as [|cp ps' Hc Hps']; subst. cbn [fst] in Hc.
    change (total_oz ((c, p) :: ps)) with (c * OZ_PER_CONTAINER + total_oz ps)
      in *.
    pose proof (total_oz_nonneg ps Hps') as Hps0.
    assert (Hc0 : 0 < c * OZ_PER_CONTAINER) by (unfold OZ_PER_CONTAINER; lia).
    rewrite (B64_purchase_entry _ _ _ _ _ _ _ Hp) in Hrec.
    injection Hrec as <-.
    assert (Hoh : on_hand d2 l f = inject_Z (n + c * OZ_PER_CONTAINER)).
    { unfold on_hand at 1. rewrite Hsame.
      rewrite (after_purchase64_entry d (mk_purchase l f _ c p)).
      cbn [purchased64 fst p_location_id p_flavor_id p_containers].
      apply fadd_exact; [exact Hn| |lia].
      rewrite of_int_exact by lia. reflexivity. }
    rewrite (IH (n + c * OZ_PER_CONTAINER)); try lia.
    + now rewrite Z.add_assoc.
    + now rewrite Hoh.
    + exact Hps'.
Qed.

(** One purchase: the quantity stays exact and the value of the entry
    follows the cost paid within three roundings. *)
Lemma purchased64_average (oz avg : Q) (O c : Z) (p T : Q) (i : nat) :
  (oz == inject_Z O)%Q -> 0 <= O -> 0 < c ->
  O + c * OZ_PER_CONTAINER <= 2 ^ 53 ->
  Z.of_nat (3 * i) <= 2 ^ 50 ->
  (least_cost <= p)%Q ->
  (T == 0)%Q \/ (least_cost <= T)%Q ->
  (qpow (1 - u64) (3 * i) * T <= inject_Z O * avg)%Q ->
  (inject_Z O * avg <= qpow (1 + u64) (3 * i) * T)%Q ->
  let r := purchased64 (oz, avg) c p in
  let O' := O + c * OZ_PER_CONTAINER in
  let T' := (T + inject_Z c * p)%Q in
  fst r = inject_Z O'
  /\ (least_cost <= T')%Q
  /\ (qpow (1 - u64) (3 * S i) * T' <= inject_Z O' * snd r)%Q
  /\ (inject_Z O' * snd r <= qpow (1 + u64) (3 * S i) * T')%Q.
Proof.
  intros Hoz HO Hc Hb Hi Hp HT Hlo Hhi r O' T'. subst r O' T'.
  destruct u64_bounds as [Hu0 Hu1].
  pose proof least_cost_pos as HP.
  pose proof (qpow_lo_half (3 * i) Hi) as Hq.
  destruct (qpow_le_1 (1 - u64) (3 * i)) as [Hq0 Hq1]; [lra|lra|].
  pose proof (qpow_ge_1 (1 + u64) (3 * i)) as Hqh.
  replace (3 * S i)%nat with (S (S (S (3 * i)))) by lia. cbn [qpow].
  set (lo := (1 - u64)%Q) in *. set (hi := (1 + u64)%Q) in *.
  set (ql := qpow lo (3 * i)) in *. set (qh := qpow hi (3 * i)) in *.
  assert (Hlo0 : (1 # 2 <= lo)%Q) by (unfold lo; lra).
  assert (Hlo1 : (lo <= 1)%Q) by (unfold lo; lra).
  assert (Hhi1 : (1 <= hi)%Q) by (unfold hi; lra).
  specialize (Hqh Hhi1).
  set (W := (inject_Z O * avg)%Q) in *.
  assert (HOZ : 0 < c * OZ_PER_CONTAINER) by (unfold OZ_PER_CONTAINER; lia).
  (* the quantity *)
  unfold purchased64. cbn [fst snd].
  assert (Hnew : fadd oz (of_int (c * OZ_PER_CONTAINER))
                 = inject_Z (O + c * OZ_PER_CONTAINER)).
  { apply fadd_exact; [exact Hoz| |lia].
    rewrite of_int_exact by lia. reflexivity. }
  rewrite Hnew.
  set (O' := O + c * OZ_PER_CONTAINER) in *.
  assert (HO' : (0 < inject_Z O')%Q).
  { change 0%Q with (inject_Z 0). rewrite <- Zlt_Qlt. lia. }
  rewrite (proj2 (Qlt_bool_iff _ _) HO').
  split; [reflexivity|].
  (* the cost of the lot *)
  set (cp := (inject_Z c * p)%Q).
  assert (Hcp : (least_cost <= cp)%Q).
  { apply Qle_trans with (1 * p)%Q; [lra|]. unfold cp.
    apply Qmult_le_compat_r; [|lra].
    change 1%Q with (inject_Z 1). rewrite <- Zle_Qle. lia. }
  assert (HT0 : (0 <= T)%Q) by (destruct HT as [HT|HT]; [rewrite HT|]; lra).
  split; [lra|].
  pose proof half_least_cost as Hhalf.
  assert (Ha : (lo * cp <= fmul (of_int c) p)%Q /\ (fmul (of_int c) p <= hi * cp)%Q).
  { unfold fmul. rewrite of_int_exact by (unfold OZ_PER_CONTAINER in *; lia).
    apply round64_error. fold cp. lra. }
  set (a := fmul (of_int c) p) in *. destruct Ha as [Ha1 Ha2].
  (* the cost carried over *)
  assert (Hm : (lo * W <= fmul oz avg)%Q /\ (fmul oz avg <= hi * W)%Q
               /\ (0 <= W)%Q).
  { unfold fmul.
    rewrite (round64_comp (oz * avg) W) by (unfold W; rewrite Hoz; reflexivity).
    destruct HT as [HTz|HTp].
    - assert (HW : (W == 0)%Q).
      { rewrite HTz, Qmult_0_r in Hlo, Hhi. apply Qle_antisym; assumption. }
      rewrite (round64_comp W 0 HW). change (round64 0) with 0%Q.
      rewrite HW. rewrite !Qmult_0_r. repeat split; apply Qle_refl.
    - assert (Hqt : ((1 # 2) * least_cost <= ql * T)%Q).
      { apply Qmult_le_compat_nonneg; split; try assumption; try discriminate; lra. }
      assert (HWn : (pow2 (-1022) <= W)%Q) by lra.
      destruct (round64_error W HWn) as [H1 H2]. fold lo in H1. fold hi in H2.
      repeat split; try assumption. lra. }
  set (m := fmul oz avg) in *. destruct Hm as (Hm1 & Hm2 & HW0).
  (* their sum *)
  assert (Hlocp : ((1 # 2) * least_cost <= lo * cp)%Q).
  { apply Qmult_le_compat_nonneg; split; try assumption; try discriminate; lra. }
  assert (HloW : (0 <= lo * W)%Q) by (apply Qmult_le_0_compat; lra).
  assert (Hs : (lo * (m + a) <= fadd m a)%Q /\ (fadd m a <= hi * (m + a))%Q).
  { unfold fadd. apply round64_error. lra. }
  set (s := fadd m a) in *. destruct Hs as [Hs1 Hs2].
  assert (Hma : ((1 # 2) * least_cost <= m + a)%Q) by lra.
  assert (Hsl : ((1 # 2) * ((1 # 2) * least_cost) <= s)%Q).
  { apply Qle_trans with (lo * (m + a))%Q; [|exact Hs1].
    apply Qmult_le_compat_nonneg; split; try assumption; try discriminate; lra. }
  (* the quotient *)
  assert (Hquot : (pow2 (-1022) <= s / inject_Z O')%Q).
  { apply Qle_shift_div_l; [exact HO'|].
    apply Qle_trans with (pow2 (-1022) * inject_Z (2 ^ 53))%Q.
    - apply Qmul_le_l; [apply Qlt_le_weak, pow2_pos|].
      rewrite <- Zle_Qle. exact Hb.
    - pose proof quarter_least_cost. lra. }
  destruct (round64_error _ Hquot) as [Hv1 Hv2]. fold lo in Hv1. fold hi in Hv2.
  unfold fdiv. set (v := round64 (s / inject_Z O')) in *.
  assert (Hback : (inject_Z O' * (s / inject_Z O') == s)%Q).
  { field. intros H0. rewrite H0 in HO'. discriminate. }
  assert (Hw1 : (lo * s <= inject_Z O' * v)%Q).
  { apply Qle_trans with (inject_Z O' * (lo * (s / inject_Z O')))%Q.
    - rewrite <- Hback at 1. apply Qle_lteq. right. ring.
    - apply Qmul_le_l; [lra|exact Hv1]. }
  assert (Hw2 : (inject_Z O' * v <= hi * s)%Q).
  { apply Qle_trans with (inject_Z O' * (hi * (s / inject_Z O')))%Q.
    - apply Qmul_le_l; [lra|exact Hv2].
    - rewrite <- Hback at 2. apply Qle_lteq. right. ring. }
  (* the chain of three roundings over the running bound *)
  assert (Hcp0 : (0 <= cp)%Q) by lra.
  assert (Hqcp1 : (ql * cp <= cp)%Q).
  { rewrite <- (Qmult_1_l cp) at 2. apply Qmult_le_compat_r; assumption. }
  assert (Hqcp2 : (cp <= qh * cp)%Q).
  { rewrite <- (Qmult_1_l cp) at 1. apply Qmult_le_compat_r; assumption. }
  split.
  - apply Qle_trans with (lo * s)%Q; [|exact Hw1].
    apply Qle_trans with (lo * (lo * (m + a)))%Q;
      [|apply Qmul_le_l; [lra|exact Hs1]].
    apply Qle_trans with (lo * (lo * (lo * (W + cp))))%Q;
      [|apply Qmul_le_l; [lra|]; apply Qmul_le_l; [lra|]; lra].
    apply Qle_trans with (lo * (lo * (lo * (ql * (T + cp)))))%Q;
      [apply Qle_lteq; right; ring|].
    apply Qmul_le_l; [lra|]. apply Qmul_le_l; [lra|]. apply Qmul_le_l; [lra|].
    lra.
  - apply Qle_trans with (hi * s)%Q; [exact Hw2|].
    apply Qle_trans with (hi * (hi * (m + a)))%Q;
      [apply Qmul_le_l; [lra|exact Hs2]|].
    apply Qle_trans with (hi * (hi * (hi * (W + cp))))%Q;
      [apply Qmul_le_l; [lra|]; apply Qmul_le_l; [lra|]; lra|].
    apply Qle_trans with (hi * (hi * (hi * (qh * (T + cp)))))%Q;
      [|apply Qle_lteq; right; ring].
    apply Qmul_le_l; [lra|]. apply Qmul_le_l; [lra|]. apply Qmul_le_l; [lra|].
    lra.
Qed.

Lemma run64_average l f d ps d' :
  purchase_run64 l f d ps d' ->
  forall (O : Z) (T : Q) (i : nat),
    (on_hand d l f == inject_Z O)%Q -> 0 <= O ->
    OZ_PER_CONTAINER * Z.of_nat i <= O ->
    (T == 0)%Q \/ (least_cost <= T)%Q ->
    (qpow (1 - u64) (3 * i) * T <= inject_Z O * avg_cost d l f)%Q ->
    (inject_Z O * avg_cost d l f <= qpow (1 + u64) (3 * i) * T)%Q ->
    Forall lot_in_range ps ->
    O + total_oz ps <= 2 ^ 53 ->
    (qpow (1 - u64) (3 * (i + length ps)) * (T + total_cost ps)
     <= inject_Z (O + total_oz ps) * avg_cost d' l f)%Q
    /\ (inject_Z (O + total_oz ps) * avg_cost d' l f
        <= qpow (1 + u64) (3 * (i + length ps)) * (T + total_cost ps))%Q.
Proof.
  induction 1 as [d|d now c date p d1 d2 ps d3 Hp Hrec Hsame Hrun IH];
    intros O T i Hoz HO Hi HT Hlo Hhi Hps Hb.
  - cbn [total_oz total_cost fold_right length].
    rewrite Z.add_0_r, Nat.add_0_r, Qplus_0_r. split; assumption.
  - inversion Hps as [|cp ps' (Hc & Hpl & _) Hps']; subst. cbn [fst snd] in Hc, Hpl.
    change (total_oz ((c, p) :: ps)) with (c * OZ_PER_CONTAINER + total_oz ps)
      in *.
    change (total_cost ((c, p) :: ps))
      with (inject_Z c * p + total_cost ps)%Q.
    assert (Hps0 : 0 <= total_oz ps).
    { apply total_oz_nonneg. eapply List.Forall_impl; [|exact Hps'].
      intros a Ha. apply Ha. }
    assert (Hi50 : Z.of_nat (3 * i) <= 2 ^ 50).
    { unfold OZ_PER_CONTAINER in *. lia. }
    rewrite (B64_purchase_entry _ _ _ _ _ _ _ Hp) in Hrec. injection Hrec as <-.
    pose proof (after_purchase64_entry d
                  (mk_purchase l f (match date with None => now | Some s => s end)
                               c p)) as Hentry.
    cbn [p_location_id p_flavor_id p_containers p_cost_per_container] in Hentry.
    rewrite <- Hsame in Hentry.
    destruct (purchased64_average (on_hand d l f) (avg_cost d l f) O c p T i
                Hoz HO Hc ltac:(lia) Hi50 Hpl HT Hlo Hhi)
      as (Hq & HT' & Hlo' & Hhi').
    assert (Hoh2 : on_hand d2 l f
                   = fst (purchased64 (on_hand d l f, avg_cost d l f) c p)).
    { unfold on_hand at 1. now rewrite Hentry. }
    assert (Hav2 : avg_cost d2 l f
                   = snd (purchased64 (on_hand d l f, avg_cost d l f) c p)).
    { unfold avg_cost at 1. now rewrite Hentry. }
    rewrite <- Hav2 in Hlo', Hhi'.
    destruct (IH (O + c * OZ_PER_CONTAINER) (T + inject_Z c * p)%Q (S i))
      as [R1 R2].
    + rewrite Hoh2, Hq. reflexivity.
    + unfold OZ_PER_CONTAINER. lia.
    + unfold OZ_PER_CONTAINER in *. lia.
    + right. exact HT'.
    + exact Hlo'.
    + exact Hhi'.
    + exact Hps'.
    + lia.
    + replace (i + length ((c, p) :: ps))%nat with (S i + length ps)%nat
        by (cbn [length]; lia).
      rewrite Z.add_assoc.
      split.
      * rewrite Qplus_assoc. exact R1.
      * rewrite Qplus_assoc. exact R2.
Qed.

(** Over a binary64 run the average cost follows total cost over total
    quantity within three roundings per purchase. *)
Lemma run64_average_bound l f d ps d' :
  purchase_run64 l f d ps d' ->
  (on_hand d l f == 0)%Q ->
  ps <> [] ->
  Forall lot_in_range ps ->
  total_oz ps <= 2 ^ 53 ->
  (qpow (1 - u64) (3 * length ps) * (total_cost ps / inject_Z (total_oz ps))
   <= avg_cost d' l f)%Q
  /\ (avg_cost d' l f
      <= qpow (1 + u64) (3 * length ps)
         * (total_cost ps / inject_Z (total_oz ps)))%Q.
Proof.
  intros Hrun H0 Hne Hps Hb.
  assert (Hpos : 0 < total_oz ps).
  { apply total_oz_pos; [exact Hne|]. eapply List.Forall_impl; [|exact Hps].
    intros a Ha. apply Ha. }
  assert (HO : (0 < inject_Z (total_oz ps))%Q).
  { change 0%Q with (inject_Z 0). rewrite <- Zlt_Qlt. exact Hpos. }
  destruct (run64_average l f d ps d' Hrun 0 0%Q 0%nat) as [R1 R2];
    try assumption; try lia.
  - left. reflexivity.
  - cbn [Nat.mul qpow inject_Z]. rewrite Qmult_0_r.
    change (0 # 1) with 0%Q. rewrite Qmult_0_l. apply Qle_refl.
  - cbn [Nat.mul qpow inject_Z]. rewrite Qmult_0_r.
    change (0 # 1) with 0%Q. rewrite Qmult_0_l. apply Qle_refl.
  - rewrite Z.add_0_l in R1, R2. cbn [Nat.add] in R1, R2.
    rewrite Qplus_0_l in R1, R2.
    set (lo := qpow (1 - u64) (3 * length ps)) in *.
    set (hi := qpow (1 + u64) (3 * length ps)) in *.
    set (T := total_cost ps) in *. set (D := inject_Z (total_oz ps)) in *.
    set (v := avg_cost d' l f) in *.
    assert (Hnz : ~ (D == 0)%Q) by (intros E; rewrite E in HO; discriminate).
    split.
    + apply Qle_trans with ((lo * T) / D)%Q;
        [apply Qle_lteq; right; field; exact Hnz|].
      apply Qle_shift_div_r; [exact HO|]. rewrite (Qmult_comm v D). exact R1.
    + apply Qle_trans with ((hi * T) / D)%Q;
        [|apply Qle_lteq; right; field; exact Hnz].
      apply Qle_shift_div_l; [exact HO|]. rewrite (Qmult_comm v D). exact R2.
Qed.

Lemma lot_in_range_check (cp : Z * Q) :
  0 < fst cp -> (pow2 (-1) <= snd cp)%Q -> (snd cp <= pow2 4)%Q ->
  lot_in_range cp.
Proof.
  intros H1 H2 H3. split; [exact H1|]. split.
  - apply Qle_trans with (pow2 (-1)); [|exact H2]. apply pow2_le. lia.
  - apply Qle_trans with (pow2 4); [exact H3|]. apply pow2_le. lia.
Qed.

Lemma purchase_run64_example :
  purchase_run64 1 1 located_db three_purchases lot_db3.
Proof.
  apply (run64_step 1 1 located_db "2024-05-01" 1 None (2 # 1)%Q lot_db1
                    (repriced (3 # 1) lot_db1));
    [reflexivity|reflexivity|reflexivity|].
  apply (run64_step 1 1 (repriced (3 # 1) lot_db1) "2024-05-02" 8 None (3 # 1)%Q
                    lot_db2 (repriced (2 # 1) lot_db2));
    [reflexivity|reflexivity|reflexivity|].
  apply (run64_step 1 1 (repriced (2 # 1) lot_db2) "2024-05-03" 1 None (2 # 1)%Q
                    lot_db3 lot_db3);
    [reflexivity|reflexivity|reflexivity|].
  apply run64_done.
Defined.

(** The claim read to the letter fails on the run of one container at 2.0,
    eight at 3.0 and one at 2.0 on an entry with no stock: the total cost
    over the total quantity, which is also sum (q_i * c_i) / sum q_i over
    the lots, is 28/6400 = 0.004375; the ledger holds
    5044031582654955 / 2^60 = 0.0043749999999999995, which differs from it
    and from the binary64 value nearest to it. *)
Lemma C2_average_is_rounded :
  purchase_run64 1 1 located_db three_purchases lot_db3
  /\ (on_hand located_db 1 1 == 0)%Q
  /\ Forall (fun cp : Z * Q => 0 < fst cp) three_purchases
  /\ (total_cost three_purchases / inject_Z (total_oz three_purchases)
      == 28 # 6400)%Q
  /\ (sum_qc (lots three_purchases) / sum_q (lots three_purchases)
      == 28 # 6400)%Q
  /\ avg_cost lot_db3 1 1 = (5044031582654955 # 1152921504606846976)%Q
  /\ ~ (avg_cost lot_db3 1 1 == 28 # 6400)%Q
  /\ round64 (28 # 6400) <> avg_cost lot_db3 1 1.
Proof.
  split; [exact purchase_run64_example|].
  split; [reflexivity|]. split; [repeat constructor|].
  split; [reflexivity|]. split; [reflexivity|].
  split; [vm_compute; reflexivity|].
  split; [intros H; vm_compute in H; discriminate|].
  intros H; vm_compute in H; discriminate.
Qed.

(** C2, amended. A purchase of [c] containers at per-container cost [p],
    none of whose operations overflows, goes through and rewrites the
    ledger entry from (old_qty, old_avg), a missing entry read as (0, 0), to
    new_qty = old_qty + c * OZ_PER_CONTAINER and
    new_avg = (old_qty * old_avg + c * p) / new_qty when new_qty > 0, else
    0, where the two products, the two sums and the quotient are binary64
    operations, each rounded to the nearest value.  Hence after a run of n
    purchases with positive container counts on an entry that started with
    no stock, of at most 2^53 ounces in all and at costs between 2^-900 and
    2^900: the quantity is the total quantity bought, exactly; and the
    average cost is the total cost divided by the total quantity, which is
    sum (q_i * c_i) / sum q_i over the lots, up to three roundings per
    purchase: it lies between (1 - 2^-53)^(3n) and (1 + 2^-53)^(3n) times
    that quotient. *)
Theorem C2_weighted_average :
  (forall now d l f c date p,
      flavor_cost d f = Some p ->
      int64 l -> int64 f -> int64 c ->
      purchase_fits64 (on_hand d l f, avg_cost d l f) c p ->
      let r := B64.record_purchase now l f c date d in
      let new_qty := on_hand (snd r) l f in
      fst r = inr tt
      /\ new_qty = fadd (on_hand d l f) (of_int (c * OZ_PER_CONTAINER))
      /\ avg_cost (snd r) l f
         = if Qlt_bool 0 new_qty
           then fdiv (fadd (fmul (on_hand d l f) (avg_cost d l f))
                           (fmul (of_int c) p))
                     new_qty
           else 0%Q)
  /\
  (forall l f d ps d',
      purchase_run64 l f d ps d' ->
      int64 l -> int64 f ->
      (on_hand d l f == 0)%Q ->
      ps <> [] ->
      Forall lot_in_range ps ->
      total_oz ps <= 2 ^ 53 ->
      let exact := (total_cost ps / inject_Z (total_oz ps))%Q in
      (on_hand d' l f == inject_Z (total_oz ps))%Q
      /\ (exact == sum_qc (lots ps) / sum_q (lots ps))%Q
      /\ (qpow (1 - u64) (3 * length ps) * exact <= avg_cost d' l f)%Q
      /\ (avg_cost d' l f <= qpow (1 + u64) (3 * length ps) * exact)%Q).
Proof.
  split.
  - intros now d l f c date p Hp _ _ _ _ r new_qty. subst r new_qty.
    rewrite (B64_purchase_entry _ _ _ _ _ _ _ Hp). cbn [fst snd].
    assert (Hoh : on_hand (after_purchase64 d
                             (mk_purchase l f
                                (match date with None => now | Some s => s end)
                                c p)) l f
                  = fadd (on_hand d l f) (of_int (c * OZ_PER_CONTAINER))).
    { unfold on_hand at 1.
      now rewrite (after_purchase64_entry d (mk_purchase l f _ c p)). }
    rewrite Hoh. unfold avg_cost at 1.
    rewrite (after_purchase64_entry d (mk_purchase l f _ c p)).
    cbn [purchased64 fst snd p_location_id p_flavor_id p_containers
                     p_cost_per_container].
    auto.
  - intros l f d ps d' Hrun _ _ H0 Hne Hps Hb exact. subst exact.
    split.
    + apply (run64_total l f d ps d' Hrun 0 H0 (Z.le_refl 0)); [|exact Hb].
      eapply List.Forall_impl; [|exact Hps]. intros a Ha. apply Ha.
    + split; [now rewrite sum_qc_lots, sum_q_lots|].
      exact (run64_average_bound l f d ps d' Hrun H0 Hne Hps Hb).
Qed.

Lemma C2_weighted_average_witness :
  (flavor_cost located_db 1 = Some (2 # 1)%Q
   /\ int64 1
   /\ purchase_fits64 (on_hand located_db 1 1, avg_cost located_db 1 1) 1 (2 # 1)
   /\ fst (B64.record_purchase "2024-05-01" 1 1 1 None located_db) = inr tt
   /\ on_hand lot_db1 1 1
      = fadd (on_hand located_db 1 1) (of_int (1 * OZ_PER_CONTAINER))
   /\ on_hand lot_db1 1 1 = (640 # 1)%Q
   /\ avg_cost lot_db1 1 1 = round64 (2 # 640))
  /\
  (purchase_run64 1 1 located_db three_purchases lot_db3
   /\ (on_hand located_db 1 1 == 0)%Q
   /\ three_purchases <> []
   /\ Forall lot_in_range three_purchases
   /\ total_oz three_purchases <= 2 ^ 53
   /\ (on_hand lot_db3 1 1 == 6400 # 1)%Q
   /\ (qpow (1 - u64) 9 * (28 # 6400) <= avg_cost lot_db3 1 1)%Q
   /\ (avg_cost lot_db3 1 1 <= qpow (1 + u64) 9 * (28 # 6400))%Q).
Proof.
  assert (Hp : flavor_cost located_db 1 = Some (2 # 1)%Q) by reflexivity.
  assert (H1 : int64 1) by (unfold int64; lia).
  assert (Hfit : purchase_fits64 (on_hand located_db 1 1, avg_cost located_db 1 1)
                                 1 (2 # 1)).
  { repeat split; try (intros _); vm_compute; reflexivity. }
  assert (H0 : (on_hand located_db 1 1 == 0)%Q) by reflexivity.
  assert (Hb : total_oz three_purchases <= 2 ^ 53) by (vm_compute; discriminate).
  assert (Hne : three_purchases <> []) by discriminate.
  assert (Hin : Forall lot_in_range three_purchases).
  { repeat constructor; apply lot_in_range_check; cbn [fst snd];
      try lia; vm_compute; discriminate. }
  split.
  - split; [exact Hp|]. split; [exact H1|]. split; [exact Hfit|].
    destruct (proj1 C2_weighted_average "2024-05-01" located_db 1 1 1 None _
                    Hp H1 H1 H1 Hfit) as (R1 & R2 & _).
    split; [exact R1|]. split; [exact R2|].
    split; vm_compute; reflexivity.
  - split; [exact purchase_run64_example|]. split; [exact H0|].
    split; [exact Hne|]. split; [exact Hin|]. split; [exact Hb|].
    destruct (proj2 C2_weighted_average 1 1 located_db _ lot_db3
                    purchase_run64_example H1 H1 H0 Hne Hin Hb)
      as (R1 & _ & R2 & R3).
    split; [exact R1|]. split; [exact R2|exact R3].
Defined.

(** ** C3: non-positive container counts and unknown keys in purchases *)

Lemma record_purchase_unchecked now l f c date d p :
  flavor_cost d f = Some p ->
  let r := record_purchase now l f c date d in
  fst r = inr tt
  /\ purchases (snd r)
     = (purchases d
        ++ [mk_purchase l f (match date with None => now | Some s => s end) c p])%list
  /\ on_hand (snd r) l f = (on_hand d l f + inject_Z (c * OZ_PER_CONTAINER))%Q.
Proof.
  intros Hp r. subst r. rewrite (purchase_on_hand _ _ _ _ _ _ _ Hp).
  rewrite (purchase_entry _ _ _ _ _ _ _ Hp). auto.
Qed.

Lemma record_purchase_unknown_flavor now l f c date d :
  flavor_cost d f = None ->
  record_purchase now l f c date d = (inl TypeError, d).
Proof. intros H. now rewrite record_purchase_cases, H. Qed.

(** C3. [record_purchase] has no check on the container count or on the
    location id.  On the database with the single location 1: a purchase of
    -1 containers goes through, is logged, and brings the entry to -640
    ounces; a purchase of 0 containers for the unknown location 99 goes
    through, is logged, and creates a ledger entry for location 99; a
    purchase for the unknown flavor 77 fails with a [TypeError] from the
    subscript of [None]. *)
Theorem C3_nonpositive_purchase_goes_through :
  (let r := record_purchase "2024-05-01" 1 1 (-1) None located_db in
   fst r = inr tt
   /\ purchases (snd r) = [mk_purchase 1 1 "2024-05-01" (-1) (2 # 1)%Q]
   /\ inventory_state (snd r) !! (1, 1) = Some ((-640 # 1)%Q, 0%Q))
  /\
  (let r := record_purchase "2024-05-01" 99 1 0 None located_db in
   ~ In 99 (map fst (locations located_db))
   /\ fst r = inr tt
   /\ purchases (snd r) = [mk_purchase 99 1 "2024-05-01" 0 (2 # 1)%Q]
   /\ inventory_state located_db !! (99, 1) = None
   /\ inventory_state (snd r) !! (99, 1) = Some (0%Q, 0%Q))
  /\
  record_purchase "2024-05-01" 1 77 1 None located_db = (inl TypeError, located_db).
Proof.
  split; [|split].
  - cbv zeta. split; [reflexivity|]. split; [reflexivity|].
    vm_compute. reflexivity.
  - cbv zeta. split.
    + cbn. intros [H|[]]. discriminate.
    + split; [reflexivity|]. split; [reflexivity|].
      split; vm_compute; reflexivity.
  - reflexivity.
Qed.

(** ** C6: what a sale leaves alone *)

(** C6. A sale that goes through appends its row to [sales] and rewrites
    only [ounces_on_hand] of the entry of its own [(location, flavor)]:
    that entry keeps its [avg_cost_per_oz], every other entry is the same,
    no entry appears or disappears, and no other table changes. *)
Theorem C6_sale_frame :
  forall now d l f size ct q date d',
    record_sale now l f size ct q date d = (inr tt, d') ->
    avg_cost d' l f = avg_cost d l f
    /\ snd <$> (inventory_state d' !! (l, f)) = snd <$> (inventory_state d !! (l, f))
    /\ (forall k, k <> (l, f) -> inventory_state d' !! k = inventory_state d !! k)
    /\ (forall oz, dict_get SCOOPS_OZ size = Some oz ->
          fst <$> (inventory_state d' !! (l, f))
          = (fun _ => (on_hand d l f - inject_Z (oz * q))%Q)
              <$> (inventory_state d !! (l, f)))
    /\ locations d' = locations d
    /\ flavors d' = flavors d
    /\ containers d' = containers d
    /\ purchases d' = purchases d.
Proof.
  intros now d l f size ct q date d' H.
  rewrite record_sale_cases in H.
  destruct (dict_get SCOOPS_OZ size) as [oz|]; [|discriminate].
  destruct (Qlt_bool _ _); [discriminate|].
  injection H as <-. unfold avg_cost, after_sale. db_simpl.
  assert (Hsnd : snd <$> alter
            (fun r : Q * Q => ((on_hand d l f - inject_Z (oz * q))%Q, snd r))
            (l, f) (inventory_state d) !! (l, f)
          = snd <$> inventory_state d !! (l, f)).
  { rewrite lookup_alter_eq. now destruct (inventory_state d !! (l, f)). }
  split.
  - rewrite lookup_alter_eq. now destruct (inventory_state d !! (l, f)).
  - split; [exact Hsnd|]. split.
    + intros k Hk. now rewrite lookup_alter_ne.
    + split; [|auto].
      intros oz' [= <-]. rewrite lookup_alter_eq.
      now destruct (inventory_state d !! (l, f)).
Qed.

Lemma C6_sale_frame_witness :
  record_sale "2024-05-02" 1 1 "Medium" 1 5 None stocked_db
  = (inr tt, snd (record_sale "2024-05-02" 1 1 "Medium" 1 5 None stocked_db))
  /\ avg_cost (snd (record_sale "2024-05-02" 1 1 "Medium" 1 5 None stocked_db)) 1 1
     = avg_cost stocked_db 1 1.
Proof.
  assert (H : record_sale "2024-05-02" 1 1 "Medium" 1 5 None stocked_db
              = (inr tt, snd (record_sale "2024-05-02" 1 1 "Medium" 1 5 None
                                          stocked_db)))
    by reflexivity.
  split; [exact H|].
  exact (proj1 (C6_sale_frame _ _ _ _ _ _ _ _ _ H)).
Defined.

(** ** C7: adding a location *)

Lemma name_taken_In name rows :
  name_taken name rows = true <-> In name (map snd rows).
Proof.
  unfold name_taken. rewrite existsb_exists. split.
  - intros [r [Hr He]]. apply String.eqb_eq in He. subst.
    now apply in_map.
  - intros H. apply in_map_iff in H as [r [He Hr]].
    exists r. split; [exact Hr|]. now apply String.eqb_eq.
Qed.

Lemma name_taken_not_In name rows :
  name_taken name rows = false <-> ~ In name (map snd rows).
Proof.
  rewrite <- name_taken_In. now destruct (name_taken name rows).
Qed.

(** The claim read to the letter fails: the name ["Main "] is not the name
    of any location, and yet it is refused, because names are compared
    after [strip]. *)
Lemma C7_fresh_name_refused :
  ~ In "Main " (location_names located_db)
  /\ add_location "Main " located_db = (inr false, located_db).
Proof.
  split.
  - cbn. intros [H|[]]. discriminate.
  - reflexivity.
Qed.

(** C7, amended. Names are compared after [strip].  When the stripped name
    is the name of a location, [add_location] returns [False] and the
    database is untouched.  Otherwise it returns [True]; the location is
    stored under the stripped name with a new id; for every flavor of the
    catalog the entry of (new id, flavor) is the zero entry, unless the
    ledger already held an entry under that key, which is kept; every
    other ledger entry, and the other tables, are as before. *)
Theorem C7_add_location :
  (forall name d,
      In (strip name) (location_names d) ->
      add_location name d = (inr false, d))
  /\
  (forall name d,
      ~ In (strip name) (location_names d) ->
      exists d',
        add_location name d = (inr true, d')
        /\ locations d' = (locations d ++ [(new_location_id d, strip name)])%list
        /\ ~ In (new_location_id d) (map fst (locations d))
        /\ (forall f, In f (flavor_ids d) ->
              inventory_state d' !! (new_location_id d, f)
              = match inventory_state d !! (new_location_id d, f) with
                | Some r => Some r
                | None => Some (0%Q, 0%Q)
                end)
        /\ (forall k r, inventory_state d !! k = Some r ->
              inventory_state d' !! k = Some r)
        /\ (forall l f, l <> new_location_id d \/ ~ In f (flavor_ids d) ->
              inventory_state d' !! (l, f) = inventory_state d !! (l, f))
        /\ flavors d' = flavors d
        /\ containers d' = containers d
        /\ purchases d' = purchases d
        /\ sales d' = sales d).
Proof.
  split.
  - intros name d H. apply name_taken_In in H.
    now rewrite add_location_cases, H.
  - intros name d H. apply name_taken_not_In in H.
    exists (after_add_location d (strip name)).
    rewrite add_location_cases, H. split; [reflexivity|].
    split; [reflexivity|]. split.
    { unfold new_location_id. intros Hin.
      assert (Hmax : forall rows i, In i (map fst rows) -> i <= max_rowid rows).
      { induction rows as [|r rows IH]; [cbn; tauto|].
        change (max_rowid (r :: rows)) with (Z.max (fst r) (max_rowid rows)).
        intros i [<-|Hi]; [lia|]. specialize (IH i Hi). lia. }
      specialize (Hmax _ _ Hin). lia. }
    cbn. split; [|split; [|split]]; [| | |auto].
    + intros f Hf. rewrite lookup_zero_entries.
      destruct (inventory_state d !! (new_location_id d, f)); [reflexivity|].
      rewrite Z.eqb_refl. cbn.
      assert (He : existsb (Z.eqb f) (flavor_ids d) = true).
      { apply existsb_exists. exists f. split; [exact Hf|apply Z.eqb_refl]. }
      now rewrite He.
    + intros [l f] r Hk. now rewrite lookup_zero_entries, Hk.
    + intros l f Hlf. rewrite lookup_zero_entries.
      destruct (inventory_state d !! (l, f)); [reflexivity|].
      destruct Hlf as [Hl|Hf].
      * apply Z.eqb_neq in Hl. now rewrite Hl.
      * destruct (existsb (Z.eqb f) (flavor_ids d)) eqn:He.
        -- apply existsb_exists in He as [x [Hx He]].
           apply Z.eqb_eq in He. subst. contradiction.
        -- now rewrite andb_false_r.
Qed.

Lemma C7_add_location_witness :
  (In (strip "Main ") (location_names located_db)
   /\ add_location "Main " located_db = (inr false, located_db))
  /\
  (~ In (strip " Annex") (location_names located_db)
   /\ exists d',
       add_location " Annex" located_db = (inr true, d')
       /\ locations d' = [(1, "Main"); (2, "Annex")]).
Proof.
  assert (H1 : In (strip "Main ") (location_names located_db))
    by (left; reflexivity).
  assert (H2 : ~ In (strip " Annex") (location_names located_db))
    by (cbn; intros [H|[]]; discriminate).
  split.
  - split; [exact H1|].
    exact (proj1 C7_add_location "Main " located_db H1).
  - split; [exact H2|].
    destruct (proj2 C7_add_location " Annex" located_db H2)
      as (d' & Hd' & Hloc & _).
    exists d'. split; [exact Hd'|exact Hloc].
Defined.

(** ** The reports only read *)

Lemma fold_M_readonly {A S : Type} (l : list A) (body : S -> A -> M S) :
  (forall s x d, snd (body s x d) = d) ->
  forall s d, snd (fold_M l body s d) = d.
Proof.
  intros Hbody. induction l as [|x l IH]; intros s d; [reflexivity|].
  cbn [fold_M]. unfold bind. specialize (Hbody s x d).
  destruct (body s x d) as [[e|s'] d1]; cbn in Hbody; subst; [reflexivity|].
  apply IH.
Qed.

Lemma sale_line_readonly conts acc row d : snd (sale_line conts acc row d) = d.
Proof.
  unfold sale_line.
  destruct (dict_get SCOOPS_OZ (s_size row)); [|reflexivity].
  destruct (zdict_get conts (s_container_type_id row)) as [[[n p] u]|];
    [|reflexivity].
  destruct (u =? 0)%Z; reflexivity.
Qed.

Lemma flavor_cogs_readonly loc_id c item d : snd (flavor_cogs loc_id c item d) = d.
Proof. reflexivity. Qed.

Lemma location_statement_readonly conts start end_ loc_id d :
  snd (location_statement conts start end_ loc_id d) = d.
Proof.
  unfold location_statement, bind at 1, select_sales_of_location, gets.
  unfold bind at 1.
  pose proof (fold_M_readonly
                (List.filter
                   (fun s => (s_location_id s =? loc_id)%Z
                             && in_range start end_ (s_sale_date s)) (sales d))
                (sale_line conts) (sale_line_readonly conts)
                (mk_acc 0 [] 0 0) d) as H1.
  destruct (fold_M _ (sale_line conts) _ d) as [[e|acc] d1]; cbn in H1; subst;
    [reflexivity|].
  unfold bind.
  pose proof (fold_M_readonly (acc_oz_sold_by_flavor acc) (flavor_cogs loc_id)
                (flavor_cogs_readonly loc_id) 0%Q d) as H2.
  destruct (fold_M _ (flavor_cogs loc_id) _ d) as [[e|c] d2]; cbn in H2; subst;
    reflexivity.
Qed.

(** The income-statement loop: the statements appended, one per location in
    order, and the company totals accumulated over them. *)
Lemma location_loop conts start end_ locs out d r d' :
  fold_M locs (location_step conts start end_) out d = (inr r, d') ->
  d' = d
  /\ exists sts,
      fst r = (fst out ++ sts)%list
      /\ snd r = fold_left company_add (map snd sts) (snd out)
      /\ Forall2
           (fun (loc : Z * string) (ns : string * statement) =>
              fst ns = snd loc
              /\ location_statement conts start end_ (fst loc) d = (inr (snd ns), d))
           locs sts.
Proof.
  revert out. induction locs as [|loc locs IH]; intros out H.
  - cbn in H. injection H as <- <-. split; [reflexivity|].
    exists []. cbn. rewrite app_nil_r. auto.
  - cbn [fold_M] in H. unfold bind at 1, location_step at 1, bind at 1 in H.
    pose proof (location_statement_readonly conts start end_ (fst loc) d) as Hro.
    destruct (location_statement conts start end_ (fst loc) d) as [[e|st] d1] eqn:E;
      cbn in Hro; subst d1; [discriminate|].
    unfold ret at 1 in H. apply IH in H as [-> (sts & H1 & H2 & H3)].
    split; [reflexivity|]. exists ((snd loc, st) :: sts). cbn in *.
    split; [now rewrite H1, <- app_assoc|]. split; [exact H2|].
    constructor; [auto|exact H3].
Qed.

Lemma generate_income_statement_loop year month d r d' :
  generate_income_statement year month d = (inr r, d') ->
  d' = d
  /\ exists conts,
      snd r = fold_left company_add (map snd (fst r)) company_zero
      /\ Forall2
           (fun (loc : Z * string) (ns : string * statement) =>
              fst ns = snd loc
              /\ location_statement conts (fst (_month_bounds year month))
                   (snd (_month_bounds year month)) (fst loc) d
                 = (inr (snd ns), d))
           (order_by (fun a b => String.leb (snd a) (snd b)) (locations d))
           (fst r).
Proof.
  unfold generate_income_statement, bind, list_containers, list_locations, gets.
  intros H. apply location_loop in H as [-> (sts & H1 & H2 & H3)].
  split; [reflexivity|]. eexists. cbn in H1, H2. subst sts.
  split; [exact H2|exact H3].
Qed.

(** ** C8: company totals *)

Section Fields.

Variable field : statement -> Q.

Hypothesis field_add :
  forall c s, field (company_add c s) = (field c + field s)%Q.

Lemma field_of_totals (sts : list (string * statement)) (c : statement) :
  field (fold_left company_add (map snd sts) c)
  = fold_left (fun acc ns => (acc + field (snd ns))%Q) sts (field c).
Proof.
  revert c. induction sts as [|ns sts IH]; intros c; [reflexivity|].
  cbn [map fold_left]. now rewrite IH, field_add.
Qed.

End Fields.

Lemma Forall2_names conts start end_ d locs (sts : list (string * statement)) :
  Forall2
    (fun (loc : Z * string) (ns : string * statement) =>
       fst ns = snd loc
       /\ location_statement conts start end_ (fst loc) d = (inr (snd ns), d))
    locs sts ->
  map fst sts = map snd locs.
Proof.
  induction 1 as [|loc ns locs sts [Hn _] _ IH]; [reflexivity|].
  cbn. now rewrite Hn, IH.
Qed.

(** C8. Whenever the income statement is produced, it holds one statement
    per location, and each field of the company-wide statement is the sum
    of that field over these per-location statements. *)
Theorem C8_company_totals :
  forall year month d sts company d',
    generate_income_statement year month d = (inr (sts, company), d') ->
    map fst sts
    = map snd (order_by (fun a b => String.leb (snd a) (snd b)) (locations d))
    /\ revenue company = sum_field revenue sts
    /\ cogs_icecream company = sum_field cogs_icecream sts
    /\ cogs_containers company = sum_field cogs_containers sts
    /\ cogs_napkins company = sum_field cogs_napkins sts
    /\ gross_profit company = sum_field gross_profit sts
    /\ operating_expenses company = sum_field operating_expenses sts
    /\ operating_income company = sum_field operating_income sts
    /\ net_income company = sum_field net_income sts.
Proof.
  intros year month d sts company d' H.
  apply generate_income_statement_loop in H as [_ (conts & H & Hall)].
  cbn [fst snd] in H, Hall. subst company. unfold sum_field.
  split; [exact (Forall2_names _ _ _ _ _ _ Hall)|].
  repeat split; apply field_of_totals; reflexivity.
Qed.

Lemma may_report_eq :
  generate_income_statement 2024 5 report_db
  = (inr (fst may_report, snd may_report), report_db).
Proof. vm_compute. reflexivity. Qed.

Lemma C8_company_totals_witness :
  generate_income_statement 2024 5 report_db
  = (inr (fst may_report, snd may_report), report_db)
  /\ map fst (fst may_report) = ["Annex"; "Main"]
  /\ revenue (snd may_report) = sum_field revenue (fst may_report)
  /\ net_income (snd may_report) = sum_field net_income (fst may_report).
Proof.
  split; [exact may_report_eq|].
  pose proof (C8_company_totals 2024 5 report_db _ _ _ may_report_eq) as H.
  split; [exact (proj1 H)|].
  split; [exact (proj1 (proj2 H))|].
  exact (proj2 (proj2 (proj2 (proj2 (proj2 (proj2 (proj2 (proj2 H)))))))).
Defined.

(** ** C4: napkin cost *)

Lemma sale_line_orders conts acc row d acc' d' :
  sale_line conts acc row d = (inr acc', d') ->
  acc_container_orders acc' = acc_container_orders acc + s_quantity row.
Proof.
  unfold sale_line.
  destruct (dict_get SCOOPS_OZ (s_size row)); [|discriminate].
  destruct (zdict_get conts (s_container_type_id row)) as [[[n p] u]|];
    [|discriminate].
  destruct (u =? 0)%Z; [discriminate|].
  unfold ret. intros [= <- _]. reflexivity.
Qed.

Lemma sale_lines_orders conts rows acc d acc' d' :
  fold_M rows (sale_line conts) acc d = (inr acc', d') ->
  acc_container_orders acc' = acc_container_orders acc + total_quantity rows.
Proof.
  revert acc d. induction rows as [|row rows IH]; intros acc d H.
  - cbn in H. injection H as <- _. cbn. lia.
  - cbn [fold_M] in H. unfold bind in H.
    destruct (sale_line conts acc row d) as [[e|acc1] d1] eqn:E; [discriminate|].
    apply sale_line_orders in E. apply IH in H.
    change (total_quantity (row :: rows))
      with (s_quantity row + total_quantity rows).
    lia.
Qed.

Lemma location_statement_napkins conts start end_ loc_id d st d' :
  location_statement conts start end_ loc_id d = (inr st, d') ->
  cogs_napkins st
  = (NAPKIN_COST_PER_ORDER
     * inject_Z (total_quantity
                   (List.filter
                      (fun s => (s_location_id s =? loc_id)%Z
                                && in_range start end_ (s_sale_date s))
                      (sales d))))%Q.
Proof.
  unfold location_statement, bind at 1, select_sales_of_location, gets.
  unfold bind at 1.
  destruct (fold_M _ (sale_line conts) _ d) as [[e|acc] d1] eqn:E; [discriminate|].
  apply sale_lines_orders in E. cbn in E.
  unfold bind.
  destruct (fold_M _ (flavor_cogs loc_id) _ d1) as [[e|c] d2]; [discriminate|].
  unfold ret. intros [= <- _]. cbn. now rewrite E.
Qed.

(** The claim read to the letter fails: in May 2024 location 1 ("Main") has
    two sale lines, of 5 and of 2 servings; its napkin cost is 7 times the
    per-order cost, not 2 times. *)
Lemma C4_napkins_not_per_line :
  generate_income_statement 2024 5 report_db
  = (inr (fst may_report, snd may_report), report_db)
  /\ exists st,
      In ("Main", st) (fst may_report)
      /\ length (period_sales report_db 2024 5 1) = 2%nat
      /\ ~ (cogs_napkins st == NAPKIN_COST_PER_ORDER * inject_Z 2)%Q
      /\ (cogs_napkins st == NAPKIN_COST_PER_ORDER * inject_Z 7)%Q.
Proof.
  split; [exact may_report_eq|].
  eexists. split; [right; left; reflexivity|].
  split; [reflexivity|]. split.
  - intros H. vm_compute in H. discriminate.
  - vm_compute. reflexivity.
Qed.

(** C4, amended. In the income statement of a month, the napkin cost of a
    location is the per-order cost (20 / 10000 * 2 = 0.004) times the sum
    of the quantities of the location's sale rows in the window: an order
    is one serving, not one sale row. *)
Theorem C4_napkin_cost :
  (NAPKIN_COST_PER_ORDER == 4 # 1000)%Q
  /\
  forall year month d sts company d',
    generate_income_statement year month d = (inr (sts, company), d') ->
    Forall2
      (fun (loc : Z * string) (ns : string * statement) =>
         fst ns = snd loc
         /\ cogs_napkins (snd ns)
            = (NAPKIN_COST_PER_ORDER
               * inject_Z (total_quantity (period_sales d year month (fst loc))))%Q)
      (order_by (fun a b => String.leb (snd a) (snd b)) (locations d))
      sts.
Proof.
  split; [reflexivity|].
  intros year month d sts company d' H.
  apply generate_income_statement_loop in H as [_ (conts & _ & Hall)].
  cbn [fst snd] in Hall.
  eapply Forall2_impl; [exact Hall|].
  intros loc ns [Hn Hst]. split; [exact Hn|].
  exact (location_statement_napkins _ _ _ _ _ _ _ Hst).
Qed.

Lemma C4_napkin_cost_witness :
  generate_income_statement 2024 5 report_db
  = (inr (fst may_report, snd may_report), report_db)
  /\ Forall2
       (fun (loc : Z * string) (ns : string * statement) =>
          fst ns = snd loc
          /\ cogs_napkins (snd ns)
             = (NAPKIN_COST_PER_ORDER
                * inject_Z (total_quantity
                              (period_sales report_db 2024 5 (fst loc))))%Q)
       [(2, "Annex"); (1, "Main")]
       (fst may_report).
Proof.
  split; [exact may_report_eq|].
  exact (proj2 C4_napkin_cost 2024 5 report_db _ _ _ may_report_eq).
Defined.

(** ** C10: recorded sizes are known sizes *)

Lemma SCOOPS_OZ_known size :
  In size SIZES <-> exists oz, dict_get SCOOPS_OZ size = Some oz.
Proof.
  unfold SIZES, SCOOPS_OZ. cbn [dict_get In]. split.
  - intros [<-|[<-|[<-|[<-|[]]]]]; cbn; eauto.
  - intros [oz H].
    repeat match type of H with
           | context [String.eqb ?a size] =>
               destruct (String.eqb_spec a size); [subst; cbn; tauto|]
           end.
    discriminate.
Qed.

Lemma fold_M_total_on {A S : Type} (P : A -> Prop) (l : list A)
    (body : S -> A -> M S) :
  (forall s x d, P x -> exists s', body s x d = (inr s', d)) ->
  Forall P l ->
  forall s d, exists s', fold_M l body s d = (inr s', d).
Proof.
  intros Hbody Hl. induction Hl as [|x l Hx _ IH]; intros s d.
  - exists s. reflexivity.
  - cbn [fold_M]. unfold bind.
    destruct (Hbody s x d Hx) as [s1 ->]. apply IH.
Qed.

Lemma add_location_sales name d : sales (snd (add_location name d)) = sales d.
Proof. rewrite add_location_cases. now destruct (name_taken _ _). Qed.

Lemma record_purchase_sales now l f c date d :
  sales (snd (record_purchase now l f c date d)) = sales d.
Proof. rewrite record_purchase_cases. now destruct (flavor_cost d f). Qed.









Lemma insert_sorted_Forall {A : Type} (P : A -> Prop) le (x : A) (l : list A) :
  P x -> Forall P l -> Forall P (insert_sorted le x l).
Proof.
  intros Hx Hl. induction Hl as [|y l Hy Hl IH]; cbn.
  - constructor; [exact Hx|constructor].
  - destruct (le x y);
      [constructor; [exact Hx|constructor; assumption]
      |constructor; assumption].
Qed.

Lemma order_by_Forall {A : Type} (P : A -> Prop) le (l : list A) :
  Forall P l -> Forall P (order_by le l).
Proof.
  unfold order_by. induction 1 as [|x l Hx _ IH]; cbn; [constructor|].
  now apply insert_sorted_Forall.
Qed.

Lemma group_add_known groups l f size q :
  In size SIZES -> Forall group_known groups ->
  Forall group_known (group_add groups l f size q).
Proof.
  intros Hs Hg. induction Hg as [|[[[l0 f0] s0] q0] groups Hg0 Hg IH]; cbn.
  - constructor; [exact Hs|constructor].
  - destruct (_ && _); constructor; assumption.
Qed.

Lemma groups_known rows groups :
  Forall known_size rows -> Forall group_known groups ->
  Forall group_known
    (fold_left
       (fun g s => group_add g (s_location_id s) (s_flavor_id s) (s_size s)
                             (s_quantity s))
       rows groups).
Proof.
  intros Hrows. revert groups.
  induction Hrows as [|s rows Hs _ IH]; intros groups Hg; [exact Hg|].
  cbn [fold_left]. apply IH. now apply group_add_known.
Qed.

Lemma flavor_sales_report_total year month d :
  sizes_known d ->
  exists out, generate_flavor_sales_report year month d = (inr out, d).
Proof.
  intros Hd. unfold generate_flavor_sales_report, bind at 1, gets.
  unfold bind at 1. unfold bind at 1, select_sales_grouped, gets. unfold bind.
  match goal with
  | |- context [fold_M ?rows report_line [] d] =>
      destruct (fold_M_total_on group_known rows report_line) with (s := @nil (Z * Z * Z)) (d := d)
        as [report ->]
  end.
  - intros s [[[l f] size] q] d0 Hg. unfold report_line.
    unfold group_known in Hg. cbn [fst snd] in Hg.
    apply SCOOPS_OZ_known in Hg as [oz ->]. eexists. reflexivity.
  - apply order_by_Forall, groups_known; [|constructor].
    unfold sizes_known in Hd. rewrite List.Forall_forall in *.
    intros s Hs. apply filter_In in Hs as [Hs _]. now apply Hd.
  - eexists. reflexivity.
Qed.



(** ** C9: sales of a non-positive quantity *)

Lemma SCOOPS_OZ_positive size oz : dict_get SCOOPS_OZ size = Some oz -> 0 < oz.
Proof.
  unfold SCOOPS_OZ. cbn [dict_get]. intros H.
  repeat match type of H with
         | context [String.eqb ?a size] =>
             destruct (String.eqb a size); [injection H as <-; lia|]
         end.
  discriminate.
Qed.

Lemma after_sale_on_hand d row n :
  on_hand (after_sale d row n) (s_location_id row) (s_flavor_id row)
  = match inventory_state d !! (s_location_id row, s_flavor_id row) with
    | Some _ => (on_hand d (s_location_id row) (s_flavor_id row) - inject_Z n)%Q
    | None => 0%Q
    end.
Proof.
  unfold on_hand at 1, after_sale. db_simpl. rewrite lookup_alter_eq.
  now destruct (inventory_state d !! (s_location_id row, s_flavor_id row)).
Qed.

(** C9. Where the claim and the code part: a sale of a negative quantity on
    a key that has no ledger entry (location 99 does not exist) passes the
    check and is logged, but the [UPDATE] finds no row, so the ledger is
    untouched and the quantity still reads 0, not 0 - 8 * (-1); the binary64
    run does the same.  Where the stock is negative (after a purchase of -1
    container) the check refuses even a quantity of 0.  And on a stock of
    640 * 2^46 ounces a sale of -1 "Kiddie" is logged while the quantity
    does not move, the four ounces being lost in the rounding. *)
Theorem C9_sale_without_ledger_entry :
  (let r := record_sale "2024-05-02" 99 1 "Small" 1 (-1) None located_db in
   dict_get SCOOPS_OZ "Small" = Some 8
   /\ inventory_state located_db !! (99, 1) = None
   /\ fst r = inr tt
   /\ sales (snd r) = [mk_sale 99 1 "2024-05-02" "Small" 1 (-1)]
   /\ inventory_state (snd r) = inventory_state located_db
   /\ on_hand (snd r) 99 1 = 0%Q
   /\ B64.record_sale "2024-05-02" 99 1 "Small" 1 (-1) None located_db = r)
  /\
  (let d := snd (record_purchase "2024-05-01" 1 1 (-1) None located_db) in
   on_hand d 1 1 = (-640 # 1)%Q
   /\ record_sale "2024-05-02" 1 1 "Small" 1 0 None d = (inl insufficient, d))
  /\
  (let r := B64.record_sale "2024-05-02" 1 1 "Kiddie" 1 (-1) None heavy_db in
   fst r = inr tt
   /\ sales (snd r) = [mk_sale 1 1 "2024-05-02" "Kiddie" 1 (-1)]
   /\ on_hand (snd r) 1 1 = on_hand heavy_db 1 1).
Proof.
  split; [|split].
  - cbv zeta. split; [reflexivity|]. split; [reflexivity|].
    split; [reflexivity|]. split; [reflexivity|].
    split; [vm_compute; reflexivity|]. split; vm_compute; reflexivity.
  - cbv zeta. split; vm_compute; reflexivity.
  - cbv zeta. split; [vm_compute; reflexivity|]. split; vm_compute; reflexivity.
Qed.

(** Where the claim and the code agree: on a ledger whose quantity on hand
    for the key is non-negative (a missing entry read as 0), a sale of a
    known size and a quantity <= 0 passes the sufficiency check and raises
    nothing; its row is appended to [sales]; an existing entry has its
    [ounces_on_hand] set to on_hand - size_ounces * quantity, which leaves
    it as it was for quantity 0, and keeps its average cost. *)
Lemma nonpositive_sale_goes_through :
  forall now d l f size ct q date oz,
    dict_get SCOOPS_OZ size = Some oz ->
    q <= 0 ->
    (0 <= on_hand d l f)%Q ->
    let r := record_sale now l f size ct q date d in
    fst r = inr tt
    /\ sales (snd r)
       = (sales d
          ++ [mk_sale l f (match date with None => now | Some s => s end)
                      size ct q])%list
    /\ inventory_state (snd r) !! (l, f)
       = (fun e => ((on_hand d l f - inject_Z (oz * q))%Q, snd e))
           <$> (inventory_state d !! (l, f))
    /\ (q = 0 -> (on_hand (snd r) l f == on_hand d l f)%Q).
Proof.
  intros now d l f size ct q date oz Hsize Hq Hd r. subst r.
  pose proof (SCOOPS_OZ_positive _ _ Hsize) as Hoz.
  rewrite record_sale_cases, Hsize.
  assert (Hle : (inject_Z (oz * q) <= on_hand d l f)%Q).
  { apply Qle_trans with 0%Q; [|exact Hd]. unfold Qle. cbn. nia. }
  rewrite (proj2 (Qlt_bool_false _ _) Hle). cbn [fst snd].
  split; [reflexivity|]. split; [reflexivity|].
  split; [unfold after_sale; db_simpl; now rewrite lookup_alter_eq|].
  rewrite after_sale_on_hand. db_simpl.
  intros ->. destruct (inventory_state d !! (l, f)) as [e|] eqn:E.
  - rewrite Z.mul_0_r. unfold Qminus.
    change (- inject_Z 0)%Q with 0%Q. apply Qplus_0_r.
  - unfold on_hand. now rewrite E.
Qed.

(** ** C5: the window of a month *)

Lemma comparison_eqb_eq x y : comparison_eqb x y = true -> x = y.
Proof. destruct x, y; cbn; congruence. Qed.

Lemma below_forall (P : Z -> bool) (N : Z) :
  forallb (fun i => P (Z.of_nat i)) (seq 0 (Z.to_nat N)) = true ->
  forall n, 0 <= n < N -> P n = true.
Proof.
  intros H n Hn. rewrite forallb_forall in H.
  specialize (H (Z.to_nat n)). rewrite Z2Nat.id in H by lia.
  apply H. apply in_seq. lia.
Qed.

Lemma format_2d n : 0 <= n <= 99 -> format_0d 2 n = two_digits n "".
Proof.
  intros Hn. apply String.eqb_eq.
  apply (below_forall
           (fun n => String.eqb (format_0d 2 n) (two_digits n "")) 100);
    [vm_compute; reflexivity|lia].
Qed.

Lemma format_4d n :
  0 <= n <= 9999 ->
  format_0d 4 n = two_digits (n / 100) (two_digits (n mod 100) "").
Proof.
  intros Hn. apply String.eqb_eq.
  rewrite (Z.div_mod n 100) at 1 by lia.
  change (four_digits_agree (n / 100) (n mod 100) = true).
  assert (H : forall h, 0 <= h < 100 ->
              forallb (fun j => four_digits_agree h (Z.of_nat j))
                      (seq 0 (Z.to_nat 100)) = true).
  { apply (below_forall
             (fun h => forallb (fun j => four_digits_agree h (Z.of_nat j))
                               (seq 0 (Z.to_nat 100))) 100).
    vm_compute. reflexivity. }
  apply (below_forall (four_digits_agree (n / 100)) 100);
    [apply H|]; Z.div_mod_to_equations; lia.
Qed.

Lemma compare_digits a b :
  0 <= a <= 99 -> 0 <= b <= 99 ->
  match Ascii.compare (digit (a / 10)) (digit (b / 10)) with
  | Eq => Ascii.compare (digit (a mod 10)) (digit (b mod 10))
  | c => c
  end = (a ?= b)%Z.
Proof.
  intros Ha Hb. apply comparison_eqb_eq.
  change (digits_agree a b = true).
  assert (H : forall a, 0 <= a < 100 ->
              forallb (fun j => digits_agree a (Z.of_nat j))
                      (seq 0 (Z.to_nat 100)) = true).
  { apply (below_forall
             (fun a => forallb (fun j => digits_agree a (Z.of_nat j))
                               (seq 0 (Z.to_nat 100))) 100).
    vm_compute. reflexivity. }
  apply (below_forall (digits_agree a) 100); [apply H|]; lia.
Qed.

Lemma compare_two_digits a b s t :
  0 <= a <= 99 -> 0 <= b <= 99 ->
  String.compare (two_digits a s) (two_digits b t)
  = match (a ?= b)%Z with
    | Eq => String.compare s t
    | c => c
    end.
Proof.
  intros Ha Hb. rewrite <- (compare_digits a b Ha Hb).
  unfold two_digits. cbn [String.compare].
  destruct (Ascii.compare (digit (a / 10)) (digit (b / 10)));
    destruct (Ascii.compare (digit (a mod 10)) (digit (b mod 10)));
    reflexivity.
Qed.

Lemma iso_date_digits y m d :
  0 <= y <= 9999 -> 0 <= m <= 99 -> 0 <= d <= 99 ->
  iso_date y m d
  = two_digits (y / 100)
      (two_digits (y mod 100)
         (String "-" (two_digits m (String "-" (two_digits d ""))))).
Proof.
  intros Hy Hm Hd. unfold iso_date.
  rewrite (format_4d y Hy), (format_2d m Hm), (format_2d d Hd). reflexivity.
Qed.

Lemma year_compare y y' :
  0 <= y <= 9999 -> 0 <= y' <= 9999 ->
  match (y / 100 ?= y' / 100)%Z with
  | Eq => (y mod 100 ?= y' mod 100)%Z
  | c => c
  end = (y ?= y')%Z.
Proof.
  intros Hy Hy'.
  destruct (Z.compare_spec (y / 100) (y' / 100));
    destruct (Z.compare_spec (y mod 100) (y' mod 100));
    destruct (Z.compare_spec y y');
    try reflexivity; exfalso; Z.div_mod_to_equations; lia.
Qed.

(** Dates in the form YYYY-MM-DD compare as text the way they compare as
    dates. *)
Lemma iso_date_compare y m d y' m' d' :
  0 <= y <= 9999 -> 0 <= m <= 99 -> 0 <= d <= 99 ->
  0 <= y' <= 9999 -> 0 <= m' <= 99 -> 0 <= d' <= 99 ->
  String.compare (iso_date y m d) (iso_date y' m' d')
  = lex3 (y ?= y')%Z (m ?= m')%Z (d ?= d')%Z.
Proof.
  intros Hy Hm Hd Hy' Hm' Hd'.
  rewrite (iso_date_digits y m d), (iso_date_digits y' m' d') by assumption.
  rewrite compare_two_digits by (Z.div_mod_to_equations; lia).
  rewrite compare_two_digits by (Z.div_mod_to_equations; lia).
  change (String.compare (String "-" ?s) (String "-" ?t))
    with (String.compare s t).
  rewrite compare_two_digits by assumption.
  change (String.compare (String "-" ?s) (String "-" ?t))
    with (String.compare s t).
  rewrite compare_two_digits by assumption.
  change (String.compare "" "") with Eq.
  rewrite <- (year_compare y y' Hy Hy'). unfold lex3.
  destruct (y / 100 ?= y' / 100)%Z; destruct (y mod 100 ?= y' mod 100)%Z;
    destruct (m ?= m')%Z; destruct (d ?= d')%Z; reflexivity.
Qed.

Lemma month_bounds_iso year month :
  _month_bounds year month
  = (iso_date year month 1,
     if (month =? 12)%Z then iso_date (year + 1) 1 1
     else iso_date year (month + 1) 1).
Proof.
  unfold _month_bounds, iso_date. destruct (month =? 12)%Z; reflexivity.
Qed.

Lemma in_month_compare year month date :
  in_month year month date
  = negb (match String.compare date (iso_date year month 1) with
          | Lt => true
          | _ => false
          end)
    && match String.compare date
               (if (month =? 12)%Z then iso_date (year + 1) 1 1
                else iso_date year (month + 1) 1) with
       | Lt => true
       | _ => false
       end.
Proof.
  unfold in_month. rewrite month_bounds_iso. reflexivity.
Qed.

Lemma in_month_iff y m d year month :
  0 <= y <= 9999 -> 1 <= m <= 12 -> 1 <= d <= 31 ->
  ~ (y = 9999 /\ m = 12) ->
  0 <= year <= 9999 -> 1 <= month <= 12 ->
  in_month year month (iso_date y m d) = true <-> year = y /\ month = m.
Proof.
  intros Hy Hm Hd Hlast Hyear Hmonth.
  rewrite in_month_compare, andb_true_iff, negb_true_iff.
  rewrite (iso_date_compare y m d year month 1) by lia.
  destruct (Z.eqb_spec month 12) as [->|Hne].
  - destruct (Z.eq_dec year 9999) as [->|Hy9].
    + unfold lex3.
      destruct (Z.compare_spec y 9999); destruct (Z.compare_spec m 12);
        destruct (Z.compare_spec d 1);
        split; try lia; intros [H1 H2]; try discriminate; lia.
    + rewrite (iso_date_compare y m d (year + 1) 1 1) by lia.
      unfold lex3.
      destruct (Z.compare_spec y year); destruct (Z.compare_spec m 12);
        destruct (Z.compare_spec d 1); destruct (Z.compare_spec y (year + 1));
        destruct (Z.compare_spec m 1);
        split; try lia; intros [H1 H2]; try discriminate; lia.
  - rewrite (iso_date_compare y m d year (month + 1) 1) by lia.
    unfold lex3.
    destruct (Z.compare_spec y year); destruct (Z.compare_spec m month);
      destruct (Z.compare_spec d 1); destruct (Z.compare_spec m (month + 1));
      split; try lia; intros [H1 H2]; try discriminate; lia.
Qed.

Lemma days_in_month_range y m : 28 <= days_in_month y m <= 31.
Proof.
  unfold days_in_month.
  destruct (m =? 2)%Z; [destruct (is_leap y); lia|].
  destruct (_ || _); lia.
Qed.

(** In December 9999 the end of the window is the text "10000-01-01",
    which sorts before every date of that month, so the first and the last
    day of the month fall outside the window of their own month, and the
    15th falls in the window of no month of the years 0 to 9999. *)
Lemma december_9999_in_no_window :
  _month_bounds 9999 12 = ("9999-12-01", "10000-01-01")
  /\ iso_date 9999 12 1 = "9999-12-01"
  /\ in_month 9999 12 (iso_date 9999 12 1) = false
  /\ in_month 9999 12 (iso_date 9999 12 31) = false
  /\ forall year month,
      0 <= year <= 9999 -> 1 <= month <= 12 ->
      in_month year month (iso_date 9999 12 15) = false.
Proof.
  split; [reflexivity|]. split; [reflexivity|].
  split; [vm_compute; reflexivity|]. split; [vm_compute; reflexivity|].
  intros year month Hy Hm.
  rewrite in_month_compare.
  destruct (Z.eqb_spec month 12) as [->|Hne].
  - destruct (Z.eq_dec year 9999) as [->|Hy9]; [vm_compute; reflexivity|].
    rewrite (iso_date_compare 9999 12 15 (year + 1) 1 1) by lia.
    unfold lex3. destruct (Z.compare_spec 9999 (year + 1));
      try (apply andb_false_r); lia.
  - rewrite (iso_date_compare 9999 12 15 year (month + 1) 1) by lia.
    unfold lex3. destruct (Z.compare_spec 9999 year);
      destruct (Z.compare_spec 12 (month + 1));
      try (apply andb_false_r); lia.
Qed.

(** Where the claim and the code agree.  The window of (year, month) runs
    from the first of the month, included, to the first of the next month,
    excluded, December going over to January of the next year.  Among the
    months of the years 0 to 9999, every date from 0000-01-01 to 9999-11-30
    falls in the window of its own month and of no other: the first day of
    a month is in the window of that month, the last day is not in the
    window of the next month.  The sale rows behind the income statement of
    a month are those of the location whose date is in the window. *)
Lemma month_window_partition :
  (forall year month,
      _month_bounds year month
      = (iso_date year month 1,
         if (month =? 12)%Z then iso_date (year + 1) 1 1
         else iso_date year (month + 1) 1))
  /\
  (forall y m d year month,
      0 <= y <= 9999 -> 1 <= m <= 12 -> 1 <= d <= 31 ->
      ~ (y = 9999 /\ m = 12) ->
      0 <= year <= 9999 -> 1 <= month <= 12 ->
      (in_month year month (iso_date y m d) = true <-> year = y /\ month = m))
  /\
  (forall y m,
      0 <= y <= 9999 -> 1 <= m <= 12 -> ~ (y = 9999 /\ m = 12) ->
      in_month y m (iso_date y m 1) = true
      /\ in_month y m (iso_date y m (days_in_month y m)) = true
      /\ in_month (if (m =? 12)%Z then y + 1 else y)
                  (if (m =? 12)%Z then 1 else m + 1)
                  (iso_date y m (days_in_month y m)) = false)
  /\
  (forall d year month s,
      In s (period_sales d year month (s_location_id s))
      <-> In s (sales d) /\ in_month year month (s_sale_date s) = true).
Proof.
  split; [exact month_bounds_iso|]. split; [exact in_month_iff|]. split.
  - intros y m Hy Hm Hlast.
    pose proof (days_in_month_range y m) as Hdays.
    split; [apply in_month_iff; lia|]. split; [apply in_month_iff; lia|].
    destruct (in_month _ _ _) eqn:E; [|reflexivity].
    apply in_month_iff in E; try lia;
      destruct (Z.eqb_spec m 12); lia.
  - intros d year month s. unfold period_sales. rewrite filter_In.
    rewrite Z.eqb_refl. reflexivity.
Qed.

(** C5. Where the claim and the code part.  December 9999: the end of the
    window is the text "10000-01-01", which sorts before every date of
    that month, so neither the first nor the last day of the month is in
    the window of its own month, and a sale recorded on 9999-12-15 is
    missing from the income statement of December 9999, whose revenue is
    0.  A year of five digits: the window of (20239, 12) runs from the
    text "20239-12-01" to "20240-01-01" and holds every date of the year
    2024, so a sale dated 2024-05-15 is in the window of May 2024 and of
    "December 20239", and the income statement asked for (20239, 12) is
    the one of May 2024. *)
Theorem C5_month_window_slips :
  (_month_bounds 9999 12 = ("9999-12-01", "10000-01-01")
   /\ in_month 9999 12 (iso_date 9999 12 1) = false
   /\ in_month 9999 12 (iso_date 9999 12 31) = false
   /\ sales december_db = [mk_sale 1 1 (iso_date 9999 12 15) "Medium" 1 5]
   /\ period_sales december_db 9999 12 1 = []
   /\ exists st company,
       generate_income_statement 9999 12 december_db
       = (inr ([("Main", st)], company), december_db)
       /\ revenue st = 0%Q)
  /\
  (_month_bounds 20239 12 = ("20239-12-01", "20240-01-01")
   /\ in_month 2024 5 (iso_date 2024 5 15) = true
   /\ in_month 20239 12 (iso_date 2024 5 15) = true
   /\ period_sales report_db 20239 12 1 = period_sales report_db 2024 5 1
   /\ period_sales report_db 2024 5 1 <> []
   /\ generate_income_statement 20239 12 report_db
      = generate_income_statement 2024 5 report_db).
Proof.
  split.
  - split; [reflexivity|]. split; [vm_compute; reflexivity|].
    split; [vm_compute; reflexivity|]. split; [vm_compute; reflexivity|].
    split; [vm_compute; reflexivity|].
    eexists. eexists. split; vm_compute; reflexivity.
  - split; [reflexivity|]. split; [vm_compute; reflexivity|].
    split; [vm_compute; reflexivity|]. split; [vm_compute; reflexivity|].
    split; [vm_compute; discriminate|]. vm_compute. reflexivity.
Qed.

(** * Further properties of the code *)

(** ** [init_db] *)

(** X1. [init_db] seeds the five flavors and the three containers, ids from
    1, into catalog tables that hold no row, leaves a catalog table that
    holds rows and every other table as they are, and running it a second
    time changes nothing. *)
Theorem init_db_idempotent :
  forall d,
    init_db (init_db d) = init_db d
    /\ (flavors d = [] ->
        map (fun r => (fst (fst r), snd (fst r))) (flavors (init_db d))
        = [(1, "Vanilla"); (2, "Chocolate"); (3, "Neapolitan");
           (4, "Cookies & Cream"); (5, "Cookie Dough")])
    /\ (containers d = [] ->
        map (fun r => fst (fst (fst r))) (containers (init_db d)) = [1; 2; 3])
    /\ (flavors d <> [] -> flavors (init_db d) = flavors d)
    /\ (containers d <> [] -> containers (init_db d) = containers d)
    /\ locations (init_db d) = locations d
    /\ inventory_state (init_db d) = inventory_state d
    /\ purchases (init_db d) = purchases d
    /\ sales (init_db d) = sales d.
Proof.
  intros d. split.
  - unfold init_db. db_simpl.
    destruct (flavors d) as [|x fs]; destruct (containers d) as [|y cs];
      reflexivity.
  - unfold init_db. db_simpl.
    split; [intros ->; reflexivity|]. split; [intros ->; reflexivity|].
    split; [destruct (flavors d); [congruence|reflexivity]|].
    split; [destruct (containers d); [congruence|reflexivity]|].
    auto.
Qed.

Lemma init_db_idempotent_witness :
  flavors located_db <> []
  /\ flavors (init_db located_db) = flavors located_db
  /\ init_db (init_db empty_db) = init_db empty_db.
Proof.
  assert (H : flavors located_db <> []) by discriminate.
  split; [exact H|].
  split.
  - exact (proj1 (proj2 (proj2 (proj2 (init_db_idempotent located_db)))) H).
  - exact (proj1 (init_db_idempotent empty_db)).
Defined.

(** ** Locations *)

Lemma max_rowid_bound rows i : In i (map fst rows) -> i <= max_rowid rows.
Proof.
  induction rows as [|r rows IH]; [cbn; tauto|].
  change (max_rowid (r :: rows)) with (Z.max (fst r) (max_rowid rows)).
  intros [<-|Hi]; [lia|]. specialize (IH Hi). lia.
Qed.

Lemma new_location_id_fresh d : ~ In (new_location_id d) (map fst (locations d)).
Proof.
  intros H. apply max_rowid_bound in H. unfold new_location_id in H. lia.
Qed.

Lemma NoDup_snoc {A : Type} (l : list A) (x : A) :
  NoDup l -> ~ In x l -> NoDup (l ++ [x]).
Proof.
  intros Hl Hx. apply NoDup_app. split; [exact Hl|]. split.
  - intros y Hy Hy'. apply list_elem_of_In in Hy, Hy'.
    destruct Hy' as [->|[]]. contradiction.
  - apply NoDup_singleton.
Qed.

Lemma add_location_distinct name d :
  locations_distinct d -> locations_distinct (snd (add_location name d)).
Proof.
  intros [Hid Hname]. rewrite add_location_cases.
  destruct (name_taken (strip name) (locations d)) eqn:E; [split; assumption|].
  unfold locations_distinct, location_names. cbn [snd after_add_location locations].
  rewrite !map_app. cbn [map fst snd]. split.
  - apply NoDup_snoc; [exact Hid|apply new_location_id_fresh].
  - apply NoDup_snoc; [exact Hname|]. now apply name_taken_not_In.
Qed.

Lemma record_purchase_locations now l f c date d :
  locations (snd (record_purchase now l f c date d)) = locations d.
Proof. rewrite record_purchase_cases. now destruct (flavor_cost d f). Qed.

Lemma record_sale_locations now l f size ct q date d :
  locations (snd (record_sale now l f size ct q date d)) = locations d.
Proof.
  rewrite record_sale_cases.
  destruct (dict_get SCOOPS_OZ size); [|reflexivity].
  now destruct (Qlt_bool _ _).
Qed.

Lemma exec_distinct o d : locations_distinct d -> locations_distinct (exec o d).
Proof.
  destruct o; cbn [exec]; intros H.
  - now apply add_location_distinct.
  - unfold locations_distinct, location_names.
    now rewrite record_purchase_locations.
  - unfold locations_distinct, location_names.
    now rewrite record_sale_locations.
Qed.

(** X2. Whatever sequence of calls is made on a new database, no two
    locations share an id and no two share a name. *)
Theorem locations_stay_distinct :
  forall ops, locations_distinct (exec_all ops fresh_db).
Proof.
  intros ops. unfold exec_all.
  assert (H : locations_distinct fresh_db) by (split; constructor).
  revert H. generalize fresh_db.
  induction ops as [|o ops IH]; intros d H; [exact H|].
  cbn [fold_left]. apply IH. now apply exec_distinct.
Qed.

(** X3. Adding the same name again, with or without surrounding blanks, is
    refused and leaves the database as the first call left it. *)
Theorem add_location_again :
  forall name name' d,
    strip name' = strip name ->
    let d1 := snd (add_location name d) in
    add_location name' d1 = (inr false, d1).
Proof.
  intros name name' d Hs d1. subst d1.
  rewrite (add_location_cases name' _), Hs.
  assert (H : name_taken (strip name) (locations (snd (add_location name d)))
              = true).
  { rewrite add_location_cases.
    destruct (name_taken (strip name) (locations d)) eqn:E; [exact E|].
    cbn [snd after_add_location locations]. apply name_taken_In.
    rewrite map_app. apply in_or_app. right. left. reflexivity. }
  now rewrite H.
Qed.

Lemma add_location_again_witness :
  strip " Main" = strip "Main "
  /\ add_location " Main" (snd (add_location "Main " fresh_db))
     = (inr false, snd (add_location "Main " fresh_db)).
Proof.
  assert (H : strip " Main" = strip "Main ") by reflexivity.
  split; [exact H|].
  exact (add_location_again "Main " " Main" fresh_db H).
Defined.

(** ** Ledger coverage *)

Lemma add_location_flavors name d : flavors (snd (add_location name d)) = flavors d.
Proof. rewrite add_location_cases. now destruct (name_taken _ _). Qed.

Lemma record_purchase_flavors now l f c date d :
  flavors (snd (record_purchase now l f c date d)) = flavors d.
Proof. rewrite record_purchase_cases. now destruct (flavor_cost d f). Qed.

Lemma record_sale_flavors now l f size ct q date d :
  flavors (snd (record_sale now l f size ct q date d)) = flavors d.
Proof.
  rewrite record_sale_cases.
  destruct (dict_get SCOOPS_OZ size); [|reflexivity].
  now destruct (Qlt_bool _ _).
Qed.

Lemma add_location_covers name d :
  ledger_covers d -> ledger_covers (snd (add_location name d)).
Proof.
  intros H. rewrite add_location_cases.
  destruct (name_taken (strip name) (locations d)); [exact H|].
  intros l f. unfold flavor_ids. cbn [snd after_add_location locations flavors
                                      inventory_state].
  rewrite map_app, in_app_iff, lookup_zero_entries. intros Hl Hf.
  destruct (inventory_state d !! (l, f)) as [r|] eqn:E; [eauto|].
  destruct Hl as [Hl|[<-|[]]].
  - specialize (H l f Hl Hf). rewrite E in H. now destruct H.
  - cbn [fst]. rewrite Z.eqb_refl.
    assert (He : existsb (Z.eqb f) (flavor_ids d) = true).
    { apply existsb_exists. exists f. split; [exact Hf|apply Z.eqb_refl]. }
    rewrite He. cbn. eauto.
Qed.

Lemma record_purchase_covers now l f c date d :
  ledger_covers d -> ledger_covers (snd (record_purchase now l f c date d)).
Proof.
  intros H. rewrite record_purchase_cases.
  destruct (flavor_cost d f) as [p|]; [|exact H].
  intros l' f' Hl Hf. cbn in *. rewrite lookup_insert.
  case_decide; [eauto|]. now apply H.
Qed.

Lemma record_sale_covers now l f size ct q date d :
  ledger_covers d -> ledger_covers (snd (record_sale now l f size ct q date d)).
Proof.
  intros H. rewrite record_sale_cases.
  destruct (dict_get SCOOPS_OZ size) as [oz|]; [|exact H].
  destruct (Qlt_bool _ _); [exact H|].
  intros l' f' Hl Hf. cbn in *. rewrite lookup_alter.
  specialize (H l' f' Hl Hf). destruct H as [r Hr].
  case_decide as Hk; [|eauto]. inversion Hk; subst. rewrite Hr. cbn. eauto.
Qed.

Lemma exec_covers o d : ledger_covers d -> ledger_covers (exec o d).
Proof.
  destruct o; cbn [exec]; intros H.
  - now apply add_location_covers.
  - now apply record_purchase_covers.
  - now apply record_sale_covers.
Qed.

Lemma exec_all_covers ops d : ledger_covers d -> ledger_covers (exec_all ops d).
Proof.
  unfold exec_all. revert d.
  induction ops as [|o ops IH]; intros d H; [exact H|].
  cbn [fold_left]. apply IH. now apply exec_covers.
Qed.

Lemma exec_flavors o d : flavors (exec o d) = flavors d.
Proof.
  destruct o; cbn [exec].
  - apply add_location_flavors.
  - apply record_purchase_flavors.
  - apply record_sale_flavors.
Qed.

Lemma exec_all_flavors ops d : flavors (exec_all ops d) = flavors d.
Proof.
  unfold exec_all. revert d.
  induction ops as [|o ops IH]; intros d; [reflexivity|].
  cbn [fold_left]. rewrite IH. apply exec_flavors.
Qed.

(** X4. Whatever sequence of calls is made on a new database, every
    location has a ledger entry for every flavor of the catalog, and the
    catalog is still the seeded one. *)
Theorem ledger_always_covers :
  forall ops,
    ledger_covers (exec_all ops fresh_db)
    /\ flavors (exec_all ops fresh_db) = flavors fresh_db.
Proof.
  intros ops. split.
  - apply exec_all_covers. intros l f [].
  - apply exec_all_flavors.
Qed.

(** ** The ledger and the logs *)

Lemma zsum_app l1 l2 : zsum (l1 ++ l2) = zsum l1 + zsum l2.
Proof.
  unfold zsum. induction l1 as [|x l1 IH]; cbn [app fold_right]; [lia|].
  rewrite IH. lia.
Qed.

Lemma purchased_oz_snoc d row rows' l f :
  purchases d = (rows' ++ [row])%list ->
  purchased_oz d l f
  = zsum (map (fun p => p_containers p * OZ_PER_CONTAINER)
              (List.filter
                 (fun p => (p_location_id p =? l)%Z && (p_flavor_id p =? f)%Z)
                 rows'))
    + (if (p_location_id row =? l)%Z && (p_flavor_id row =? f)%Z
       then p_containers row * OZ_PER_CONTAINER else 0).
Proof.
  intros H. unfold purchased_oz. rewrite H, List.filter_app, map_app, zsum_app.
  cbn [List.filter]. destruct (_ && _); cbn; lia.
Qed.

Lemma sold_oz_snoc d row rows' l f :
  sales d = (rows' ++ [row])%list ->
  sold_oz d l f
  = zsum (map sale_oz
              (List.filter
                 (fun s => (s_location_id s =? l)%Z && (s_flavor_id s =? f)%Z)
                 rows'))
    + (if (s_location_id row =? l)%Z && (s_flavor_id row =? f)%Z
       then sale_oz row else 0).
Proof.
  intros H. unfold sold_oz. rewrite H, List.filter_app, map_app, zsum_app.
  cbn [List.filter]. destruct (_ && _); cbn; lia.
Qed.

Lemma key_eqb_spec (l f l' f' : Z) :
  (l =? l')%Z && (f =? f')%Z = true <-> (l, f) = (l', f').
Proof.
  rewrite andb_true_iff, !Z.eqb_eq. split; [intros [-> ->]; reflexivity|].
  intros [= -> ->]. auto.
Qed.

Lemma add_location_on_hand name d l f :
  on_hand (snd (add_location name d)) l f = on_hand d l f.
Proof.
  rewrite add_location_cases.
  destruct (name_taken (strip name) (locations d)); [reflexivity|].
  unfold on_hand. cbn [snd after_add_location inventory_state].
  rewrite lookup_zero_entries.
  destruct (inventory_state d !! (l, f)); [reflexivity|].
  now destruct (_ && _).
Qed.

Lemma add_location_purchases name d :
  purchases (snd (add_location name d)) = purchases d.
Proof. rewrite add_location_cases. now destruct (name_taken _ _). Qed.

Lemma add_location_matches name d :
  ledger_matches_log d -> ledger_matches_log (snd (add_location name d)).
Proof.
  intros H l f. rewrite add_location_on_hand.
  unfold purchased_oz, sold_oz.
  rewrite add_location_purchases, add_location_sales. apply H.
Qed.

Lemma record_purchase_matches now l f c date d :
  ledger_matches_log d ->
  ledger_matches_log (snd (record_purchase now l f c date d)).
Proof.
  intros H. rewrite record_purchase_cases.
  destruct (flavor_cost d f) as [p|]; [|exact H].
  intros l' f'. cbn [snd].
  set (row := mk_purchase l f (match date with None => now | Some s => s end) c p).
  rewrite (purchased_oz_snoc (after_purchase d row) row (purchases d) l' f'
                             eq_refl).
  fold (purchased_oz d l' f').
  change (sold_oz (after_purchase d row) l' f') with (sold_oz d l' f').
  subst row. cbn [p_location_id p_flavor_id p_containers].
  unfold on_hand at 1. cbn [after_purchase inventory_state p_location_id
                             p_flavor_id]. rewrite lookup_insert.
  destruct ((l =? l')%Z && (f =? f')%Z) eqn:E.
  - apply key_eqb_spec in E. rewrite decide_True by exact E.
    injection E as <- <-. cbn [purchased fst].
    rewrite (H l f), <- inject_Z_plus. apply inject_Z_injective.
    db_simpl. lia.
  - rewrite decide_False.
    + rewrite Z.add_0_r. apply H.
    + intros Hk. apply key_eqb_spec in Hk. congruence.
Qed.

Lemma record_sale_matches now l f size ct q date d :
  0 < q ->
  ledger_matches_log d ->
  ledger_matches_log (snd (record_sale now l f size ct q date d)).
Proof.
  intros Hq H. rewrite record_sale_cases.
  destruct (dict_get SCOOPS_OZ size) as [oz|] eqn:Hsize; [|exact H].
  destruct (Qlt_bool _ _) eqn:Hcheck; [exact H|].
  apply Qlt_bool_false in Hcheck.
  pose proof (SCOOPS_OZ_positive _ _ Hsize) as Hoz.
  intros l' f'. cbn [snd].
  set (row := mk_sale l f (match date with None => now | Some s => s end)
                      size ct q).
  rewrite (sold_oz_snoc (after_sale d row (oz * q)) row (sales d) l' f' eq_refl).
  fold (sold_oz d l' f').
  change (purchased_oz (after_sale d row (oz * q)) l' f')
    with (purchased_oz d l' f').
  subst row. cbn [s_location_id s_flavor_id].
  change (sale_oz (mk_sale l f (match date with None => now | Some s => s end)
                           size ct q))
    with (match dict_get SCOOPS_OZ size with Some o => o * q | None => 0 end).
  rewrite Hsize.
  destruct ((l =? l')%Z && (f =? f')%Z) eqn:E.
  - apply key_eqb_spec in E. injection E as <- <-.
    pose proof (after_sale_on_hand d
                  (mk_sale l f (match date with None => now | Some s => s end)
                           size ct q) (oz * q)) as Hoh.
    cbn [s_location_id s_flavor_id] in Hoh. rewrite Hoh.
    destruct (inventory_state d !! (l, f)) as [r|] eqn:Hr.
    + rewrite (H l f). unfold Qminus. rewrite <- inject_Z_opp, <- inject_Z_plus.
      apply inject_Z_injective. lia.
    + exfalso. unfold on_hand in Hcheck. rewrite Hr in Hcheck.
      unfold Qle in Hcheck. cbn in Hcheck. nia.
  - rewrite Z.add_0_r. rewrite <- (H l' f').
    unfold on_hand. cbn [after_sale inventory_state s_location_id s_flavor_id].
    rewrite lookup_alter_ne; [reflexivity|].
    intros Hk. apply key_eqb_spec in Hk. congruence.
Qed.

Lemma exec_matches o d :
  sale_positive o -> ledger_matches_log d -> ledger_matches_log (exec o d).
Proof.
  destruct o; cbn [sale_positive exec]; intros Hp H.
  - now apply add_location_matches.
  - now apply record_purchase_matches.
  - now apply record_sale_matches.
Qed.

Lemma exec_all_matches ops d :
  Forall sale_positive ops -> ledger_matches_log d ->
  ledger_matches_log (exec_all ops d).
Proof.
  intros Hops. unfold exec_all. revert d.
  induction Hops as [|o ops Ho _ IH]; intros d H; [exact H|].
  cbn [fold_left]. apply IH. now apply exec_matches.
Qed.

(** ** Quantities in binary64 *)

Lemma same_quantities_on_hand d64 d l f :
  same_quantities d64 d -> (on_hand d64 l f == on_hand d l f)%Q.
Proof.
  intros (_ & _ & _ & _ & _ & _ & H). specialize (H (l, f)). unfold on_hand.
  destruct (inventory_state d64 !! (l, f)), (inventory_state d !! (l, f));
    try contradiction; [exact H|reflexivity].
Qed.

Lemma same_quantities_flavor_cost d64 d f :
  same_quantities d64 d -> flavor_cost d64 f = flavor_cost d f.
Proof. intros (_ & _ & H & _). unfold flavor_cost. now rewrite H. Qed.

Lemma add_location_refines name d64 d :
  same_quantities d64 d ->
  same_quantities (snd (add_location name d64)) (snd (add_location name d)).
Proof.
  intros H. pose proof H as (H1 & H2 & H3 & H4 & H5 & H6 & H7).
  rewrite !add_location_cases, H1.
  destruct (name_taken (strip name) (locations d)); [exact H|].
  cbn [snd]. unfold after_add_location, new_location_id, flavor_ids.
  rewrite H1, H2, H3, H4, H5, H6.
  repeat (split; [reflexivity|]).
  intros [l f]. cbn [inventory_state]. rewrite !lookup_zero_entries.
  specialize (H7 (l, f)).
  destruct (inventory_state d64 !! (l, f)), (inventory_state d !! (l, f));
    try contradiction; [exact H7|].
  destruct (_ && _); [reflexivity|exact I].
Qed.

Lemma add_location_whole name d V :
  whole_within V d -> whole_within V (snd (add_location name d)).
Proof. intros H l f. rewrite add_location_on_hand. apply H. Qed.

Lemma record_purchase_refines now l f c date d64 d V :
  same_quantities d64 d -> whole_within V d ->
  V + Z.abs (c * OZ_PER_CONTAINER) <= 2 ^ 53 ->
  same_quantities (snd (B64.record_purchase now l f c date d64))
                  (snd (record_purchase now l f c date d))
  /\ whole_within (V + Z.abs (c * OZ_PER_CONTAINER))
                  (snd (record_purchase now l f c date d)).
Proof.
  intros H HV Hb. pose proof H as (H1 & H2 & H3 & H4 & H5 & H6 & H7).
  rewrite B64_record_purchase_cases, record_purchase_cases.
  rewrite (same_quantities_flavor_cost _ _ f H).
  destruct (flavor_cost d f) as [p|].
  2:{ split; [exact H|]. intros l' f'. destruct (HV l' f') as (n & Hn & Hle).
      exists n. split; [exact Hn|lia]. }
  cbn [snd]. destruct (HV l f) as (n & Hn & Hle).
  assert (Hq : (on_hand d64 l f == inject_Z n)%Q)
    by (rewrite (same_quantities_on_hand _ _ l f H); exact Hn).
  split.
  - unfold after_purchase64, after_purchase. cbn [p_location_id p_flavor_id
      p_containers p_cost_per_container].
    rewrite H1, H2, H3, H4, H5, H6. repeat (split; [reflexivity|]).
    intros k. cbn [inventory_state]. rewrite !lookup_insert.
    case_decide as Hk.
    + cbn [purchased64 purchased fst].
      rewrite (fadd_exact _ _ n (c * OZ_PER_CONTAINER) Hq).
      * rewrite Hn, inject_Z_plus. reflexivity.
      * rewrite of_int_exact by lia. reflexivity.
      * lia.
    + apply H7.
  - intros l' f'. unfold on_hand at 1.
    cbn [after_purchase inventory_state p_location_id p_flavor_id
                        p_containers p_cost_per_container].
    rewrite lookup_insert. case_decide as Hk.
    + injection Hk as <- <-. exists (n + c * OZ_PER_CONTAINER). split.
      * cbn [purchased fst]. rewrite Hn, inject_Z_plus. reflexivity.
      * lia.
    + destruct (HV l' f') as (m & Hm & Hmle). exists m. split; [exact Hm|lia].
Qed.

Lemma record_sale_refines now l f size ct q date d64 d V :
  same_quantities d64 d -> whole_within V d ->
  V + op_volume (RecordSale now l f size ct q date) <= 2 ^ 53 ->
  same_quantities (snd (B64.record_sale now l f size ct q date d64))
                  (snd (record_sale now l f size ct q date d))
  /\ whole_within (V + op_volume (RecordSale now l f size ct q date))
                  (snd (record_sale now l f size ct q date d)).
Proof.
  intros H HV Hb. pose proof H as (H1 & H2 & H3 & H4 & H5 & H6 & H7).
  rewrite B64_record_sale_cases, record_sale_cases.
  cbn [op_volume] in *.
  assert (Hweak : forall W, V <= W -> whole_within W d).
  { intros W HW l' f'. destruct (HV l' f') as (n & Hn & Hle).
    exists n. split; [exact Hn|lia]. }
  destruct (dict_get SCOOPS_OZ size) as [oz|];
    [|split; [exact H|apply Hweak; lia]].
  rewrite (Qlt_bool_comp _ _ _ (same_quantities_on_hand _ _ l f H)).
  destruct (Qlt_bool _ _); [split; [exact H|apply Hweak; lia]|].
  cbn [snd]. destruct (HV l f) as (n & Hn & Hle).
  assert (Hq : (on_hand d64 l f == inject_Z n)%Q)
    by (rewrite (same_quantities_on_hand _ _ l f H); exact Hn).
  split.
  - unfold after_sale64, after_sale. cbn [s_location_id s_flavor_id].
    rewrite H1, H2, H3, H4, H5, H6. repeat (split; [reflexivity|]).
    intros k. cbn [inventory_state]. rewrite !lookup_alter.
    specialize (H7 k). case_decide as Hk.
    + subst k.
      destruct (inventory_state d64 !! (l, f)), (inventory_state d !! (l, f));
        try contradiction; cbn [fmap option_fmap option_map fst]; [|exact I].
      rewrite (fsub_exact _ _ n (oz * q) Hq).
      * rewrite Hn. unfold Z.sub, Qminus.
        rewrite inject_Z_plus, inject_Z_opp. reflexivity.
      * rewrite of_int_exact by lia. reflexivity.
      * lia.
    + exact H7.
  - intros l' f'.
    destruct (decide ((l, f) = (l', f'))) as [Hk|Hk].
    + injection Hk as <- <-.
      pose proof (after_sale_on_hand d
                    (mk_sale l f (match date with None => now | Some s => s end)
                             size ct q) (oz * q)) as Hoh.
      cbn [s_location_id s_flavor_id] in Hoh. rewrite Hoh.
      destruct (inventory_state d !! (l, f)).
      * exists (n - oz * q). split; [|lia].
        rewrite Hn. unfold Z.sub, Qminus.
        rewrite inject_Z_plus, inject_Z_opp. reflexivity.
      * exists 0. split; [reflexivity|lia].
    + unfold on_hand at 1. cbn [after_sale inventory_state s_location_id
                                 s_flavor_id].
      rewrite lookup_alter_ne by exact Hk.
      destruct (HV l' f') as (m & Hm & Hmle). exists m. split; [exact Hm|lia].
Qed.

Lemma exec_refines o d64 d V :
  same_quantities d64 d -> whole_within V d -> V + op_volume o <= 2 ^ 53 ->
  same_quantities (B64.exec o d64) (exec o d)
  /\ whole_within (V + op_volume o) (exec o d).
Proof.
  destruct o; cbn [B64.exec exec]; intros H HV Hb.
  - split; [now apply add_location_refines|].
    cbn [op_volume]. rewrite Z.add_0_r. now apply add_location_whole.
  - now apply record_purchase_refines.
  - now apply record_sale_refines.
Qed.

Lemma op_volume_nonneg o : 0 <= op_volume o.
Proof.
  destruct o; cbn [op_volume]; try lia.
  destruct (dict_get SCOOPS_OZ size); lia.
Qed.

Lemma volume_nonneg ops : 0 <= volume ops.
Proof.
  unfold volume, zsum. induction ops as [|o ops IH]; cbn [map fold_right]; [lia|].
  pose proof (op_volume_nonneg o). lia.
Qed.

Lemma exec_all_refines ops d64 d V :
  same_quantities d64 d -> whole_within V d -> V + volume ops <= 2 ^ 53 ->
  same_quantities (B64.exec_all ops d64) (exec_all ops d).
Proof.
  unfold B64.exec_all, exec_all. revert d64 d V.
  induction ops as [|o ops IH]; intros d64 d V H HV Hb; [exact H|].
  cbn [fold_left]. unfold volume in Hb. cbn [map zsum fold_right] in Hb.
  fold (zsum (map op_volume ops)) in Hb. fold (volume ops) in Hb.
  pose proof (volume_nonneg ops) as H0.
  destruct (exec_refines o d64 d V H HV) as [H' HV']; [lia|].
  apply (IH _ _ (V + op_volume o) H' HV'). lia.
Qed.

Lemma same_quantities_refl d : same_quantities d d.
Proof.
  repeat (split; [reflexivity|]). intros k.
  destruct (inventory_state d !! k); [reflexivity|exact I].
Qed.

Lemma fresh_db_whole : whole_within 0 fresh_db.
Proof. intros l f. exists 0. split; [reflexivity|lia]. Qed.

Lemma same_quantities_matches d64 d :
  same_quantities d64 d -> ledger_matches_log d -> ledger_matches_log d64.
Proof.
  intros H Hd l f. rewrite (same_quantities_on_hand _ _ l f H).
  destruct H as (_ & _ & _ & _ & Hp & Hs & _).
  unfold purchased_oz, sold_oz. rewrite Hp, Hs. apply Hd.
Qed.

(** X21. As long as the calls made on a new database, with integers that
    SQLite can hold, ask to move at most 2^53 ounces in all, rounding never
    reaches the quantities: the binary64 run and the run in exact
    arithmetic hold the same locations, catalog, purchases and sales, so
    they accept and refuse the same calls, and the same ledger entries with
    equal quantities on hand; only the average costs may differ. *)
Theorem binary64_quantities_are_exact :
  forall ops,
    Forall op_int64 ops ->
    volume ops <= 2 ^ 53 ->
    same_quantities (B64.exec_all ops fresh_db) (exec_all ops fresh_db).
Proof.
  intros ops _ Hb.
  apply (exec_all_refines ops fresh_db fresh_db 0);
    [apply same_quantities_refl|exact fresh_db_whole|lia].
Qed.

Lemma report_ops_int64 : Forall op_int64 report_ops.
Proof. repeat constructor; unfold int64; lia. Qed.

Lemma binary64_quantities_are_exact_witness :
  Forall op_int64 report_ops
  /\ volume report_ops <= 2 ^ 53
  /\ sales (B64.exec_all report_ops fresh_db) = sales report_db
  /\ (on_hand (B64.exec_all report_ops fresh_db) 1 1 == 548 # 1)%Q.
Proof.
  assert (Hb : volume report_ops <= 2 ^ 53) by (vm_compute; discriminate).
  split; [exact report_ops_int64|]. split; [exact Hb|].
  pose proof (binary64_quantities_are_exact report_ops report_ops_int64 Hb) as H.
  split.
  - exact (proj1 (proj2 (proj2 (proj2 (proj2 (proj2 H)))))).
  - rewrite (same_quantities_on_hand _ _ 1 1 H). vm_compute. reflexivity.
Defined.

(** X7. Along every sequence of calls on a new database, with integers
    that SQLite can hold, whose sales have a positive quantity, whatever
    the purchases are, and which asks to move at most 2^53 ounces in all,
    the quantity on hand that the binary64 ledger holds for each key is
    what the two logs add up to: 640 ounces per container over the
    purchases logged for the key, less the serving volume times the
    quantity over the sales logged for it. *)
Theorem ledger_matches_its_logs :
  forall ops,
    Forall op_int64 ops ->
    Forall sale_positive ops ->
    volume ops <= 2 ^ 53 ->
    ledger_matches_log (B64.exec_all ops fresh_db).
Proof.
  intros ops _ Hops Hb.
  apply (same_quantities_matches _ (exec_all ops fresh_db)).
  - apply (exec_all_refines ops fresh_db fresh_db 0);
      [apply same_quantities_refl|exact fresh_db_whole|lia].
  - apply exec_all_matches; [exact Hops|]. intros l f. reflexivity.
Qed.

Lemma ledger_matches_its_logs_witness :
  Forall op_int64 report_ops
  /\ Forall sale_positive report_ops
  /\ volume report_ops <= 2 ^ 53
  /\ (on_hand (B64.exec_all report_ops fresh_db) 1 1
      == inject_Z (purchased_oz (B64.exec_all report_ops fresh_db) 1 1
                   - sold_oz (B64.exec_all report_ops fresh_db) 1 1))%Q
  /\ purchased_oz (B64.exec_all report_ops fresh_db) 1 1 = 640
  /\ sold_oz (B64.exec_all report_ops fresh_db) 1 1 = 92.
Proof.
  assert (H : Forall sale_positive report_ops).
  { repeat constructor. }
  assert (Hb : volume report_ops <= 2 ^ 53) by (vm_compute; discriminate).
  split; [exact report_ops_int64|]. split; [exact H|]. split; [exact Hb|].
  split; [exact (ledger_matches_its_logs report_ops report_ops_int64 H Hb 1 1)|].
  split; vm_compute; reflexivity.
Defined.

(** Beyond the bound the ledger and the logs part: on a stock of
    640 * 2^46 ounces a sale of four ounces is logged and the quantity does
    not move. *)
Lemma absorbed_sale_example :
  let r := B64.record_sale "2024-05-02" 1 1 "Kiddie" 1 1 None heavy_db in
  2 ^ 53 < volume [AddLocation "Main";
                   RecordPurchase "2024-05-01" 1 1 (2 ^ 46) None;
                   RecordSale "2024-05-02" 1 1 "Kiddie" 1 1 None]
  /\ fst r = inr tt
  /\ length (sales (snd r)) = 1%nat
  /\ on_hand (snd r) 1 1 = on_hand heavy_db 1 1.
Proof.
  cbv zeta. split; [vm_compute; reflexivity|].
  split; [vm_compute; reflexivity|]. split; vm_compute; reflexivity.
Qed.

(** ** The figures of the income statement *)

Lemma flavor_cogs_items loc_id items c d :
  fold_M items (flavor_cogs loc_id) c d
  = (inr (fold_left
            (fun acc item => (acc + avg_cost d loc_id (fst item) * snd item)%Q)
            items c),
     d).
Proof.
  revert c. induction items as [|[k v] items IH]; intros c; [reflexivity|].
  cbn [fold_M fold_left]. unfold bind, flavor_cogs at 1, bind,
    select_inventory, gets, ret. cbn [fst snd]. rewrite IH. reflexivity.
Qed.

Lemma income_statement_statements year month d r d' :
  generate_income_statement year month d = (inr r, d') ->
  d' = d
  /\ snd r = fold_left company_add (map snd (fst r)) company_zero
  /\ Forall2
       (fun (loc : Z * string) (ns : string * statement) =>
          fst ns = snd loc
          /\ location_statement (conts_of d) (fst (_month_bounds year month))
               (snd (_month_bounds year month)) (fst loc) d
             = (inr (snd ns), d))
       (locations_by_name d) (fst r).
Proof.
  unfold generate_income_statement, bind, list_containers, list_locations, gets.
  intros H. apply location_loop in H as [-> (sts & H1 & H2 & H3)].
  cbn in H1, H2. subst sts. auto.
Qed.

Lemma accumulate_snoc {A : Type} (term : A -> Q) (rows : list A) (x : A) :
  accumulate term (rows ++ [x]) = (accumulate term rows + term x)%Q.
Proof. unfold accumulate. now rewrite fold_left_app. Qed.

Lemma flavors_sold_snoc rows s :
  flavors_sold (rows ++ [s])
  = if existsb (Z.eqb (s_flavor_id s)) (flavors_sold rows) then flavors_sold rows
    else (flavors_sold rows ++ [s_flavor_id s])%list.
Proof. unfold flavors_sold. now rewrite fold_left_app. Qed.

Lemma existsb_eqb_In (k : Z) (ks : list Z) :
  existsb (Z.eqb k) ks = true <-> In k ks.
Proof.
  rewrite existsb_exists. split.
  - intros (x & Hx & E). apply Z.eqb_eq in E. now subst.
  - intros H. exists k. split; [exact H|apply Z.eqb_refl].
Qed.

Lemma flavors_sold_spec rows :
  NoDup (flavors_sold rows)
  /\ forall s, In s rows -> In (s_flavor_id s) (flavors_sold rows).
Proof.
  induction rows as [|s rows IH] using rev_ind.
  - split; [constructor|intros s []].
  - destruct IH as [Hnd Hin]. rewrite flavors_sold_snoc.
    destruct (existsb _ _) eqn:E.
    + split; [exact Hnd|]. intros s' Hs'. apply in_app_or in Hs' as [H|[<-|[]]].
      * now apply Hin.
      * now apply existsb_eqb_In.
    + assert (Hk : ~ In (s_flavor_id s) (flavors_sold rows)).
      { intros H. apply existsb_eqb_In in H. congruence. }
      split.
      * apply NoDup_app. split; [exact Hnd|]. split.
        -- intros x Hx Hx'. apply list_elem_of_In in Hx'.
           destruct Hx' as [E'|[]]. subst x. apply Hk.
           now apply list_elem_of_In.
        -- repeat constructor. intros []%list_elem_of_In.
      * intros s' Hs'. apply in_or_app.
        apply in_app_or in Hs' as [H|[<-|[]]]; [left; now apply Hin|].
        right. now left.
Qed.

Lemma flavor_oz_snoc rows s f :
  flavor_oz (rows ++ [s]) f
  = if (s_flavor_id s =? f)%Z then (flavor_oz rows f + inject_Z (sale_oz s))%Q
    else flavor_oz rows f.
Proof.
  unfold flavor_oz. rewrite List.filter_app. cbn [List.filter].
  destruct (s_flavor_id s =? f)%Z;
    [apply (accumulate_snoc (fun s => inject_Z (sale_oz s)))|].
  now rewrite app_nil_r.
Qed.

Lemma flavors_sold_mono rows s f :
  In f (flavors_sold rows) -> In f (flavors_sold (rows ++ [s])).
Proof.
  intros H. rewrite flavors_sold_snoc. destruct (existsb _ _); [exact H|].
  apply in_or_app. now left.
Qed.

Lemma filter_unsold rows f :
  ~ In f (flavors_sold rows) ->
  List.filter (fun s => (s_flavor_id s =? f)%Z) rows = [].
Proof.
  induction rows as [|s rows IH] using rev_ind; intros H; [reflexivity|].
  rewrite List.filter_app, IH.
  - cbn [List.filter app]. destruct (Z.eqb_spec (s_flavor_id s) f) as [E|E];
      [|reflexivity].
    exfalso. apply H. rewrite <- E.
    apply (proj2 (flavors_sold_spec (rows ++ [s]))).
    apply in_or_app. right. now left.
  - intros Hin. apply H. now apply flavors_sold_mono.
Qed.

Lemma flavor_oz_unsold rows f :
  ~ In f (flavors_sold rows) -> flavor_oz rows f = 0%Q.
Proof. intros H. unfold flavor_oz. now rewrite filter_unsold. Qed.

(** The dict of ounces by flavor after some rows. *)
Lemma zdict_get_keys (g : Z -> Q) (ks : list Z) (k : Z) :
  zdict_get (map (fun f => (f, g f)) ks) k
  = if existsb (Z.eqb k) ks then Some (g k) else None.
Proof.
  induction ks as [|k' ks IH]; [reflexivity|].
  cbn [map zdict_get existsb]. rewrite (Z.eqb_sym k k').
  destruct (Z.eqb_spec k' k) as [->|E]; [reflexivity|exact IH].
Qed.

Lemma zdict_set_new (g g' : Z -> Q) (ks : list Z) (k : Z) (v : Q) :
  ~ In k ks -> (forall f, In f ks -> g' f = g f) -> g' k = v ->
  zdict_set (map (fun f => (f, g f)) ks) k v
  = map (fun f => (f, g' f)) (ks ++ [k]).
Proof.
  intros Hk Hg Hv. induction ks as [|k' ks IH].
  - cbn. now rewrite Hv.
  - cbn [map zdict_set app]. destruct (Z.eqb_spec k' k) as [E|E].
    + exfalso. apply Hk. now left.
    + rewrite (Hg k') by now left. f_equal. apply IH.
      * intros H. apply Hk. now right.
      * intros f Hf. apply Hg. now right.
Qed.

Lemma zdict_set_old (g g' : Z -> Q) (ks : list Z) (k : Z) (v : Q) :
  NoDup ks -> In k ks -> (forall f, f <> k -> g' f = g f) -> g' k = v ->
  zdict_set (map (fun f => (f, g f)) ks) k v = map (fun f => (f, g' f)) ks.
Proof.
  intros Hnd Hk Hg Hv. induction ks as [|k' ks IH]; [destruct Hk|].
  apply NoDup_cons in Hnd as [Hk' Hnd].
  cbn [map zdict_set]. destruct (Z.eqb_spec k' k) as [E|E].
  - subst k'. rewrite Hv. f_equal.
    apply map_ext_in. intros f Hf. rewrite Hg; [reflexivity|].
    intros ->. apply Hk'. now apply list_elem_of_In.
  - rewrite (Hg k' E). f_equal. apply IH; [exact Hnd|].
    destruct Hk as [Hk|Hk]; [congruence|exact Hk].
Qed.

Lemma sale_line_after conts pre acc row d acc' d' :
  acc_after conts pre acc ->
  sale_line conts acc row d = (inr acc', d') ->
  acc_after conts (pre ++ [row]) acc'.
Proof.
  intros (H1 & H2 & H3). unfold sale_line.
  destruct (dict_get SCOOPS_OZ (s_size row)) as [oz|] eqn:Hoz; [|discriminate].
  destruct (zdict_get conts (s_container_type_id row)) as [[[n p] u]|] eqn:Hc;
    [|discriminate].
  destruct (u =? 0)%Z; [discriminate|].
  unfold ret. intros [= <- _]. unfold acc_after.
  cbn [acc_revenue acc_container_cost acc_oz_sold_by_flavor].
  rewrite !accumulate_snoc, H1, H2, H3.
  split; [reflexivity|]. split; [unfold unit_cost; now rewrite Hc|].
  assert (Hso : sale_oz row = oz * s_quantity row)
    by (unfold sale_oz; now rewrite Hoz).
  rewrite zdict_get_keys, flavors_sold_snoc.
  destruct (existsb _ _) eqn:E.
  - apply zdict_set_old.
    + apply flavors_sold_spec.
    + now apply existsb_eqb_In.
    + intros f Hf. rewrite flavor_oz_snoc.
      destruct (Z.eqb_spec (s_flavor_id row) f); [congruence|reflexivity].
    + rewrite flavor_oz_snoc, Z.eqb_refl, Hso. reflexivity.
  - assert (Hk : ~ In (s_flavor_id row) (flavors_sold pre)).
    { intros H. apply existsb_eqb_In in H. congruence. }
    apply zdict_set_new.
    + exact Hk.
    + intros f Hf. rewrite flavor_oz_snoc.
      destruct (Z.eqb_spec (s_flavor_id row) f); [congruence|reflexivity].
    + rewrite flavor_oz_snoc, Z.eqb_refl, Hso, (flavor_oz_unsold _ _ Hk).
      reflexivity.
Qed.

Lemma sale_lines_after conts rows pre acc d acc' d' :
  acc_after conts pre acc ->
  fold_M rows (sale_line conts) acc d = (inr acc', d') ->
  acc_after conts (pre ++ rows) acc'.
Proof.
  revert pre acc d. induction rows as [|row rows IH]; intros pre acc d Hacc H.
  - cbn in H. injection H as <- _. now rewrite app_nil_r.
  - cbn [fold_M] in H. unfold bind in H.
    destruct (sale_line conts acc row d) as [[e|acc1] d1] eqn:E; [discriminate|].
    replace (pre ++ row :: rows)%list with ((pre ++ [row]) ++ rows)%list
      by (now rewrite <- app_assoc).
    eapply IH; [|exact H]. eapply sale_line_after; eassumption.
Qed.

Lemma flavor_cogs_fold loc_id (g : Z -> Q) ks c d :
  fold_M (map (fun f => (f, g f)) ks) (flavor_cogs loc_id) c d
  = (inr (fold_left (fun acc f => (acc + avg_cost d loc_id f * g f)%Q) ks c), d).
Proof.
  rewrite flavor_cogs_items. f_equal. f_equal. revert c.
  induction ks as [|k ks IH]; intros c; [reflexivity|].
  cbn [map fold_left fst snd]. apply IH.
Qed.

(** The statement of one location, figure by figure, in the order in which
    the code adds things up. *)
Lemma location_statement_shape conts start end_ loc_id d st d' :
  location_statement conts start end_ loc_id d = (inr st, d') ->
  let rows :=
    List.filter
      (fun s => (s_location_id s =? loc_id)%Z
                && in_range start end_ (s_sale_date s))
      (sales d) in
  revenue st = accumulate (fun s => sale_price s * inject_Z (s_quantity s))%Q rows
  /\ cogs_containers st
     = accumulate (fun s => unit_cost conts s * inject_Z (s_quantity s))%Q rows
  /\ cogs_icecream st
     = accumulate (fun f => avg_cost d loc_id f * flavor_oz rows f)%Q
                  (flavors_sold rows)
  /\ statement_balanced st.
Proof.
  intros H rows. subst rows. revert H.
  unfold location_statement, bind at 1, select_sales_of_location, gets.
  unfold bind at 1.
  pose proof (fold_M_readonly
                (List.filter
                   (fun s => (s_location_id s =? loc_id)%Z
                             && in_range start end_ (s_sale_date s)) (sales d))
                (sale_line conts) (sale_line_readonly conts)
                (mk_acc 0 [] 0 0) d) as Hro.
  destruct (fold_M _ (sale_line conts) _ d) as [[e|acc] d1] eqn:E;
    [discriminate|].
  cbn in Hro. subst d1.
  apply (sale_lines_after conts _ [] (mk_acc 0 [] 0 0)) in E;
    [|repeat split].
  cbn [app] in E. destruct E as (E1 & E2 & E3).
  unfold bind. rewrite E3, flavor_cogs_fold.
  unfold ret. intros [= <- _].
  cbn [revenue cogs_icecream cogs_containers cogs_napkins gross_profit
       operating_expenses operating_income net_income].
  split; [exact E1|]. split; [exact E2|]. split; [reflexivity|].
  repeat split.
Qed.

(** X8. In the income statement of a month, for each location, with the
    location's sale rows in the window taken in the order of the table: the
    revenue is the running sum of price of the size times quantity; the
    container cost is the running sum of pack price over units per pack,
    times quantity; the ice-cream cost is the running sum, over the flavors
    sold in the order of their first row, of the average cost the ledger
    holds for the location and the flavor at the time of the report times
    the ounces of the flavor, themselves added up row by row.  Each figure
    is built by the very operations of the right-hand side, in that order,
    nothing being regrouped. *)
Theorem income_statement_figures :
  forall year month d sts company d',
    generate_income_statement year month d = (inr (sts, company), d') ->
    Forall2
      (fun (loc : Z * string) (ns : string * statement) =>
         let rows := period_sales d year month (fst loc) in
         fst ns = snd loc
         /\ revenue (snd ns)
            = accumulate (fun s => sale_price s * inject_Z (s_quantity s))%Q rows
         /\ cogs_containers (snd ns)
            = accumulate (fun s => unit_cost (conts_of d) s
                                   * inject_Z (s_quantity s))%Q rows
         /\ cogs_icecream (snd ns)
            = accumulate (fun f => avg_cost d (fst loc) f * flavor_oz rows f)%Q
                         (flavors_sold rows))
      (locations_by_name d) sts.
Proof.
  intros year month d sts company d' H.
  apply income_statement_statements in H as (_ & _ & Hall).
  cbn [fst snd] in Hall. eapply Forall2_impl; [exact Hall|].
  intros loc ns [Hn Hst]. cbv zeta. split; [exact Hn|].
  apply location_statement_shape in Hst as (H1 & H2 & H3 & _).
  auto.
Qed.

Lemma income_statement_figures_witness :
  generate_income_statement 2024 5 report_db
  = (inr (fst may_report, snd may_report), report_db)
  /\ Forall2
       (fun (loc : Z * string) (ns : string * statement) =>
          let rows := period_sales report_db 2024 5 (fst loc) in
          fst ns = snd loc
          /\ revenue (snd ns)
             = accumulate (fun s => sale_price s * inject_Z (s_quantity s))%Q rows
          /\ cogs_containers (snd ns)
             = accumulate (fun s => unit_cost (conts_of report_db) s
                                    * inject_Z (s_quantity s))%Q rows
          /\ cogs_icecream (snd ns)
             = accumulate (fun f => avg_cost report_db (fst loc) f
                                    * flavor_oz rows f)%Q
                          (flavors_sold rows))
       [(2, "Annex"); (1, "Main")] (fst may_report).
Proof.
  split; [exact may_report_eq|].
  exact (income_statement_figures 2024 5 report_db _ _ _ may_report_eq).
Defined.

(** X9. Every income statement produced has one statement per location,
    and in each of them gross profit is revenue less the sum of the three
    costs of goods sold (ice cream plus containers, plus napkins),
    operating expenses are 18250, operating income is gross profit less
    operating expenses, and net income is operating income: the figures
    are those very differences, not merely equal to them. *)
Theorem income_statement_balanced :
  forall year month d sts company d',
    generate_income_statement year month d = (inr (sts, company), d') ->
    length sts = length (locations d)
    /\ Forall (fun ns => statement_balanced (snd ns)) sts.
Proof.
  intros year month d sts company d' H.
  apply income_statement_statements in H as (_ & _ & Hall).
  cbn [fst snd] in Hall. split.
  - apply Forall2_length in Hall. rewrite <- Hall.
    unfold locations_by_name, order_by.
    induction (locations d) as [|x l IH]; [reflexivity|].
    cbn [fold_right length]. rewrite <- IH.
    generalize (fold_right
                  (insert_sorted (fun a b : Z * string => String.leb (snd a) (snd b)))
                  [] l) as s.
    induction s as [|y s IHs]; [reflexivity|].
    cbn [insert_sorted]. destruct (String.leb (snd x) (snd y)); [reflexivity|].
    cbn [length]. now rewrite IHs.
  - induction Hall as [|loc ns locs sts' [_ Hst] _ IH]; constructor; [|exact IH].
    now apply location_statement_shape in Hst as (_ & _ & _ & Hb).
Qed.

Lemma income_statement_balanced_witness :
  generate_income_statement 2024 5 report_db
  = (inr (fst may_report, snd may_report), report_db)
  /\ length (fst may_report) = length (locations report_db)
  /\ Forall (fun ns : string * statement =>
               net_income (snd ns)
               = (revenue (snd ns)
                  - (cogs_icecream (snd ns) + cogs_containers (snd ns)
                     + cogs_napkins (snd ns))
                  - (18250 # 1))%Q)
            (fst may_report).
Proof.
  split; [exact may_report_eq|].
  destruct (income_statement_balanced 2024 5 report_db _ _ _ may_report_eq)
    as (Hlen & Hb).
  split; [exact Hlen|].
  eapply Forall_impl; [exact Hb|].
  intros ns (H1 & H2 & H3 & H4). cbn beta. now rewrite H4, H3, H2, H1.
Defined.

(** ** When the income statement is produced *)

Lemma location_steps_total conts start end_ locs out d :
  Forall (fun loc : Z * string =>
            exists st, location_statement conts start end_ (fst loc) d = (inr st, d))
         locs ->
  exists r, fold_M locs (location_step conts start end_) out d = (inr r, d).
Proof.
  intros H. revert out.
  induction H as [|loc locs [st Hst] _ IH]; intros out.
  - exists out. reflexivity.
  - cbn [fold_M]. unfold bind at 1, location_step at 1, bind at 1.
    rewrite Hst. unfold ret at 1. apply IH.
Qed.

Lemma income_statement_total year month d :
  Forall (fun loc : Z * string =>
            exists st,
              location_statement (conts_of d) (fst (_month_bounds year month))
                (snd (_month_bounds year month)) (fst loc) d = (inr st, d))
         (locations_by_name d) ->
  exists r, generate_income_statement year month d = (inr r, d).
Proof.
  intros H.
  unfold generate_income_statement, bind, list_containers, list_locations, gets.
  now apply location_steps_total.
Qed.

Lemma sale_lines_total conts rows acc d :
  Forall (fun s =>
            known_size s
            /\ exists n p u,
                zdict_get conts (s_container_type_id s) = Some (n, p, u) /\ u <> 0)
         rows ->
  exists acc', fold_M rows (sale_line conts) acc d = (inr acc', d).
Proof.
  intros H. revert acc d.
  apply (fold_M_total_on
           (fun s => known_size s
                     /\ exists n p u,
                         zdict_get conts (s_container_type_id s) = Some (n, p, u)
                         /\ u <> 0)
           rows (sale_line conts)); [|exact H].
  intros acc s d [Hs (n & p & u & Hc & Hu)]. unfold sale_line.
  apply SCOOPS_OZ_known in Hs as [oz ->]. rewrite Hc.
  apply Z.eqb_neq in Hu. rewrite Hu. eexists. reflexivity.
Qed.

Lemma location_statement_total conts start end_ loc_id d :
  Forall (fun s =>
            known_size s
            /\ exists n p u,
                zdict_get conts (s_container_type_id s) = Some (n, p, u) /\ u <> 0)
         (List.filter
            (fun s => (s_location_id s =? loc_id)%Z
                      && in_range start end_ (s_sale_date s))
            (sales d)) ->
  exists st, location_statement conts start end_ loc_id d = (inr st, d).
Proof.
  intros H.
  unfold location_statement, bind at 1, select_sales_of_location, gets.
  unfold bind at 1.
  destruct (sale_lines_total conts _ (mk_acc 0 [] 0 0) d H) as [acc ->].
  unfold bind.
  rewrite flavor_cogs_items.
  eexists. reflexivity.
Qed.

(** X10. A month in whose window no recorded sale falls still gets its
    income statement, whatever the container catalog holds: one statement
    per location, with no revenue and no cost of goods sold, and a net
    income of minus the fixed expenses. *)
Theorem income_statement_without_sales :
  forall year month d,
    (forall s, In s (sales d) -> in_month year month (s_sale_date s) = false) ->
    exists sts company,
      generate_income_statement year month d = (inr (sts, company), d)
      /\ map fst sts = map snd (locations_by_name d)
      /\ Forall (fun ns : string * statement =>
                   (revenue (snd ns) == 0)%Q
                   /\ (cogs_icecream (snd ns) == 0)%Q
                   /\ (cogs_containers (snd ns) == 0)%Q
                   /\ (cogs_napkins (snd ns) == 0)%Q
                   /\ (net_income (snd ns) == - (18250 # 1))%Q)
                sts.
Proof.
  intros year month d Hnone.
  assert (Hrows : forall loc_id,
             List.filter
               (fun s => (s_location_id s =? loc_id)%Z
                         && in_range (fst (_month_bounds year month))
                                     (snd (_month_bounds year month))
                                     (s_sale_date s))
               (sales d) = []).
  { intros loc_id. induction (sales d) as [|s l IH]; [reflexivity|].
    cbn [List.filter].
    assert (Hs : in_range (fst (_month_bounds year month))
                          (snd (_month_bounds year month)) (s_sale_date s) = false).
    { apply (Hnone s). left. reflexivity. }
    rewrite Hs, andb_false_r. apply IH. intros s' Hs'. apply Hnone.
    right. exact Hs'. }
  destruct (income_statement_total year month d) as [[sts company] Hgen].
  { apply List.Forall_forall. intros loc _.
    apply location_statement_total. rewrite Hrows. constructor. }
  exists sts, company. split; [exact Hgen|].
  pose proof Hgen as Hs.
  apply income_statement_statements in Hs as (_ & _ & Hall). cbn [fst] in Hall.
  split; [exact (Forall2_names _ _ _ _ _ _ Hall)|].
  clear Hgen. induction Hall as [|loc ns locs sts' [_ Hst] _ IH];
    constructor; [|exact IH].
  pose proof (location_statement_napkins _ _ _ _ _ _ _ Hst) as Hnap.
  apply location_statement_shape in Hst as (H1 & H2 & H3 & B1 & B2 & B3 & B4).
  rewrite Hrows in *.
  assert (Hr : (revenue (snd ns) == 0)%Q) by (rewrite H1; reflexivity).
  assert (Hi : (cogs_icecream (snd ns) == 0)%Q) by (rewrite H3; reflexivity).
  assert (Hc : (cogs_containers (snd ns) == 0)%Q) by (rewrite H2; reflexivity).
  assert (Hn0 : (cogs_napkins (snd ns) == 0)%Q) by (rewrite Hnap; reflexivity).
  split; [exact Hr|]. split; [exact Hi|]. split; [exact Hc|].
  split; [exact Hn0|].
  rewrite B4, B3, B2, B1, Hr, Hi, Hc, Hn0. reflexivity.
Qed.

Lemma income_statement_without_sales_witness :
  (forall s, In s (sales report_db) ->
             in_month 2024 6 (s_sale_date s) = false)
  /\ exists sts company,
      generate_income_statement 2024 6 report_db = (inr (sts, company), report_db)
      /\ map fst sts = ["Annex"; "Main"].
Proof.
  assert (H : forall s, In s (sales report_db) ->
                        in_month 2024 6 (s_sale_date s) = false).
  { assert (Hb : forallb (fun s => negb (in_month 2024 6 (s_sale_date s)))
                         (sales report_db) = true) by (vm_compute; reflexivity).
    intros s Hs. apply negb_true_iff.
    exact (proj1 (forallb_forall _ _) Hb s Hs). }
  split; [exact H|].
  destruct (income_statement_without_sales 2024 6 report_db H)
    as (sts & company & Hgen & Hnames & _).
  exists sts, company. split; [exact Hgen|exact Hnames].
Defined.

(** ** Dicts built from rows *)

Lemma zdict_get_set {V : Type} (dct : list (Z * V)) (k k' : Z) (v : V) :
  zdict_get (zdict_set dct k v) k'
  = if (k =? k')%Z then Some v else zdict_get dct k'.
Proof.
  induction dct as [|[k0 v0] dct IH]; cbn [zdict_set zdict_get].
  - reflexivity.
  - destruct (Z.eqb_spec k0 k) as [->|Hne]; cbn [zdict_get].
    + destruct (Z.eqb_spec k k'); reflexivity.
    + rewrite IH. destruct (Z.eqb_spec k0 k') as [->|Hne'].
      * destruct (Z.eqb_spec k k'); [congruence|reflexivity].
      * reflexivity.
Qed.

Lemma zdict_fold_get {R V : Type} (key : R -> Z) (val : R -> V) (rows : list R)
    (acc : list (Z * V)) (k : Z) :
  is_Some (zdict_get acc k) \/ In k (map key rows) ->
  is_Some (zdict_get (fold_left (fun d row => zdict_set d (key row) (val row))
                                rows acc) k).
Proof.
  revert acc. induction rows as [|row rows IH]; intros acc H.
  - cbn in *. destruct H as [H|[]]. exact H.
  - cbn [fold_left]. apply IH. cbn [map In] in H.
    rewrite zdict_get_set.
    destruct (Z.eqb_spec (key row) k) as [He|Hne]; [left; eauto|].
    destruct H as [H|[H|H]]; [left; exact H|contradiction|right; exact H].
Qed.

Lemma zdict_fold_values {R V : Type} (P : V -> Prop) (key : R -> Z) (val : R -> V)
    (rows : list R) (acc : list (Z * V)) :
  (forall k v, zdict_get acc k = Some v -> P v) ->
  Forall (fun row => P (val row)) rows ->
  forall k v,
    zdict_get (fold_left (fun d row => zdict_set d (key row) (val row)) rows acc) k
    = Some v ->
    P v.
Proof.
  intros Hacc Hrows. revert acc Hacc.
  induction Hrows as [|row rows Hrow _ IH]; intros acc Hacc; [exact Hacc|].
  cbn [fold_left]. apply IH. intros k v. rewrite zdict_get_set.
  destruct (key row =? k)%Z; [intros [= <-]; exact Hrow|apply Hacc].
Qed.

Lemma insert_sorted_In {A : Type} le (x y : A) (l : list A) :
  In y (insert_sorted le x l) <-> y = x \/ In y l.
Proof.
  induction l as [|z l IH]; cbn [insert_sorted].
  - cbn. intuition.
  - destruct (le x z); cbn [In]; [intuition|]. rewrite IH. intuition.
Qed.

Lemma order_by_In {A : Type} le (y : A) (l : list A) :
  In y (order_by le l) <-> In y l.
Proof.
  unfold order_by. induction l as [|x l IH]; [reflexivity|].
  cbn [fold_right In]. rewrite insert_sorted_In, IH. intuition.
Qed.

Lemma conts_of_known d ct :
  Forall (fun r : Z * string * Q * Z => snd r <> 0) (containers d) ->
  In ct (map (fun r : Z * string * Q * Z => fst (fst (fst r))) (containers d)) ->
  exists n p u, zdict_get (conts_of d) ct = Some (n, p, u) /\ u <> 0.
Proof.
  intros Hunits Hct. unfold conts_of, zdict_of_rows.
  set (rows := order_by _ (containers d)).
  assert (Hin : In ct (map (fun r : Z * string * Q * Z => fst (fst (fst r))) rows)).
  { apply in_map_iff in Hct as [r [<- Hr]].
    apply (in_map (fun r : Z * string * Q * Z => fst (fst (fst r))) rows r).
    now apply order_by_In. }
  assert (Hall : Forall (fun r : Z * string * Q * Z => snd r <> 0) rows).
  { now apply order_by_Forall. }
  destruct (zdict_fold_get (fun r : Z * string * Q * Z => fst (fst (fst r)))
              (fun r => (snd (fst (fst r)), snd (fst r), snd r)) rows [] ct
              (or_intror Hin)) as [[[n p] u] Hget].
  exists n, p, u. split; [exact Hget|].
  apply (zdict_fold_values (fun v : string * Q * Z => snd v <> 0)
           (fun r : Z * string * Q * Z => fst (fst (fst r)))
           (fun r => (snd (fst (fst r)), snd (fst r), snd r)) rows []
           ltac:(discriminate) Hall ct (n, p, u) Hget).
Qed.

(** X11. When every recorded sale has one of the four sizes and names a
    container type of the catalog, and no container type has zero units
    per pack, the income statement of every month is produced, with one
    statement per location in the order of the names; the database is left
    as it was. *)
Theorem income_statement_produced :
  forall year month d,
    sizes_known d ->
    containers_known d ->
    exists sts company,
      generate_income_statement year month d = (inr (sts, company), d)
      /\ map fst sts = map snd (locations_by_name d).
Proof.
  intros year month d Hsizes [Hcts Hunits].
  destruct (income_statement_total year month d) as [[sts company] Hgen].
  { apply List.Forall_forall. intros loc _.
    apply location_statement_total. apply List.Forall_forall.
    intros s Hs. apply filter_In in Hs as [Hs _]. split.
    - exact (proj1 (List.Forall_forall _ _) Hsizes s Hs).
    - apply conts_of_known; [exact Hunits|].
      exact (proj1 (List.Forall_forall _ _) Hcts s Hs). }
  exists sts, company. split; [exact Hgen|].
  apply income_statement_statements in Hgen as (_ & _ & Hall).
  exact (Forall2_names _ _ _ _ _ _ Hall).
Qed.

Lemma sizes_known_by_check d :
  forallb (fun s => existsb (String.eqb (s_size s)) SIZES) (sales d) = true ->
  sizes_known d.
Proof.
  intros Hb. apply List.Forall_forall. intros s Hs.
  pose proof (proj1 (forallb_forall _ _) Hb s Hs) as H.
  apply existsb_exists in H as [x [Hx He]]. apply String.eqb_eq in He.
  unfold known_size. rewrite He. exact Hx.
Qed.

Lemma containers_known_by_check d :
  forallb (fun s => existsb (Z.eqb (s_container_type_id s))
                      (map (fun r : Z * string * Q * Z => fst (fst (fst r)))
                           (containers d)))
          (sales d) = true ->
  forallb (fun r : Z * string * Q * Z => negb (snd r =? 0)%Z) (containers d) = true ->
  containers_known d.
Proof.
  intros Hb1 Hb2. split.
  - apply List.Forall_forall. intros s Hs.
    pose proof (proj1 (forallb_forall _ _) Hb1 s Hs) as H.
    apply existsb_exists in H as [x [Hx He]]. apply Z.eqb_eq in He.
    rewrite He. exact Hx.
  - apply List.Forall_forall. intros r Hr.
    pose proof (proj1 (forallb_forall _ _) Hb2 r Hr) as H.
    apply negb_true_iff in H. now apply Z.eqb_neq.
Qed.

Lemma report_db_sizes : sizes_known report_db.
Proof. apply sizes_known_by_check. vm_compute. reflexivity. Qed.

Lemma report_db_containers : containers_known report_db.
Proof. apply containers_known_by_check; vm_compute; reflexivity. Qed.

Lemma income_statement_produced_witness :
  sizes_known report_db
  /\ containers_known report_db
  /\ exists sts company,
      generate_income_statement 2023 1 report_db = (inr (sts, company), report_db)
      /\ map fst sts = ["Annex"; "Main"].
Proof.
  split; [exact report_db_sizes|].
  split; [exact report_db_containers|].
  exact (income_statement_produced 2023 1 report_db report_db_sizes
                                   report_db_containers).
Defined.

(** ** The reports only read, further *)

Lemma location_step_readonly conts start end_ out loc d :
  snd (location_step conts start end_ out loc d) = d.
Proof.
  unfold location_step, bind.
  pose proof (location_statement_readonly conts start end_ (fst loc) d) as H.
  destruct (location_statement conts start end_ (fst loc) d) as [[e|st] d1];
    cbn in H; subst; reflexivity.
Qed.

Lemma report_line_readonly report row d : snd (report_line report row d) = d.
Proof.
  destruct row as [[[l f] size] q]. unfold report_line.
  destruct (dict_get SCOOPS_OZ size); reflexivity.
Qed.

(** X12. The three reports leave the database exactly as they found it,
    whether they return or raise. *)
Theorem reports_read_only :
  forall year month d,
    snd (generate_income_statement year month d) = d
    /\ snd (generate_flavor_sales_report year month d) = d
    /\ snd (generate_inventory_levels d) = d.
Proof.
  intros year month d. split; [|split].
  - unfold generate_income_statement, bind, list_containers, list_locations, gets.
    apply fold_M_readonly. intros out loc d0. apply location_step_readonly.
  - unfold generate_flavor_sales_report, bind at 1, gets.
    unfold bind at 1. unfold bind at 1, select_sales_grouped, gets. unfold bind.
    match goal with
    | |- context [fold_M ?rows report_line [] d] =>
        pose proof (fold_M_readonly rows report_line report_line_readonly [] d) as H;
        destruct (fold_M rows report_line [] d) as [[e|r] d1]
    end; cbn in H; subst; reflexivity.
  - reflexivity.
Qed.

(** ** The flavor sales report keeps the ounces *)

Lemma zsum_cons x l : zsum (x :: l) = x + zsum l.
Proof. reflexivity. Qed.

Lemma group_add_oz groups l f size q :
  zsum (map group_oz (group_add groups l f size q))
  = zsum (map group_oz groups) + group_oz (l, f, size, q).
Proof.
  induction groups as [|[[[l0 f0] s0] q0] groups IH]; cbn [group_add map].
  - rewrite !zsum_cons. cbn. lia.
  - destruct ((l0 =? l)%Z && (f0 =? f)%Z && String.eqb s0 size) eqn:E;
      cbn [map]; rewrite !zsum_cons.
    + apply andb_true_iff in E as [_ E]. apply String.eqb_eq in E. subst s0.
      unfold group_oz. cbn [fst snd].
      destruct (dict_get SCOOPS_OZ size); lia.
    + rewrite IH. lia.
Qed.

Lemma groups_oz rows groups :
  zsum (map group_oz
            (fold_left
               (fun g s => group_add g (s_location_id s) (s_flavor_id s)
                                     (s_size s) (s_quantity s))
               rows groups))
  = zsum (map group_oz groups) + zsum (map sale_oz rows).
Proof.
  revert groups. induction rows as [|s rows IH]; intros groups.
  - cbn [fold_left map]. change (zsum []) with 0. lia.
  - cbn [fold_left map]. rewrite IH, group_add_oz, zsum_cons.
    change (group_oz (s_location_id s, s_flavor_id s, s_size s, s_quantity s))
      with (sale_oz s).
    lia.
Qed.

Lemma insert_sorted_zsum {A : Type} (w : A -> Z) le (x : A) (l : list A) :
  zsum (map w (insert_sorted le x l)) = w x + zsum (map w l).
Proof.
  induction l as [|y l IH]; cbn [insert_sorted map]; [reflexivity|].
  destruct (le x y); cbn [map]; rewrite !zsum_cons; [reflexivity|].
  rewrite IH. lia.
Qed.

Lemma order_by_zsum {A : Type} (w : A -> Z) le (l : list A) :
  zsum (map w (order_by le l)) = zsum (map w l).
Proof.
  unfold order_by. induction l as [|x l IH]; [reflexivity|].
  cbn [fold_right map]. rewrite insert_sorted_zsum, IH. reflexivity.
Qed.

Lemma report_add_oz report l f oz :
  zsum (map snd (report_add report l f oz)) = zsum (map snd report) + oz.
Proof.
  induction report as [|[[l0 f0] v] report IH]; cbn [report_add map].
  - rewrite !zsum_cons. cbn. lia.
  - destruct ((l0 =? l)%Z && (f0 =? f)%Z); cbn [map snd]; rewrite !zsum_cons.
    + lia.
    + rewrite IH. lia.
Qed.

Lemma report_lines_oz rows report d report' d' :
  fold_M rows report_line report d = (inr report', d') ->
  zsum (map snd report') = zsum (map snd report) + zsum (map group_oz rows).
Proof.
  revert report d. induction rows as [|[[[l f] size] q] rows IH]; intros report d H.
  - cbn in H. injection H as <- _. cbn. lia.
  - cbn [fold_M] in H. unfold bind, report_line at 1 in H.
    cbn [map]. rewrite zsum_cons.
    change (group_oz (l, f, size, q))
      with (match dict_get SCOOPS_OZ size with Some oz => oz * q | None => 0 end).
    destruct (dict_get SCOOPS_OZ size) as [oz|]; [|discriminate].
    unfold ret at 1 in H. apply IH in H. rewrite H, report_add_oz. lia.
Qed.

(** X13. In every flavor sales report produced, the ounces of its lines add
    up to the serving volume times the quantity over all sale rows in the
    window of the month: grouping by location, flavor and size and merging
    by location and flavor lose nothing and count nothing twice. *)
Theorem flavor_sales_report_conserves :
  forall year month d out d',
    generate_flavor_sales_report year month d = (inr out, d') ->
    zsum (map fs_ounces_sold out) = zsum (map sale_oz (month_sales d year month)).
Proof.
  intros year month d out d'.
  unfold generate_flavor_sales_report, bind at 1, gets.
  unfold bind at 1. unfold bind at 1, select_sales_grouped, gets. unfold bind.
  match goal with
  | |- context [fold_M ?rows report_line [] d] =>
      destruct (fold_M rows report_line [] d) as [[e|report] d1] eqn:E
  end; [discriminate|].
  unfold ret. intros [= <- _].
  apply report_lines_oz in E. rewrite order_by_zsum, groups_oz in E.
  cbn [map zsum fold_right] in E. rewrite !Z.add_0_l in E.
  unfold month_sales. rewrite <- E. rewrite map_map.
  f_equal. apply map_ext. intros [[l f] oz]. reflexivity.
Qed.

Lemma flavor_sales_report_conserves_witness :
  exists out,
    generate_flavor_sales_report 2024 5 report_db = (inr out, report_db)
    /\ zsum (map fs_ounces_sold out) = 116.
Proof.
  destruct (flavor_sales_report_total 2024 5 report_db report_db_sizes)
    as [out Hout].
  exists out. split; [exact Hout|].
  rewrite (flavor_sales_report_conserves 2024 5 report_db out report_db Hout).
  vm_compute. reflexivity.
Defined.

(** ** The inventory levels report *)

Section InsertionSort.

Variable A : Type.

Variable le : A -> A -> bool.

Hypothesis le_total : forall a b, le a b = false -> le b a = true.

Hypothesis le_trans : forall a b c, le a b = true -> le b c = true -> le a c = true.

Lemma insert_sorted_ascends (x : A) (l : list A) :
  StronglySorted (fun a b => le a b = true) l ->
  StronglySorted (fun a b => le a b = true) (insert_sorted le x l).
Proof.
  induction 1 as [|y l Hl IH Hy]; cbn [insert_sorted].
  - constructor; constructor.
  - destruct (le x y) eqn:E.
    + constructor; [constructor; assumption|].
      constructor; [exact E|].
      eapply List.Forall_impl; [|exact Hy]. intros z Hz. exact (le_trans _ _ _ E Hz).
    + constructor; [exact IH|].
      apply insert_sorted_Forall; [apply le_total; exact E|exact Hy].
Qed.

Lemma order_by_ascends (l : list A) :
  StronglySorted (fun a b => le a b = true) (order_by le l).
Proof.
  unfold order_by. induction l as [|x l IH]; cbn [fold_right].
  - constructor.
  - now apply insert_sorted_ascends.
Qed.

End InsertionSort.

Lemma insert_sorted_Permutation {A : Type} le (x : A) (l : list A) :
  Permutation (insert_sorted le x l) (x :: l).
Proof.
  induction l as [|y l IH]; cbn [insert_sorted]; [reflexivity|].
  destruct (le x y); [reflexivity|].
  rewrite IH. apply perm_swap.
Qed.

Lemma order_by_Permutation {A : Type} le (l : list A) :
  Permutation (order_by le l) l.
Proof.
  unfold order_by. induction l as [|x l IH]; cbn [fold_right]; [reflexivity|].
  rewrite insert_sorted_Permutation. now constructor.
Qed.

Lemma key_leb_total a b : key_leb a b = false -> key_leb b a = true.
Proof.
  unfold key_leb. destruct a as [a1 a2], b as [b1 b2]. cbn [fst snd].
  destruct (Z.ltb_spec a1 b1), (Z.eqb_spec a1 b1), (Z.leb_spec a2 b2),
    (Z.ltb_spec b1 a1), (Z.eqb_spec b1 a1), (Z.leb_spec b2 a2);
    cbn; intros; try reflexivity; try discriminate; lia.
Qed.

Lemma key_leb_trans a b c :
  key_leb a b = true -> key_leb b c = true -> key_leb a c = true.
Proof.
  unfold key_leb. destruct a as [a1 a2], b as [b1 b2], c as [c1 c2].
  cbn [fst snd].
  destruct (Z.ltb_spec a1 b1), (Z.eqb_spec a1 b1), (Z.leb_spec a2 b2),
    (Z.ltb_spec b1 c1), (Z.eqb_spec b1 c1), (Z.leb_spec b2 c2),
    (Z.ltb_spec a1 c1), (Z.eqb_spec a1 c1), (Z.leb_spec a2 c2);
    cbn; intros; try reflexivity; try discriminate; lia.
Qed.

(** [round] acts on the binary64 quotient: 624 ounces are 0.975 containers
    on paper, but the binary64 quotient lies below 0.975 and the report
    shows 0.97; 16 ounces are 0.025 on paper and show as 0.03. *)
Lemma containers_approx_examples :
  py_round (fdiv (624 # 1) (of_int OZ_PER_CONTAINER)) 2 = round64 (97 # 100)
  /\ py_round (fdiv (16 # 1) (of_int OZ_PER_CONTAINER)) 2 = round64 (3 # 100)
  /\ py_round (round64 (inject_Z 624 / inject_Z OZ_PER_CONTAINER)) 2
     = round64 (97 # 100).
Proof. repeat split; vm_compute; reflexivity. Qed.

(** X14. The inventory levels report never fails and has one line per
    ledger entry, each entry once, in ascending order of location id and
    then flavor id; a line carries the names of the location and the flavor,
    the entry's quantity and average cost rounded to 2 and 4 places, and
    the quantity in containers, the binary64 quotient by 640 rounded to 2
    places, each rounding being Python's [round] on a binary64 value. *)
Theorem inventory_levels_lists_the_ledger :
  forall d,
    exists rows,
      generate_inventory_levels d
      = (inr (map (inventory_line_of (loc_names_of d) (flv_names_of d)) rows), d)
      /\ Permutation rows (map_to_list (inventory_state d))
      /\ keys_ascend rows
      /\ length rows = size (inventory_state d)
      /\ (forall k v, In (k, v) rows <-> inventory_state d !! k = Some v).
Proof.
  intros d.
  exists (order_by (fun a b : Z * Z * (Q * Q) => key_leb (fst a) (fst b))
                   (map_to_list (inventory_state d))).
  pose proof (order_by_Permutation
                (fun a b : Z * Z * (Q * Q) => key_leb (fst a) (fst b))
                (map_to_list (inventory_state d))) as Hperm.
  split; [reflexivity|]. split; [exact Hperm|]. split.
  - apply order_by_ascends.
    + intros a b. apply key_leb_total.
    + intros a b c. apply key_leb_trans.
  - split.
    + rewrite Hperm. apply length_map_to_list.
    + intros k v. rewrite <- list_elem_of_In, Hperm.
      apply elem_of_map_to_list.
Qed.

(** ** Checkout *)

Lemma record_line_cases now line d :
  (exists msg, record_line now line d = (inl (ValueError msg), d))
  \/ (record_line now line d = (inr tt, snd (record_line now line d))
      /\ sales (snd (record_line now line d))
         = (sales d ++ [sale_of_line now line])%list).
Proof.
  unfold record_line. rewrite record_sale_cases.
  destruct (dict_get SCOOPS_OZ (cl_size line)) as [oz|]; [|left; eexists; reflexivity].
  destruct (Qlt_bool _ _); [left; eexists; reflexivity|].
  right. split; reflexivity.
Qed.

Lemma record_lines_cases now cart d :
  (exists d',
      for_each cart (record_line now) d = (inr tt, d')
      /\ sales d' = (sales d ++ map (sale_of_line now) cart)%list)
  \/ (exists pre line post msg d',
         cart = (pre ++ line :: post)%list
         /\ for_each cart (record_line now) d = (inl (ValueError msg), d')
         /\ sales d' = (sales d ++ map (sale_of_line now) pre)%list
         /\ record_line now line d' = (inl (ValueError msg), d')).
Proof.
  revert d. induction cart as [|line cart IH]; intros d.
  - left. exists d. split; [reflexivity|]. cbn. now rewrite app_nil_r.
  - cbn [for_each]. unfold bind.
    destruct (record_line_cases now line d) as [[msg Hf]|[Hok Hs]].
    + right. exists [], line, cart, msg, d. rewrite Hf. cbn.
      rewrite app_nil_r. auto.
    + rewrite Hok.
      destruct (IH (snd (record_line now line d)))
        as [(d' & H1 & H2)|(pre & l' & post & msg & d' & H1 & H2 & H3 & H4)].
      * left. exists d'. split; [exact H1|]. rewrite H2, Hs.
        cbn [map]. now rewrite <- app_assoc.
      * right. exists (line :: pre), l', post, msg, d'.
        split; [cbn; now rewrite H1|]. split; [exact H2|].
        split; [|exact H4]. rewrite H3, Hs. cbn [map]. now rewrite <- app_assoc.
Qed.

(** X15. Checkout is not all-or-nothing.  On an empty cart nothing happens.
    Otherwise the lines are recorded in order: when all go through, the
    cart is emptied and the sales log has grown by one row per line; when a
    line is refused, the lines before it stay recorded, the cart is left as
    it was, those lines included, and the message reads "No items were
    charged". *)
Theorem process_order_commits_a_prefix :
  forall now cart d,
    (cart = []
     /\ process_order now cart d
        = (inr (ShowInfo "Checkout" "Your cart is empty.", []), d))
    \/ (exists d',
           cart <> []
           /\ process_order now cart d
              = (inr (ShowInfo "Checkout"
                               "Thank you! Your order has been processed.", []),
                 d')
           /\ sales d' = (sales d ++ map (sale_of_line now) cart)%list)
    \/ (exists pre line post msg d',
           cart = (pre ++ line :: post)%list
           /\ process_order now cart d
              = (inr (ShowError "Checkout"
                                ("Order failed: " ++ msg
                                 ++ " No items were charged."),
                      cart),
                 d')
           /\ sales d' = (sales d ++ map (sale_of_line now) pre)%list
           /\ record_line now line d' = (inl (ValueError msg), d')).
Proof.
  intros now cart d. destruct cart as [|line0 cart0] eqn:Hcart.
  - left. split; reflexivity.
  - right. rewrite <- Hcart.
    assert (Hpo : process_order now cart d
                  = except_ValueError
                      (let* _ := for_each cart (record_line now) in
                       ret (ShowInfo "Checkout"
                                     "Thank you! Your order has been processed.",
                            []))
                      (fun e =>
                         ret (ShowError "Checkout"
                                ("Order failed: " ++ e ++ " No items were charged."),
                              cart)) d)
      by (rewrite Hcart; reflexivity).
    rewrite Hpo. unfold except_ValueError, bind.
    destruct (record_lines_cases now cart d)
      as [(d' & H1 & H2)|(pre & l' & post & msg & d' & H1 & H2 & H3 & H4)].
    + left. exists d'. rewrite H1. split; [congruence|]. split; [reflexivity|exact H2].
    + right. exists pre, l', post, msg, d'. rewrite H2.
      split; [exact H1|]. split; [reflexivity|]. split; [exact H3|exact H4].
Qed.

(** ** The cart *)

Lemma add_to_cart_positive fields cart :
  cart_positive cart -> cart_positive (snd (add_to_cart fields cart)).
Proof.
  intros H. destruct fields as [line|]; [|exact H]. unfold add_to_cart.
  destruct (Z.leb_spec (cl_quantity line) 0); [exact H|].
  cbn [snd]. apply Forall_app. split; [exact H|].
  constructor; [assumption|constructor].
Qed.

Lemma delete_selected_positive sel cart :
  cart_positive cart -> cart_positive (delete_selected_cart_item sel cart).
Proof.
  intros H. destruct sel as [idx|]; [|exact H]. unfold delete_selected_cart_item.
  destruct (in_cart idx cart); [|exact H]. now apply Forall_delete.
Qed.

Lemma adjust_qty_positive sel delta cart :
  cart_positive cart -> cart_positive (adjust_qty sel delta cart).
Proof.
  intros H. destruct sel as [idx|]; [|exact H]. unfold adjust_qty.
  destruct (in_cart idx cart); [|exact H].
  destruct (cart !! Z.to_nat idx) as [line|]; [|exact H].
  cbn [cl_quantity].
  destruct (Z.leb_spec (cl_quantity line + delta) 0).
  - now apply Forall_delete.
  - apply Forall_insert; [exact H|]. cbn [cl_quantity]. assumption.
Qed.

(** X16. When every line of the cart has a positive quantity, this is still
    so after adding a line, after deleting the selected line, and after
    adjusting the quantity of the selected line by any amount, whatever the
    selection: a line whose quantity would drop to 0 or below is removed. *)
Theorem cart_stays_positive :
  forall cart,
    cart_positive cart ->
    (forall fields, cart_positive (snd (add_to_cart fields cart)))
    /\ (forall sel, cart_positive (delete_selected_cart_item sel cart))
    /\ (forall sel delta, cart_positive (adjust_qty sel delta cart)).
Proof.
  intros cart H. split; [|split].
  - intros fields. now apply add_to_cart_positive.
  - intros sel. now apply delete_selected_positive.
  - intros sel delta. now apply adjust_qty_positive.
Qed.

Lemma cart_stays_positive_witness :
  cart_positive [mk_line 1 1 "Small" 1 2; mk_line 1 2 "Large" 2 1]
  /\ adjust_qty (Some 1) (-1) [mk_line 1 1 "Small" 1 2; mk_line 1 2 "Large" 2 1]
     = [mk_line 1 1 "Small" 1 2]
  /\ cart_positive
       (adjust_qty (Some 1) (-1)
                   [mk_line 1 1 "Small" 1 2; mk_line 1 2 "Large" 2 1]).
Proof.
  assert (H : cart_positive [mk_line 1 1 "Small" 1 2; mk_line 1 2 "Large" 2 1]).
  { repeat constructor. }
  split; [exact H|]. split; [reflexivity|].
  exact (proj2 (proj2 (cart_stays_positive _ H)) (Some 1) (-1)).
Defined.

(** ** CSV import *)

Section CsvImport.

Variable R : Type.

Variable call : R -> M unit.

(** The number of rows of the log that [call] writes to. *)
Variable log_length : db -> nat.

Hypothesis call_logs :
  forall row d,
    (exists e, call row d = (inl e, d))
    \/ (exists d', call row d = (inr tt, d') /\ log_length d' = S (log_length d)).


End CsvImport.




(** ** What the two windows can do to the database *)

Lemma record_sale_purchases now l f size ct q date d :
  purchases (snd (record_sale now l f size ct q date d)) = purchases d.
Proof.
  rewrite record_sale_cases.
  destruct (dict_get SCOOPS_OZ size); [|reflexivity].
  now destruct (Qlt_bool _ _).
Qed.

Lemma record_lines_keep now cart d :
  ledger_nonneg d ->
  ledger_nonneg (snd (for_each cart (record_line now) d))
  /\ purchases (snd (for_each cart (record_line now) d)) = purchases d.
Proof.
  revert d. induction cart as [|line cart IH]; intros d H; [split; auto|].
  cbn [for_each]. unfold bind.
  pose proof (record_sale_nonneg now (cl_location_id line) (cl_flavor_id line)
                (cl_size line) (cl_container_type_id line) (cl_quantity line)
                None d H) as Hn.
  pose proof (record_sale_purchases now (cl_location_id line) (cl_flavor_id line)
                (cl_size line) (cl_container_type_id line) (cl_quantity line)
                None d) as Hp.
  fold (record_line now line) in Hn, Hp.
  destruct (record_line now line d) as [[e|[]] d1]; cbn [snd] in *.
  - split; assumption.
  - destruct (IH d1 Hn) as [H1 H2]. split; [exact H1|congruence].
Qed.

Lemma process_order_db now cart d :
  snd (process_order now cart d) = snd (for_each cart (record_line now) d).
Proof.
  destruct cart as [|line cart]; [reflexivity|].
  unfold process_order, except_ValueError, bind.
  destruct (for_each (line :: cart) (record_line now) d) as [[e|[]] d1];
    [destruct e|]; reflexivity.
Qed.

Lemma process_order_cart now cart d r d' :
  process_order now cart d = (inr r, d') -> snd r = [] \/ snd r = cart.
Proof.
  destruct cart as [|line cart]; [intros [= <- _]; left; reflexivity|].
  unfold process_order, except_ValueError, bind.
  destruct (for_each (line :: cart) (record_line now) d) as [[e|[]] d1].
  - destruct e; try discriminate. intros [= <- _]. right. reflexivity.
  - intros [= <- _]. left. reflexivity.
Qed.

Lemma process_order_sales now cart d :
  cart_positive cart ->
  Forall (fun s => 0 < s_quantity s) (sales d) ->
  Forall (fun s => 0 < s_quantity s) (sales (snd (process_order now cart d))).
Proof.
  intros Hcart Hd. rewrite process_order_db.
  assert (Hpre : forall pre,
             Forall (fun line => 0 < cl_quantity line) pre ->
             Forall (fun s => 0 < s_quantity s)
                    (sales d ++ map (sale_of_line now) pre)).
  { intros pre Hpre. apply Forall_app. split; [exact Hd|].
    induction Hpre; constructor; assumption. }
  destruct (record_lines_cases now cart d)
    as [(d' & H1 & H2)|(pre & l' & post & msg & d' & H1 & H2 & H3 & H4)].
  - rewrite H1. cbn [snd]. rewrite H2. now apply Hpre.
  - rewrite H2. cbn [snd]. rewrite H3. apply Hpre.
    unfold cart_positive in Hcart. rewrite H1 in Hcart.
    apply Forall_app in Hcart. tauto.
Qed.

Lemma add_location_cb_db entry d :
  snd (add_location_cb entry d) = d
  \/ snd (add_location_cb entry d) = snd (add_location (strip entry) d).
Proof.
  unfold add_location_cb. destruct (String.eqb (strip entry) ""); [left; reflexivity|].
  right. unfold bind.
  destruct (add_location (strip entry) d) as [[e|[]] d1]; reflexivity.
Qed.

Lemma save_restock_cb_db now loc flavor qty d :
  snd (save_restock_cb now loc flavor qty d) = d
  \/ exists l f c,
      0 < c
      /\ snd (save_restock_cb now loc flavor qty d)
         = snd (record_purchase now l f c None d).
Proof.
  unfold save_restock_cb.
  destruct loc as [l|]; [|left; reflexivity].
  destruct flavor as [f|]; [|left; reflexivity].
  destruct qty as [e|c]; [left; reflexivity|].
  unfold bind. cbn [eval_arg ret].
  destruct (Z.leb_spec c 0); [left; reflexivity|].
  right. exists l, f, c. split; [assumption|].
  destruct (record_purchase now l f c None d) as [[e|[]] d1]; reflexivity.
Qed.

Lemma record_purchase_log now l f c date d :
  0 < c ->
  Forall (fun p => 0 < p_containers p) (purchases d) ->
  Forall (fun p => 0 < p_containers p)
         (purchases (snd (record_purchase now l f c date d))).
Proof.
  intros Hc H. rewrite record_purchase_cases.
  destruct (flavor_cost d f) as [p|]; [|exact H].
  cbn. apply Forall_app. split; [exact H|].
  constructor; [exact Hc|constructor].
Qed.

Lemma gui_step_sound ev st : gui_sound st -> gui_sound (gui_step ev st).
Proof.
  destruct st as [d cart]. intros (Hn & Hc & Hp & Hs). cbn [fst snd] in *.
  destruct ev as [entry|now loc flavor qty|fields|sel|sel delta|now];
    cbn [gui_step].
  - destruct (add_location_cb_db entry d) as [->| ->].
    + repeat split; assumption.
    + repeat split; cbn [fst snd].
      * now apply add_location_nonneg.
      * exact Hc.
      * now rewrite add_location_purchases.
      * now rewrite add_location_sales.
  - destruct (save_restock_cb_db now loc flavor qty d)
      as [->|(l & f & c & Hpos & ->)].
    + repeat split; assumption.
    + repeat split; cbn [fst snd].
      * apply record_purchase_nonneg; [lia|exact Hn].
      * exact Hc.
      * now apply record_purchase_log.
      * now rewrite record_purchase_sales.
  - repeat split; cbn [fst snd]; try assumption.
    now apply add_to_cart_positive.
  - repeat split; cbn [fst snd]; try assumption.
    now apply delete_selected_positive.
  - repeat split; cbn [fst snd]; try assumption.
    now apply adjust_qty_positive.
  - pose proof (process_order_db now cart d) as Hdb.
    pose proof (process_order_sales now cart d Hc Hs) as Hsales.
    pose proof (process_order_cart now cart d) as Hcart.
    destruct (record_lines_keep now cart d Hn) as [Hn' Hp'].
    rewrite <- Hdb in Hn', Hp'.
    destruct (process_order now cart d) as [[e|[dlg cart']] d1]; cbn [snd] in *.
    + repeat split; cbn [fst snd]; try assumption. congruence.
    + repeat split; cbn [fst snd]; try assumption; [|congruence].
      destruct (Hcart _ _ eq_refl) as [E|E]; cbn [snd] in E; subst;
        [constructor|exact Hc].
Qed.

(** X18. Through the callbacks that add a location, save a restock, fill
    and edit the cart and check it out, in any order and with any input,
    starting from a new database and an empty cart (the CSV imports left
    aside), no ledger quantity is ever negative, every line of the cart
    has a positive quantity, and every purchase and every sale logged has a
    positive count. *)
Theorem gui_keeps_the_books_sound :
  forall evs, gui_sound (gui_run evs (fresh_db, [])).
Proof.
  intros evs. unfold gui_run.
  assert (H : gui_sound (fresh_db, [])).
  { repeat split; cbn [fst snd]; try constructor. exact fresh_db_nonneg. }
  revert H. generalize (fresh_db, @nil cart_line) as st.
  induction evs as [|ev evs IH]; intros st H; [exact H|].
  cbn [fold_left]. apply IH. now apply gui_step_sound.
Qed.

(** ** Stored names are stripped *)

Lemma lstrip_lstrip s : lstrip (lstrip s) = lstrip s.
Proof.
  induction s as [|c s IH]; [reflexivity|].
  cbn [lstrip]. destruct (is_space c) eqn:E; [exact IH|].
  cbn [lstrip]. now rewrite E.
Qed.

Lemma rstrip_rstrip s : rstrip (rstrip s) = rstrip s.
Proof.
  induction s as [|c s IH]; [reflexivity|].
  cbn [rstrip]. destruct (rstrip s) as [|a r] eqn:E.
  - destruct (is_space c) eqn:Ec; [reflexivity|]. cbn [rstrip]. now rewrite Ec.
  - cbn [rstrip]. cbn [rstrip] in IH. rewrite IH. reflexivity.
Qed.

Lemma lstrip_rstrip_lstrip s : lstrip (rstrip (lstrip s)) = rstrip (lstrip s).
Proof.
  induction s as [|c s IH]; [reflexivity|].
  cbn [lstrip]. destruct (is_space c) eqn:E; [exact IH|].
  cbn [rstrip]. destruct (rstrip s) as [|a r].
  - rewrite E. cbn [lstrip]. now rewrite E.
  - cbn [lstrip]. now rewrite E.
Qed.

Lemma strip_strip s : strip (strip s) = strip s.
Proof.
  unfold strip. now rewrite lstrip_rstrip_lstrip, rstrip_rstrip.
Qed.

Lemma add_location_stripped name d :
  names_stripped d -> names_stripped (snd (add_location name d)).
Proof.
  intros H. rewrite add_location_cases.
  destruct (name_taken (strip name) (locations d)); [exact H|].
  unfold names_stripped, location_names. cbn [snd after_add_location locations].
  rewrite map_app. apply Forall_app. split; [exact H|].
  constructor; [apply strip_strip|constructor].
Qed.

Lemma exec_stripped o d : names_stripped d -> names_stripped (exec o d).
Proof.
  destruct o; cbn [exec]; intros H.
  - now apply add_location_stripped.
  - unfold names_stripped, location_names. now rewrite record_purchase_locations.
  - unfold names_stripped, location_names. now rewrite record_sale_locations.
Qed.

Lemma exec_all_stripped ops d : names_stripped d -> names_stripped (exec_all ops d).
Proof.
  unfold exec_all. revert d.
  induction ops as [|o ops IH]; intros d H; [exact H|].
  cbn [fold_left]. apply IH. now apply exec_stripped.
Qed.

(** X19. The name a location is stored under is always free of surrounding
    blanks, [strip] being idempotent.  Hence on any database reached from a
    new one, adding a name that is, as it stands, the name of a location is
    refused and changes nothing. *)
Theorem stored_name_is_refused :
  (forall s, strip (strip s) = strip s)
  /\
  (forall ops name,
      let d := exec_all ops fresh_db in
      names_stripped d
      /\ (In name (location_names d) -> add_location name d = (inr false, d))).
Proof.
  split; [exact strip_strip|].
  intros ops name d.
  assert (H : names_stripped d).
  { apply exec_all_stripped. constructor. }
  split; [exact H|]. intros Hin.
  rewrite add_location_cases.
  assert (Hs : strip name = name).
  { exact (proj1 (List.Forall_forall _ _) H name Hin). }
  rewrite Hs. apply name_taken_In in Hin.
  unfold location_names in Hin. now rewrite Hin.
Qed.

Lemma stored_name_is_refused_witness :
  In "Main" (location_names (exec_all [AddLocation "  Main "] fresh_db))
  /\ add_location "Main" (exec_all [AddLocation "  Main "] fresh_db)
     = (inr false, exec_all [AddLocation "  Main "] fresh_db).
Proof.
  assert (H : In "Main" (location_names (exec_all [AddLocation "  Main "] fresh_db)))
    by (left; reflexivity).
  split; [exact H|].
  exact (proj2 (proj2 stored_name_is_refused [AddLocation "  Main "] "Main") H).
Defined.

(** ** A sale with an unknown container type *)

Lemma sale_line_unknown_container conts acc row d :
  zdict_get conts (s_container_type_id row) = None ->
  exists e, sale_line conts acc row d = (inl e, d).
Proof.
  intros H. unfold sale_line. rewrite H.
  destruct (dict_get SCOOPS_OZ (s_size row)); eexists; reflexivity.
Qed.

Lemma sale_lines_fail conts rows row acc d :
  In row rows ->
  zdict_get conts (s_container_type_id row) = None ->
  exists e, fold_M rows (sale_line conts) acc d = (inl e, d).
Proof.
  intros Hin Hct. revert acc.
  induction rows as [|r rows IH]; intros acc; [destruct Hin|].
  cbn [fold_M]. unfold bind.
  pose proof (sale_line_readonly conts acc r d) as Hro.
  destruct (sale_line conts acc r d) as [[e|acc1] d1] eqn:E;
    cbn in Hro; subst d1; [eexists; reflexivity|].
  destruct Hin as [->|Hin].
  - destruct (sale_line_unknown_container conts acc row d Hct) as [e He].
    congruence.
  - now apply IH.
Qed.

Lemma location_steps_fail conts start end_ locs loc out d e :
  In loc locs ->
  location_statement conts start end_ (fst loc) d = (inl e, d) ->
  exists e', fold_M locs (location_step conts start end_) out d = (inl e', d).
Proof.
  intros Hin Hfail. revert out.
  induction locs as [|l locs IH]; intros out; [destruct Hin|].
  cbn [fold_M]. unfold bind at 1, location_step at 1, bind at 1.
  pose proof (location_statement_readonly conts start end_ (fst l) d) as Hro.
  destruct (location_statement conts start end_ (fst l) d) as [[e1|st] d1] eqn:E;
    cbn in Hro; subst d1; [eexists; reflexivity|].
  unfold ret at 1. destruct Hin as [->|Hin]; [congruence|]. now apply IH.
Qed.

(** X20. [record_sale] does not check the container type, and the income
    statement does not survive it: if a sale row of an existing location
    falls in the window of the month and names a container type that the
    catalog does not hold, the income statement of that month raises, for
    all locations, and nothing is returned. *)
Theorem income_statement_unknown_container :
  forall year month d s,
    In s (sales d) ->
    In (s_location_id s) (map fst (locations d)) ->
    in_month year month (s_sale_date s) = true ->
    ~ In (s_container_type_id s)
         (map (fun r : Z * string * Q * Z => fst (fst (fst r))) (containers d)) ->
    exists e, generate_income_statement year month d = (inl e, d).
Proof.
  intros year month d s Hs Hloc Hin Hct.
  assert (Hnone : zdict_get (conts_of d) (s_container_type_id s) = None).
  { destruct (zdict_get (conts_of d) (s_container_type_id s)) as [v|] eqn:E;
      [|reflexivity].
    exfalso. apply Hct. unfold conts_of, zdict_of_rows in E.
    set (rows := order_by _ (containers d)) in E.
    assert (Hkeys : forall (rows : list (Z * string * Q * Z)) acc k,
               is_Some (zdict_get
                          (fold_left
                             (fun dct row =>
                                zdict_set dct (fst (fst (fst row)))
                                  (snd (fst (fst row)), snd (fst row), snd row))
                             rows acc) k) ->
               is_Some (zdict_get acc k)
               \/ In k (map (fun r : Z * string * Q * Z => fst (fst (fst r))) rows)).
    { clear. induction rows as [|r rows IH]; intros acc k H; [left; exact H|].
      cbn [fold_left] in H. apply IH in H as [H|H]; [|right; right; exact H].
      rewrite zdict_get_set in H.
      destruct (Z.eqb_spec (fst (fst (fst r))) k) as [He|Hne];
        [right; left; exact He|left; exact H]. }
    destruct (Hkeys rows [] (s_container_type_id s)) as [[v' Hv]|Hk];
      [rewrite E; eauto|discriminate|].
    apply in_map_iff in Hk as [r [<- Hr]]. apply in_map_iff.
    exists r. split; [reflexivity|]. subst rows. now apply order_by_In in Hr. }
  apply in_map_iff in Hloc as [loc [Hid Hloc]].
  assert (Hfail : exists e,
             location_statement (conts_of d) (fst (_month_bounds year month))
               (snd (_month_bounds year month)) (fst loc) d = (inl e, d)).
  { unfold location_statement, bind at 1, select_sales_of_location, gets.
    unfold bind at 1.
    destruct (sale_lines_fail (conts_of d)
                (List.filter
                   (fun s0 => (s_location_id s0 =? fst loc)%Z
                              && in_range (fst (_month_bounds year month))
                                          (snd (_month_bounds year month))
                                          (s_sale_date s0)) (sales d))
                s (mk_acc 0 [] 0 0) d) as [e He].
    - apply filter_In. split; [exact Hs|].
      rewrite Hid, Z.eqb_refl. exact Hin.
    - exact Hnone.
    - rewrite He. eexists. reflexivity. }
  destruct Hfail as [e He].
  unfold generate_income_statement, bind, list_containers, list_locations, gets.
  apply (location_steps_fail _ _ _ _ loc _ _ e); [|exact He].
  now apply order_by_In.
Qed.

Lemma income_statement_unknown_container_witness :
  In odd_sale (sales odd_db)
  /\ In (s_location_id odd_sale) (map fst (locations odd_db))
  /\ in_month 2024 5 (s_sale_date odd_sale) = true
  /\ ~ In (s_container_type_id odd_sale)
          (map (fun r : Z * string * Q * Z => fst (fst (fst r))) (containers odd_db))
  /\ exists e, generate_income_statement 2024 5 odd_db = (inl e, odd_db).
Proof.
  assert (H1 : In odd_sale (sales odd_db)) by (vm_compute; left; reflexivity).
  assert (H2 : In (s_location_id odd_sale) (map fst (locations odd_db)))
    by (vm_compute; left; reflexivity).
  assert (H3 : in_month 2024 5 (s_sale_date odd_sale) = true)
    by (vm_compute; reflexivity).
  assert (H4 : ~ In (s_container_type_id odd_sale)
                    (map (fun r : Z * string * Q * Z => fst (fst (fst r)))
                         (containers odd_db))).
  { vm_compute. intros [H|[H|[H|[]]]]; discriminate. }
  split; [exact H1|]. split; [exact H2|]. split; [exact H3|]. split; [exact H4|].
  exact (income_statement_unknown_container 2024 5 odd_db odd_sale H1 H2 H3 H4).
Defined.
